(** * invoicer: calendar events, invoice cycles, invoice numbers and totals

    A shallow embedding of the logic of [main.py], [database.py],
    [calendar_client.py], [pdf_generator.py] and [auth.py], followed by the
    properties of the selection parser, the invoice numbering, the totals,
    the event store, the deletion of invoices, and of the commands that
    put these together.

    Conventions of the embedding
    - a Python [str] is a [string] whose characters are the code points
      U+0000..U+00FF; a Python [int] is a [Z]; a Python [float] is a
      binary64 [float] with the IEEE operations of [PrimFloat];
    - a raised exception is the [Raise] branch of [res]; a command of the
      command line ends in an [outcome];
    - the SQLite tables are lists of rows in rowid order, threaded through
      every operation of [database.py]; the files on disk are a set of
      paths;
    - what the user types at a prompt and what the calendar service
      answers are arguments of the command that asks for them;
    - SQLite's [date()], its limit on the variables of a statement, the
      clock, the date arithmetic of [datetime] and the layout of the PDF
      are parameters (Section variables) of the definitions that use them.

    Not modelled: what the commands print, failures of the disk or of the
    database file, and dates or time stamps that SQLite would store as
    numbers because they read as numbers. *)

From Stdlib Require Import ZArith String Ascii List Bool Lia.
From Stdlib Require Import PrimFloat FloatOps SpecFloat FloatAxioms Uint63.
From stdpp Require Import gmap strings list sorting.

Set Warnings "-inexact-float".
Local Open Scope Z_scope.

(** ** Python built-ins *)

Module Py.

(** The exception classes the modelled code can raise. *)
Inductive exn : Type :=
| ValueError        (* int() of a bad literal, unpacking of a wrong length *)
| IndexError        (* list index out of range *)
| KeyError          (* missing dictionary key *)
| IntegrityError    (* sqlite3: UNIQUE or NOT NULL constraint failed *)
| OperationalError  (* sqlite3: too many SQL variables *)
| ProgrammingError  (* sqlite3: wrong number of bindings *)
| Exception.        (* raise Exception(f"Failed to ...") *)

#[global] Instance exn_eq_dec : EqDecision exn.
Proof. solve_decision. Defined.

(** [issubclass(e, cls)] among these classes: [Exception] is the base of
    all of them. *)
Definition issubclass (e cls : exn) : bool :=
  bool_decide (e = cls) || bool_decide (cls = Exception).

Inductive res (A : Type) : Type :=
| Ok (a : A)
| Raise (e : exn).
Arguments Ok {A} a.
Arguments Raise {A} e.

#[global] Instance res_ret : MRet res := fun A a => Ok a.

#[global] Instance res_bind : MBind res := fun A B k m =>
  match m with
  | Ok a => k a
  | Raise e => Raise e
  end.

(** A [for] loop whose body may raise: the state is threaded through the
    items from left to right and the first exception ends the loop. *)
Fixpoint for_each {A S : Type} (body : S -> A -> res S) (items : list A) (s : S)
  : res S :=
  match items with
  | [] => Ok s
  | x :: rest => s' ← body s x; for_each body rest s'
  end.

(** [str.isspace] on one character: the ASCII white space of CPython's
    table, plus U+0085 and U+00A0. *)
Definition isspace (c : ascii) : bool :=
  let n := nat_of_ascii c in
  ((9 <=? n) && (n <=? 13) || (28 <=? n) && (n <=? 32)
   || (n =? 133) || (n =? 160))%nat.

Definition isdigit (c : ascii) : bool :=
  let n := nat_of_ascii c in ((48 <=? n) && (n <=? 57))%nat.

Definition digit_value (c : ascii) : Z := Z.of_nat (nat_of_ascii c) - 48.

Fixpoint lstrip (s : string) : string :=
  match s with
  | String c r => if isspace c then lstrip r else s
  | EmptyString => EmptyString
  end.

(** Drops the white space at the end: a character is kept when it is not
    white space or something is kept after it. *)
Fixpoint rstrip (s : string) : string :=
  match s with
  | EmptyString => EmptyString
  | String c r =>
      match rstrip r with
      | EmptyString => if isspace c then EmptyString else String c EmptyString
      | r' => String c r'
      end
  end.

(** [s.strip()] *)
Definition strip (s : string) : string := rstrip (lstrip s).

(** [s.split(sep)] for a separator of one character: never empty, and
    [n] separators give [n + 1] fields. *)
Fixpoint split (sep : ascii) (s : string) : list string :=
  match s with
  | EmptyString => [EmptyString]
  | String c r =>
      if Ascii.eqb c sep then EmptyString :: split sep r
      else match split sep r with
           | f :: fs => String c f :: fs
           | [] => [String c EmptyString]
           end
  end.

(** [c in s] for a character [c]. *)
Fixpoint contains (c : ascii) (s : string) : bool :=
  match s with
  | EmptyString => false
  | String d r => Ascii.eqb d c || contains c r
  end.

(** [s.lower()] on U+0000..U+00FF: A-Z and the capital letters of
    U+00C0..U+00DE (the sign U+00D7 apart) move up by 32. *)
Definition lower_char (c : ascii) : ascii :=
  let n := nat_of_ascii c in
  if ((65 <=? n) && (n <=? 90)
      || (192 <=? n) && (n <=? 222) && negb (n =? 215))%nat
  then ascii_of_nat (n + 32) else c.

Fixpoint lower (s : string) : string :=
  match s with
  | EmptyString => EmptyString
  | String c r => String (lower_char c) (lower r)
  end.

(** The digits of a decimal literal after its sign: digits with single
    underscores between them. [underscore] says that the character before
    was an underscore. *)
Fixpoint int_digits (acc : Z) (underscore : bool) (s : string) : option Z :=
  match s with
  | EmptyString => if underscore then None else Some acc
  | String c r =>
      if isdigit c then int_digits (10 * acc + digit_value c) false r
      else if Ascii.eqb c "_" then
             if underscore then None else int_digits acc true r
      else None
  end.

Definition int_unsigned (s : string) : option Z :=
  match s with
  | EmptyString => None
  | String c _ => if Ascii.eqb c "_" then None else int_digits 0 false s
  end.

(** [int(s)] in base 10: white space around, an optional sign, then the
    digits. [None] is ValueError. The limit CPython 3.11 puts on the
    number of digits (4300 by default, also a ValueError) is not part of
    the model. *)
Definition int (s : string) : res Z :=
  let body := strip s in
  let parsed :=
    match body with
    | String "+" r => int_unsigned r
    | String "-" r => Z.opp <$> int_unsigned r
    | _ => int_unsigned body
    end in
  match parsed with
  | Some n => Ok n
  | None => Raise ValueError
  end.

(** [range(a, b)] *)
Definition range (a b : Z) : list Z := seqZ a (b - a).

(** [l[i]] with Python's negative indices. *)
Definition getitem {A : Type} (l : list A) (i : Z) : res A :=
  let n := Z.of_nat (length l) in
  let j := if i <? 0 then i + n else i in
  if (0 <=? j) && (j <? n) then
    match l !! Z.to_nat j with
    | Some x => Ok x
    | None => Raise IndexError
    end
  else Raise IndexError.

(** [sorted(list(s))] for a set of integers. *)
Definition sorted_set (s : gset Z) : list Z := merge_sort Z.le (elements s).

(** [float(n)]; exact for an integer of size below 2^53, the range the
    model is used in. *)
Definition float_of_int (n : Z) : float :=
  if n <? 0 then (- PrimFloat.of_uint63 (Uint63.of_Z (- n)))%float
  else PrimFloat.of_uint63 (Uint63.of_Z n).

(** [a / b] on two integers (true division). *)
Definition int_truediv (a b : Z) : float :=
  (float_of_int a / float_of_int b)%float.

(** [bool(x)] of a float: false for 0.0 and -0.0 only. *)
Definition truthy (x : float) : bool := negb (PrimFloat.eqb x 0).

(** [sum(xs)] of floats: the additions from left to right, from 0. From
    CPython 3.12 on, [compensated], the rounding errors of the additions
    are added up beside (Neumaier's summation) and their sum is added at
    the end when it is finite and not 0. *)
Fixpoint sum_from (compensated : bool) (xs : list float) (f c : float) : float :=
  match xs with
  | [] =>
      if compensated && truthy c && PrimFloat.is_finite c then (f + c)%float else f
  | x :: rest =>
      let t := (f + x)%float in
      let c' :=
        if PrimFloat.leb (PrimFloat.abs x) (PrimFloat.abs f)
        then (c + ((f - t) + x))%float
        else (c + ((x - t) + f))%float in
      sum_from compensated rest t c'
  end.

Definition sum (compensated : bool) (xs : list float) : float :=
  sum_from compensated xs 0 0.

(** [n / d] rounded to the nearest integer, a tie to the even one. *)
Definition div_half_even (n d : Z) : Z :=
  let q := n / d in
  let r := n mod d in
  if 2 * r <? d then q
  else if d <? 2 * r then q + 1
  else if Z.even q then q else q + 1.

(** [round(x, 2)]: the exact value of [x] is rounded to two decimals,
    a tie to the even digit, and the float nearest to that decimal is
    returned. A float of size 2^53 / 100 or more has no digit to drop;
    zeros, infinities and NaN are returned as they are. *)
Definition round2 (x : float) : float :=
  match Prim2SF x with
  | S754_finite s m e =>
      let n := 100 * Z.pos m in
      let q := if 0 <=? e then n * 2 ^ e else div_half_even n (2 ^ (- e)) in
      if q <? 2 ^ 53 then
        let r := (float_of_int q / 100)%float in
        if s then (- r)%float else r
      else x
  | _ => x
  end.

End Py.

(** ** SQLite built-ins *)

Module Sqlite.

(** [ORDER BY key] on a TEXT column: ascending under the BINARY collation,
    the order [String.le] of the code points. Rows come in rowid order and
    SQL leaves the order of rows with equal keys open. *)
Definition order_by {A : Type} (key : A -> string) (rows : list A) : list A :=
  merge_sort (fun a b => String.le (key a) (key b)) rows.

(** [x LIKE '#%'] *)
Definition like_hash (x : string) : bool :=
  match x with
  | String "#" _ => true
  | _ => false
  end.

(** [SUBSTR(x, 2)] *)
Definition substr2 (x : string) : string :=
  match x with
  | String _ r => r
  | EmptyString => EmptyString
  end.

Definition isspace (c : ascii) : bool :=
  let n := nat_of_ascii c in ((9 <=? n) && (n <=? 13) || (n =? 32))%nat.

Fixpoint skip_spaces (s : string) : string :=
  match s with
  | String c r => if isspace c then skip_spaces r else s
  | EmptyString => EmptyString
  end.

(** The value of the longest prefix of decimal digits, 0 when empty. *)
Fixpoint digit_prefix (acc : Z) (s : string) : Z :=
  match s with
  | String c r =>
      if Py.isdigit c then digit_prefix (10 * acc + Py.digit_value c) r else acc
  | EmptyString => acc
  end.

Definition MAX_INT64 : Z := 9223372036854775807.
Definition MIN_INT64 : Z := -9223372036854775808.

(** [CAST(x AS INTEGER)] of a TEXT value: leading spaces are skipped, the
    longest prefix that reads as an integer is taken (0 when there is
    none) and a value outside 64 bits becomes the nearest bound. *)
Definition cast_integer (x : string) : Z :=
  let v :=
    match skip_spaces x with
    | String "-" r => - digit_prefix 0 r
    | String "+" r => digit_prefix 0 r
    | s => digit_prefix 0 s
    end in
  Z.max MIN_INT64 (Z.min MAX_INT64 v).

(** The aggregate [MAX(...)]: NULL over no row. *)
Definition max_agg (l : list Z) : option Z :=
  match l with
  | [] => None
  | x :: r => Some (fold_left Z.max r x)
  end.

(** A Python float bound to a parameter: NaN is stored as NULL. *)
Definition bind_real (x : float) : option float :=
  if PrimFloat.is_nan x then None else Some x.

(** The rowid an AUTOINCREMENT key gives a new row: one more than the
    largest rowid the table has ever held ([seq], from sqlite_sequence)
    and holds now. *)
Definition next_rowid (seq : Z) (ids : list Z) : Z :=
  fold_left Z.max ids seq + 1.

End Sqlite.

(** ** database.py: the tables *)

Module Schema.

(** invoice_cycles; [currency] and [created_at] are never read by the
    modelled code and are left out. The dates are the texts given on the
    command line, [YYYY-MM-DD] by convention; nothing checks them. *)
Record Cycle : Type := {
  cyc_id : Z;
  cyc_name : string;
  cyc_start_date : string;
  cyc_end_date : string;
  cyc_hourly_rate : option float;
  cyc_client_name : option string;
  cyc_client_address : option string;
  cyc_client_gstin : option string
}.

(** calendar_events: [ev_id] is the rowid, [ev_event_id] the calendar's
    key (UNIQUE). *)
Record Event : Type := {
  ev_id : Z;
  ev_event_id : string;
  ev_title : string;
  ev_description : string;
  ev_start_time : string;
  ev_end_time : string;
  ev_duration_hours : float;
  ev_cycle_id : option Z
}.

(** invoices; [generated_at] is left out. *)
Record InvoiceRow : Type := {
  inv_id : Z;
  inv_cycle_id : Z;
  inv_invoice_number : string;
  inv_invoice_date : string;
  inv_due_date : string;
  inv_total_hours : float;
  inv_hourly_rate : float;
  inv_total_amount : float;
  inv_pdf_path : option string
}.

(** user_profile; [logo_path] and [created_at] are left out. *)
Record Profile : Type := {
  prof_id : Z;
  full_name : string;
  address : string;
  account_name : option string;
  account_number : option string;
  ifsc_code : option string;
  bank_name : option string;
  account_type : option string;
  pan : option string
}.

(** The database file: the four tables, each in rowid order, and the
    sqlite_sequence counters of their AUTOINCREMENT keys. *)
Record DB : Type := {
  invoice_cycles : list Cycle;
  calendar_events : list Event;
  invoices : list InvoiceRow;
  user_profile : list Profile;
  seq_invoice_cycles : Z;
  seq_calendar_events : Z;
  seq_invoices : Z;
  seq_user_profile : Z
}.

Definition empty_db : DB :=
  {| invoice_cycles := []; calendar_events := []; invoices := [];
     user_profile := []; seq_invoice_cycles := 0; seq_calendar_events := 0;
     seq_invoices := 0; seq_user_profile := 0 |}.

Definition set_invoice_cycles (l : list Cycle) (s : Z) (db : DB) : DB :=
  {| invoice_cycles := l; calendar_events := calendar_events db;
     invoices := invoices db; user_profile := user_profile db;
     seq_invoice_cycles := s; seq_calendar_events := seq_calendar_events db;
     seq_invoices := seq_invoices db; seq_user_profile := seq_user_profile db |}.

Definition set_calendar_events (l : list Event) (s : Z) (db : DB) : DB :=
  {| invoice_cycles := invoice_cycles db; calendar_events := l;
     invoices := invoices db; user_profile := user_profile db;
     seq_invoice_cycles := seq_invoice_cycles db; seq_calendar_events := s;
     seq_invoices := seq_invoices db; seq_user_profile := seq_user_profile db |}.

Definition set_invoices (l : list InvoiceRow) (s : Z) (db : DB) : DB :=
  {| invoice_cycles := invoice_cycles db; calendar_events := calendar_events db;
     invoices := l; user_profile := user_profile db;
     seq_invoice_cycles := seq_invoice_cycles db;
     seq_calendar_events := seq_calendar_events db;
     seq_invoices := s; seq_user_profile := seq_user_profile db |}.

Definition set_user_profile (l : list Profile) (s : Z) (db : DB) : DB :=
  {| invoice_cycles := invoice_cycles db; calendar_events := calendar_events db;
     invoices := invoices db; user_profile := l;
     seq_invoice_cycles := seq_invoice_cycles db;
     seq_calendar_events := seq_calendar_events db;
     seq_invoices := seq_invoices db; seq_user_profile := s |}.

End Schema.

(** The files on disk that the modelled code creates, tests and removes:
    the set of paths of regular files. *)
Abbreviation files := (gset string).

Module InvoiceCycle.
Import Py Schema.

Definition create (name start_date end_date : string)
    (hourly_rate : option float) (client_name client_address client_gstin : option string)
    (db : DB) : DB * Z :=
  let new_id :=
    Sqlite.next_rowid (seq_invoice_cycles db) (map cyc_id (invoice_cycles db)) in
  let row :=
    {| cyc_id := new_id; cyc_name := name; cyc_start_date := start_date;
       cyc_end_date := end_date;
       cyc_hourly_rate := hourly_rate ≫= Sqlite.bind_real;
       cyc_client_name := client_name; cyc_client_address := client_address;
       cyc_client_gstin := client_gstin |} in
  (set_invoice_cycles (invoice_cycles db ++ [row]) new_id db, new_id).

(** [SELECT * FROM invoice_cycles WHERE id = ?], first row. *)
Definition get (cycle_id : Z) (db : DB) : option Cycle :=
  List.find (fun c => cyc_id c =? cycle_id) (invoice_cycles db).

Definition with_rate (r : option float) (c : Cycle) : Cycle :=
  {| cyc_id := cyc_id c; cyc_name := cyc_name c;
     cyc_start_date := cyc_start_date c; cyc_end_date := cyc_end_date c;
     cyc_hourly_rate := r; cyc_client_name := cyc_client_name c;
     cyc_client_address := cyc_client_address c;
     cyc_client_gstin := cyc_client_gstin c |}.

(** [UPDATE invoice_cycles SET hourly_rate = ? WHERE id = ?] *)
Definition update_rate (cycle_id : Z) (hourly_rate : float) (db : DB) : DB :=
  set_invoice_cycles
    (map (fun c => if cyc_id c =? cycle_id
                   then with_rate (Sqlite.bind_real hourly_rate) c else c)
         (invoice_cycles db))
    (seq_invoice_cycles db) db.

End InvoiceCycle.

Module CalendarEvent.
Import Py Schema.

(** The dictionaries [CalendarClient.fetch_events] builds. *)
Record EventDict : Type := {
  d_id : string;
  d_summary : string;
  d_description : string;
  d_start : string;
  d_end : string;
  d_duration_hours : float;
  d_attendees : list string
}.

(** [INSERT OR REPLACE INTO calendar_events (event_id, ...) VALUES (...)]:
    the row that holds the same [event_id], if any, is deleted and the new
    row is inserted under a fresh rowid. A NaN duration is bound as NULL and
    fails the NOT NULL constraint. *)
Definition insert_or_replace (cycle_id : option Z) (db : DB) (event : EventDict)
  : res DB :=
  match Sqlite.bind_real (d_duration_hours event) with
  | None => Raise IntegrityError
  | Some duration =>
      let new_id :=
        Sqlite.next_rowid (seq_calendar_events db) (map ev_id (calendar_events db)) in
      let row :=
        {| ev_id := new_id; ev_event_id := d_id event; ev_title := d_summary event;
           ev_description := d_description event; ev_start_time := d_start event;
           ev_end_time := d_end event; ev_duration_hours := duration;
           ev_cycle_id := cycle_id |} in
      let kept :=
        List.filter (fun r => negb (String.eqb (ev_event_id r) (d_id event)))
                    (calendar_events db) in
      Ok (set_calendar_events (kept ++ [row]) new_id db)
  end.

(** The commit follows the loop: when a row fails nothing is stored. *)
Definition bulk_insert (events : list EventDict) (cycle_id : option Z) (db : DB)
  : res DB :=
  for_each (insert_or_replace cycle_id) events db.

Section Engine.

(** SQLite's [date()] of a stored time stamp (NULL when it does not
    parse), and the engine's limit on the parameters of one statement. *)
Variable DATE : string -> option string.
Variable MAX_VARIABLE_NUMBER : nat.

(** The WHERE clause of [get_unassigned]; a NULL date selects nothing. *)
Definition unassigned_in_range (start_date end_date : string) (e : Event) : bool :=
  match ev_cycle_id e, DATE (ev_start_time e), DATE (ev_end_time e) with
  | None, Some ds, Some de => String.leb start_date ds && String.leb de end_date
  | _, _, _ => false
  end.

Definition get_unassigned (start_date end_date : string) (db : DB) : list Event :=
  Sqlite.order_by ev_start_time
    (List.filter (unassigned_in_range start_date end_date) (calendar_events db)).

(** [','.join('?' * n)] *)
Definition placeholders (n : nat) : string :=
  String.concat "," (replicate n "?").

Fixpoint count_char (c : ascii) (s : string) : nat :=
  match s with
  | EmptyString => 0%nat
  | String d r => ((if Ascii.eqb d c then 1 else 0) + count_char c r)%nat
  end.

Definition with_cycle (c : option Z) (e : Event) : Event :=
  {| ev_id := ev_id e; ev_event_id := ev_event_id e; ev_title := ev_title e;
     ev_description := ev_description e; ev_start_time := ev_start_time e;
     ev_end_time := ev_end_time e; ev_duration_hours := ev_duration_hours e;
     ev_cycle_id := c |}.

(** [UPDATE calendar_events SET cycle_id = ? WHERE id IN (<placeholders>)]
    with the parameters [[cycle_id] + event_ids]. The statement has one
    variable for [cycle_id] and one per [?] of the list; SQLite accepts an
    empty list after IN, which no row satisfies. *)
Definition assign_to_cycle (event_ids : list Z) (cycle_id : Z) (db : DB) : res DB :=
  let in_list := placeholders (length event_ids) in
  let params := cycle_id :: event_ids in
  let variables := S (count_char "?" in_list) in
  if (MAX_VARIABLE_NUMBER <? variables)%nat then Raise OperationalError
  else if negb (variables =? length params)%nat then Raise ProgrammingError
  else
    Ok (set_calendar_events
          (map (fun e => if bool_decide (ev_id e ∈ event_ids)
                         then with_cycle (Some cycle_id) e else e)
               (calendar_events db))
          (seq_calendar_events db) db).

End Engine.

(** [SELECT * FROM calendar_events WHERE cycle_id = ? ORDER BY start_time] *)
Definition get_by_cycle (cycle_id : Z) (db : DB) : list Event :=
  Sqlite.order_by ev_start_time
    (List.filter (fun e => bool_decide (ev_cycle_id e = Some cycle_id))
                 (calendar_events db)).

End CalendarEvent.

Module Invoice.
Import Py Schema.

(** [INSERT INTO invoices ...]: [invoice_number] is UNIQUE, the three REAL
    columns are NOT NULL. *)
Definition create (cycle_id : Z) (invoice_number invoice_date due_date : string)
    (total_hours hourly_rate total_amount : float) (pdf_path : string) (db : DB)
  : res (DB * Z) :=
  match Sqlite.bind_real total_hours, Sqlite.bind_real hourly_rate,
        Sqlite.bind_real total_amount with
  | Some th, Some hr, Some ta =>
      if existsb (fun i => String.eqb (inv_invoice_number i) invoice_number)
                 (invoices db)
      then Raise IntegrityError
      else
        let new_id := Sqlite.next_rowid (seq_invoices db) (map inv_id (invoices db)) in
        let row :=
          {| inv_id := new_id; inv_cycle_id := cycle_id;
             inv_invoice_number := invoice_number; inv_invoice_date := invoice_date;
             inv_due_date := due_date; inv_total_hours := th; inv_hourly_rate := hr;
             inv_total_amount := ta; inv_pdf_path := Some pdf_path |} in
        Ok (set_invoices (invoices db ++ [row]) new_id db, new_id)
  | _, _, _ => Raise IntegrityError
  end.

(** [f"{n:03d}"]: the decimal digits of [n], zeros in front up to a width
    of 3, the sign counted in the width. *)
Fixpoint digits_of (fuel : nat) (n : Z) (acc : string) : string :=
  match fuel with
  | O => acc
  | S fuel' =>
      let acc' := String (ascii_of_nat (Z.to_nat (48 + n mod 10))) acc in
      if n <? 10 then acc' else digits_of fuel' (n / 10) acc'
  end.

Definition str_of_nonneg (n : Z) : string :=
  digits_of (S (Z.to_nat (Z.log2 n))) n EmptyString.

Fixpoint zeros (n : nat) : string :=
  match n with
  | O => EmptyString
  | S k => String "0" (zeros k)
  end.

Definition zfill (width : nat) (s : string) : string :=
  (zeros (width - String.length s) ++ s)%string.

Definition format_03d (n : Z) : string :=
  if n <? 0 then String "-" (zfill 2 (str_of_nonneg (- n)))
  else zfill 3 (str_of_nonneg n).

(** [SELECT MAX(CAST(SUBSTR(invoice_number, 2) AS INTEGER)) FROM invoices
     WHERE invoice_number LIKE '#%'], then
    [max_num = result if result else 0] and [f"#{max_num + 1:03d}"]. *)
Definition get_next_invoice_number (db : DB) : string :=
  let result :=
    Sqlite.max_agg
      (map (fun i => Sqlite.cast_integer (Sqlite.substr2 (inv_invoice_number i)))
           (List.filter (fun i => Sqlite.like_hash (inv_invoice_number i))
                        (invoices db))) in
  let max_num :=
    match result with
    | Some m => if m =? 0 then 0 else m
    | None => 0
    end in
  String "#" (format_03d (max_num + 1)).

(** A row of [invoices i JOIN invoice_cycles c ON i.cycle_id = c.id]. *)
Record Joined : Type := {
  j_invoice : InvoiceRow;
  j_cycle_name : string;
  j_client_name : option string
}.

Definition join_cycles (db : DB) (i : InvoiceRow) : list Joined :=
  map (fun c => {| j_invoice := i; j_cycle_name := cyc_name c;
                   j_client_name := cyc_client_name c |})
      (List.filter (fun c => cyc_id c =? inv_cycle_id i) (invoice_cycles db)).

(** [SELECT i.*, c.name, c.client_name FROM invoices i JOIN invoice_cycles c
     ON i.cycle_id = c.id WHERE i.invoice_number = ?], first row. *)
Definition get_by_number (invoice_number : string) (db : DB) : option Joined :=
  head (concat (map (join_cycles db)
                    (List.filter
                       (fun i => String.eqb (inv_invoice_number i) invoice_number)
                       (invoices db)))).

(** [Invoice.delete]: the file at the stored path is removed when the path
    is not empty and the file exists (removing it does not fail); then the
    rows of that number are deleted and the result says whether a row
    was. *)
Definition delete (invoice_number : string) (db : DB) (fs : files)
  : DB * files * bool :=
  match get_by_number invoice_number db with
  | None => (db, fs, false)
  | Some invoice =>
      let fs' :=
        match inv_pdf_path (j_invoice invoice) with
        | Some p =>
            if negb (String.eqb p "") && bool_decide (p ∈ fs)
            then fs ∖ {[ p ]} else fs
        | None => fs
        end in
      let kept :=
        List.filter (fun i => negb (String.eqb (inv_invoice_number i) invoice_number))
                    (invoices db) in
      let rowcount := (length (invoices db) - length kept)%nat in
      (set_invoices kept (seq_invoices db) db, fs', (0 <? rowcount)%nat)
  end.

End Invoice.

Module UserProfile.
Import Py Schema.

(** [SELECT * FROM user_profile ORDER BY id DESC LIMIT 1] *)
Definition latest (db : DB) : option Profile :=
  match user_profile db with
  | [] => None
  | p :: rest =>
      Some (fold_left (fun best q => if prof_id best <? prof_id q then q else best)
                      rest p)
  end.

Definition default_profile (new_id : Z) : Profile :=
  {| prof_id := new_id; full_name := "Your Name"; address := "Your Address";
     account_name := None; account_number := None; ifsc_code := None;
     bank_name := None; account_type := None; pan := None |}.

Definition get_or_create (db : DB) : DB * Profile :=
  match latest db with
  | Some p => (db, p)
  | None =>
      let new_id :=
        Sqlite.next_rowid (seq_user_profile db) (map prof_id (user_profile db)) in
      (set_user_profile (user_profile db ++ [default_profile new_id]) new_id db,
       default_profile new_id)
  end.

(** [UPDATE user_profile SET ... WHERE id = (SELECT MAX(id) FROM user_profile)] *)
Definition update (profile_data : Profile) (db : DB) : DB :=
  match latest db with
  | None => db
  | Some top =>
      set_user_profile
        (map (fun p =>
                if prof_id p =? prof_id top then
                  {| prof_id := prof_id p; full_name := full_name profile_data;
                     address := address profile_data;
                     account_name := account_name profile_data;
                     account_number := account_number profile_data;
                     ifsc_code := ifsc_code profile_data;
                     bank_name := bank_name profile_data;
                     account_type := account_type profile_data;
                     pan := pan profile_data |}
                else p)
             (user_profile db))
        (seq_user_profile db) db
  end.

End UserProfile.

(** ** auth.py *)

Module Auth.
Import Py.

Section Environment.

(** [config.TOKEN_FILE], and what [Credentials.from_authorized_user_file]
    makes of the token file when there is one: it raises, or it gives
    credentials whose [valid] is the boolean. *)
Variable TOKEN_FILE : string.
Variable stored_credentials : res bool.

Definition is_authenticated (fs : files) : bool :=
  if bool_decide (TOKEN_FILE ∈ fs) then
    match stored_credentials with
    | Ok valid => valid
    | Raise _ => false
    end
  else false.

Definition clear_credentials (fs : files) : files * bool :=
  if bool_decide (TOKEN_FILE ∈ fs) then (fs ∖ {[ TOKEN_FILE ]}, true) else (fs, false).

End Environment.

End Auth.

(** ** calendar_client.py *)

Module CalendarClient.
Import Py CalendarEvent.

(** What [dateutil.parser.parse] makes of an RFC 3339 [dateTime]: an aware
    instant, here in microseconds of UTC, and the text [isoformat()]
    prints for it. *)
Record DateTime : Type := {
  utc_micros : Z;
  isoformat : string
}.

(** An item of the calendar's answer. [api_start] and [api_end] are the
    [dateTime] entries of [start] and [end]; an all-day event has none. *)
Record ApiEvent : Type := {
  api_id : string;
  api_summary : option string;
  api_description : option string;
  api_start : option DateTime;
  api_end : option DateTime;
  api_attendees : list (option string)
}.

(** [(end - start).total_seconds() / 3600] *)
Definition hours_between (start end_ : DateTime) : float :=
  (int_truediv (utc_micros end_ - utc_micros start) 1000000 / 3600)%float.

(** The body of the loop of [fetch_events]. *)
Definition process_event (processed_events : list EventDict) (event : ApiEvent)
  : res (list EventDict) :=
  match api_start event with
  | None => Ok processed_events             (* all-day: continue *)
  | Some start =>
      match api_end event with
      | None => Raise KeyError
      | Some end_ =>
          Ok (processed_events ++
              [ {| d_id := api_id event;
                   d_summary := default "No Title" (api_summary event);
                   d_description := default "" (api_description event);
                   d_start := isoformat start;
                   d_end := isoformat end_;
                   d_duration_hours := round2 (hours_between start end_);
                   d_attendees := map (default "") (api_attendees event) |} ])%list
      end
  end.

(** [fetch_events], from the answer of the calendar service on: anything
    raised on the way is raised again as [Exception]. *)
Definition fetch_events (response : res (list ApiEvent)) : res (list EventDict) :=
  match events ← response; for_each process_event events [] with
  | Ok processed_events => Ok processed_events
  | Raise _ => Raise Exception
  end.

End CalendarClient.

(** ** pdf_generator.py *)

Module PdfGenerator.
Import Py Schema.

Section Environment.

(** [datetime.now().strftime('%Y-%m-%d')]; the date [days] days after a
    date in that format, in that format (ValueError when the date does not
    parse); the directory [config.INVOICES_DIR]; and the layout of the
    document up to [doc.build], which raises on a cycle date or an event
    time stamp it cannot format and on text it cannot typeset. *)
Variable today : string.
Variable plus_days : string -> Z -> res string.
Variable INVOICES_DIR : string.
Variable build_document :
  string -> Cycle -> list Event -> Profile -> float -> bool -> string -> string -> res unit.

(** Whether the interpreter's [sum] is the compensated one. *)
Variable compensated : bool.

(** [s.replace('#', '')] *)
Fixpoint without_hash (s : string) : string :=
  match s with
  | EmptyString => EmptyString
  | String c r => if Ascii.eqb c "#" then without_hash r else String c (without_hash r)
  end.

(** [generate_invoice_pdf]: the number, the dates, the totals, the file,
    then the record. Building the document writes the file at [pdf_path];
    a build that raises leaves none. *)
Definition generate_invoice_pdf (cycle : Cycle) (events : list Event)
    (profile : Profile) (hourly_rate : float) (detailed : bool)
    (invoice_date : option string) (due_days : Z) (db : DB) (fs : files)
  : DB * files * res string :=
  let invoice_number := Invoice.get_next_invoice_number db in
  let invoice_date :=
    match invoice_date with
    | Some d => if String.eqb d "" then today else d
    | None => today
    end in
  match plus_days invoice_date due_days with
  | Raise e => (db, fs, Raise e)
  | Ok due_date =>
      let total_hours := sum compensated (map ev_duration_hours events) in
      let total_amount := (total_hours * hourly_rate)%float in
      let pdf_path :=
        (INVOICES_DIR ++ "/invoice-" ++ without_hash invoice_number ++ "-"
           ++ invoice_date ++ ".pdf")%string in
      match build_document pdf_path cycle events profile hourly_rate detailed
                           invoice_date due_date with
      | Raise e => (db, fs, Raise e)
      | Ok _ =>
          let fs' := {[ pdf_path ]} ∪ fs in
          match Invoice.create (cyc_id cycle) invoice_number invoice_date due_date
                               total_hours hourly_rate total_amount pdf_path db with
          | Raise e => (db, fs', Raise e)
          | Ok (db', _) => (db', fs', Ok pdf_path)
          end
      end
  end.

End Environment.

End PdfGenerator.

(** ** main.py *)

Module Main.
Import Py Schema.

(** The line a command ends on. *)
Inductive message : Type :=
| NotAuthenticated
| NoEventsFound
| EventsFound (count : nat)
| FetchFailed
| CycleNotFound
| NoUnassignedEvents
| EventsAssigned (count : nat)
| NoEventsSelected
| NoEventsAssigned
| InvoiceGenerated (pdf_path : string)
| GenerateFailed
| InvoiceNotFound
| Cancelled
| InvoiceDeleted
| DeleteFailed.

(** How a command ends: it returns, it calls [sys.exit(code)], or an
    exception leaves it uncaught. *)
Inductive outcome : Type :=
| Returned (m : message)
| Exit (code : Z) (m : message)
| Uncaught (e : exn).

(** One turn of the loop of [parse_selection]: [selected] is the set the
    loop adds to. *)
Definition parse_part (max_num : Z) (selected : gset Z) (part : string)
  : res (gset Z) :=
  let part := strip part in
  if contains "-" part then
    match split "-" part with
    | [s; e] =>
        start ← int s;
        end_ ← int e;
        Ok (list_to_set (range start (Z.min (end_ + 1) (max_num + 1))) ∪ selected)
    | _ => Raise ValueError   (* start, end = ...: wrong number of values *)
    end
  else
    num ← int part;
    if (1 <=? num) && (num <=? max_num)
    then Ok ({[ num ]} ∪ selected)
    else Ok selected.

Definition parse_selection (selection : string) (max_num : Z) : res (list Z) :=
  selected ← for_each (parse_part max_num) (split "," selection) ∅;
  Ok (sorted_set selected).

(** [fetch]: [authenticated] is [is_authenticated()], [response] the
    answer of the calendar service. *)
Definition fetch (authenticated : bool) (response : res (list CalendarClient.ApiEvent))
    (db : DB) : DB * outcome :=
  if negb authenticated then (db, Exit 1 NotAuthenticated)
  else
    match CalendarClient.fetch_events response with
    | Raise _ => (db, Exit 1 FetchFailed)
    | Ok [] => (db, Returned NoEventsFound)
    | Ok events =>
        match CalendarEvent.bulk_insert events None db with
        | Raise _ => (db, Exit 1 FetchFailed)
        | Ok db' => (db', Returned (EventsFound (length events)))
        end
    end.

Section Engine.

Variable DATE : string -> option string.
Variable MAX_VARIABLE_NUMBER : nat.

(** [[events[i-1]['id'] for i in selected_indices]] *)
Definition ids_at (events : list Event) (selected_indices : list Z) : res (list Z) :=
  for_each (fun ids i => e ← getitem events (i - 1); Ok (ids ++ [ev_id e])%list)
           selected_indices [].

(** [cycle assign]: [selection] is what the user types at the prompt. *)
Definition assign_events (cycle_id : Z) (selection : string) (db : DB)
  : DB * outcome :=
  match InvoiceCycle.get cycle_id db with
  | None => (db, Exit 1 CycleNotFound)
  | Some cycle =>
      let events :=
        CalendarEvent.get_unassigned DATE (cyc_start_date cycle) (cyc_end_date cycle) db in
      match events with
      | [] => (db, Returned NoUnassignedEvents)
      | _ =>
          let selected_ids :=
            if String.eqb (lower selection) "all" then Ok (map ev_id events)
            else
              selected_indices ← parse_selection selection (Z.of_nat (length events));
              ids_at events selected_indices in
          match selected_ids with
          | Raise e => (db, Uncaught e)
          | Ok [] => (db, Returned NoEventsSelected)
          | Ok ids =>
              match CalendarEvent.assign_to_cycle MAX_VARIABLE_NUMBER ids cycle_id db with
              | Raise e => (db, Uncaught e)
              | Ok db' => (db', Returned (EventsAssigned (length ids)))
              end
          end
      end
  end.

End Engine.

Section Environment.

Variable today : string.
Variable plus_days : string -> Z -> res string.
Variable INVOICES_DIR : string.
Variable build_document :
  string -> Cycle -> list Event -> Profile -> float -> bool -> string -> string -> res unit.
Variable compensated : bool.

(** [rate or cycle['hourly_rate']] *)
Definition rate_or (rate cycle_rate : option float) : option float :=
  match rate with
  | Some r => if truthy r then Some r else cycle_rate
  | None => cycle_rate
  end.

(** [generate]: [prompted_rate] and [answers] are what the user types when
    asked for a rate and for the profile. The rate is asked for, and stored
    in the cycle, when [not hourly_rate]: none, or 0. *)
Definition generate (cycle_id : Z) (rate : option float) (detailed : bool)
    (invoice_date : option string) (due_days : Z)
    (prompted_rate : float) (answers : Profile) (db : DB) (fs : files)
  : DB * files * outcome :=
  match InvoiceCycle.get cycle_id db with
  | None => (db, fs, Exit 1 CycleNotFound)
  | Some cycle =>
      let '(hourly_rate, db) :=
        match rate_or rate (cyc_hourly_rate cycle) with
        | Some r =>
            if truthy r then (r, db)
            else (prompted_rate, InvoiceCycle.update_rate cycle_id prompted_rate db)
        | None => (prompted_rate, InvoiceCycle.update_rate cycle_id prompted_rate db)
        end in
      match CalendarEvent.get_by_cycle cycle_id db with
      | [] => (db, fs, Exit 1 NoEventsAssigned)
      | events =>
          let '(db, profile) := UserProfile.get_or_create db in
          let '(db, profile) :=
            if String.eqb (full_name profile) "Your Name" then
              let profile :=
                {| prof_id := prof_id profile; full_name := full_name answers;
                   address := address answers; account_name := account_name answers;
                   account_number := account_number answers;
                   ifsc_code := ifsc_code answers; bank_name := bank_name answers;
                   account_type := account_type answers; pan := pan answers |} in
              (UserProfile.update profile db, profile)
            else (db, profile) in
          match PdfGenerator.generate_invoice_pdf today plus_days INVOICES_DIR
                  build_document compensated cycle events profile hourly_rate
                  detailed invoice_date due_days db fs with
          | (db, fs, Ok pdf_path) => (db, fs, Returned (InvoiceGenerated pdf_path))
          | (db, fs, Raise _) => (db, fs, Exit 1 GenerateFailed)
          end
      end
  end.

End Environment.

(** [invoices delete]: [confirmed] is the answer to the confirmation. *)
Definition delete (invoice_number : string) (yes confirmed : bool)
    (db : DB) (fs : files) : DB * files * outcome :=
  match Invoice.get_by_number invoice_number db with
  | None => (db, fs, Exit 1 InvoiceNotFound)
  | Some _ =>
      if negb yes && negb confirmed then (db, fs, Returned Cancelled)
      else
        let '(db', fs', deleted) := Invoice.delete invoice_number db fs in
        if deleted then (db', fs', Returned InvoiceDeleted)
        else (db', fs', Exit 1 DeleteFailed)
  end.

(** [logout]: the line printed says whether there was a token to
    remove. *)
Definition logout (TOKEN_FILE : string) (fs : files) : files * bool :=
  Auth.clear_credentials TOKEN_FILE fs.

(** [profile]: [update] is the answer to the confirmation and [answers]
    what the user types at the prompts that follow it. The profile is
    read, and created when there is none, before anything is asked. *)
Definition profile (update : bool) (answers : Profile) (db : DB) : DB :=
  let '(db, profile) := UserProfile.get_or_create db in
  if update then
    UserProfile.update
      {| prof_id := prof_id profile; full_name := full_name answers;
         address := address answers; account_name := account_name answers;
         account_number := account_number answers; ifsc_code := ifsc_code answers;
         bank_name := bank_name answers; account_type := account_type answers;
         pan := pan answers |} db
  else db.

End Main.

(** ** The words of the specification *)

Module Spec.
Import Py Schema.

(** A token reads as a number when [int] accepts it. *)
Definition is_int (s : string) : bool :=
  match int s with
  | Ok _ => true
  | Raise _ => false
  end.

(** [a ++ s] reads as a range: a number, a hyphen in [s], a number. *)
Fixpoint is_range_from (a s : string) : bool :=
  match s with
  | EmptyString => false
  | String c r =>
      (Ascii.eqb c "-" && is_int a && is_int r)
      || is_range_from (a ++ String c EmptyString) r
  end.

(** A malformed token: the white space around it dropped, it is neither a
    number nor two numbers joined by a hyphen. The empty token is one. *)
Definition malformed (part : string) : bool :=
  let p := strip part in
  negb (is_int p) && negb (is_range_from EmptyString p).


(** [try: m except cls: handler] *)
Definition try_except {A : Type} (m : res A) (cls : exn) (handler : res A) : res A :=
  match m with
  | Ok a => Ok a
  | Raise e => if issubclass e cls then handler else Raise e
  end.

(** The rows of a table that hold a given calendar key. *)
Definition stored (event_id : string) (db : DB) : list Event :=
  List.filter (fun r => String.eqb (ev_event_id r) event_id) (calendar_events db).

(** Two rows that differ at most in their rowid and their cycle link. *)
Definition same_fields (r1 r2 : Event) : Prop :=
  ev_event_id r1 = ev_event_id r2 /\ ev_title r1 = ev_title r2
  /\ ev_description r1 = ev_description r2
  /\ ev_start_time r1 = ev_start_time r2 /\ ev_end_time r1 = ev_end_time r2
  /\ ev_duration_hours r1 = ev_duration_hours r2.

(** A row holds what ingestion stores for a dictionary of [fetch_events]. *)
Definition row_of (event : CalendarEvent.EventDict) (r : Event) : Prop :=
  ev_event_id r = CalendarEvent.d_id event
  /\ ev_title r = CalendarEvent.d_summary event
  /\ ev_description r = CalendarEvent.d_description event
  /\ ev_start_time r = CalendarEvent.d_start event
  /\ ev_end_time r = CalendarEvent.d_end event
  /\ ev_duration_hours r = CalendarEvent.d_duration_hours event.

(** An invoice number of the pattern: [#] and then decimal digits, one at
    least. *)
Fixpoint all_digits (s : string) : bool :=
  match s with
  | EmptyString => true
  | String c r => isdigit c && all_digits r
  end.

Definition is_hash_number (s : string) : bool :=
  match s with
  | String "#" (String c r) => all_digits (String c r)
  | _ => false
  end.

(** The value read from [s] when [a] has been read so far. *)
Definition decimal_from (a : Z) (s : string) : Z :=
  fold_left (fun acc c => 10 * acc + digit_value c) (list_ascii_of_string s) a.

(** The decimal value of a string of digits. *)
Definition decimal (s : string) : Z := decimal_from 0 s.

(** The number of an invoice number of the pattern: what follows [#]. *)
Definition numeric_suffix (s : string) : Z := decimal (Sqlite.substr2 s).

(** The next invoice number in the words of the specification: one more
    than the largest numeric suffix among the numbers of the pattern, 0
    when there is none, as [#] and three digits or more. *)
Definition next_number (numbers : list string) : string :=
  String "#"
    (Invoice.format_03d
       (fold_right Z.max 0 (map numeric_suffix (List.filter is_hash_number numbers)) + 1)).

(** The numbers the query reads, as a function of the stored invoice
    numbers alone. *)
Definition suffixes (numbers : list string) : list Z :=
  map (fun n => Sqlite.cast_integer (Sqlite.substr2 n))
      (List.filter Sqlite.like_hash numbers).

Definition next_of (numbers : list string) : string :=
  let max_num :=
    match Sqlite.max_agg (suffixes numbers) with
    | Some m => if m =? 0 then 0 else m
    | None => 0
    end in
  String "#" (Invoice.format_03d (max_num + 1)).


(** The rows of [calendar_events] after [assign_to_cycle]. *)
Definition assigned_rows (event_ids : list Z) (cycle_id : Z) (rows : list Event)
  : list Event :=
  map (fun e => if bool_decide (ev_id e ∈ event_ids)
                then CalendarEvent.with_cycle (Some cycle_id) e else e) rows.

(** The dictionary [fetch_events] builds for a timed item. *)
Definition dict_of (item : CalendarClient.ApiEvent) (start end_ : CalendarClient.DateTime)
  : CalendarEvent.EventDict :=
  {| CalendarEvent.d_id := CalendarClient.api_id item;
     CalendarEvent.d_summary := default "No Title" (CalendarClient.api_summary item);
     CalendarEvent.d_description := default "" (CalendarClient.api_description item);
     CalendarEvent.d_start := CalendarClient.isoformat start;
     CalendarEvent.d_end := CalendarClient.isoformat end_;
     CalendarEvent.d_duration_hours := round2 (CalendarClient.hours_between start end_);
     CalendarEvent.d_attendees := map (default "") (CalendarClient.api_attendees item) |}.

(** The timed items of an answer: those with a [dateTime] at the start. *)
Definition timed (item : CalendarClient.ApiEvent) (start end_ : CalendarClient.DateTime)
  : Prop :=
  CalendarClient.api_start item = Some start /\ CalendarClient.api_end item = Some end_.

(** The items of an answer that have a [dateTime] at the start. *)
Definition is_timed (item : CalendarClient.ApiEvent) : bool :=
  match CalendarClient.api_start item with
  | Some _ => true
  | None => false
  end.

(** A rate that counts: one that is there and is not 0. *)
Definition given (r : option float) : option float :=
  match r with
  | Some x => if truthy x then Some x else None
  | None => None
  end.

(** The rate of an invoice: the one of the option [--rate], else the one
    of the cycle, else the one typed at the prompt. *)
Definition rate_used (rate cycle_rate : option float) (prompted_rate : float) : float :=
  match given rate, given cycle_rate with
  | Some r, _ => r
  | None, Some r => r
  | None, None => prompted_rate
  end.

(** The keys of the schema, each without a value twice: the four rowids,
    the calendar key of an event and the number of an invoice. *)
Definition keys_unique (db : DB) : Prop :=
  NoDup (map cyc_id (invoice_cycles db))
  /\ NoDup (map ev_id (calendar_events db))
  /\ NoDup (map ev_event_id (calendar_events db))
  /\ NoDup (map inv_id (invoices db))
  /\ NoDup (map inv_invoice_number (invoices db))
  /\ NoDup (map prof_id (user_profile db)).

End Spec.

(** ** Sample data *)

Module Sample.
Import Py Schema CalendarEvent CalendarClient.

(** SQLite's [date()] on the time stamps of the samples, which are all in
    UTC: the first ten characters. *)
Definition utc_date (s : string) : option string := Some (substring 0 10 s).

(** A date 30 days later, for the one invoice date of the samples. *)
Definition plus_days (d : string) (days : Z) : res string :=
  if String.eqb d "2024-02-01" && (days =? 30) then Ok "2024-03-02"
  else Raise ValueError.

(** A layout that never fails. *)
Definition build (pdf_path : string) (cycle : Cycle) (events : list Event)
    (profile : Profile) (hourly_rate : float) (detailed : bool)
    (invoice_date due_date : string) : res unit := Ok tt.

Definition cycle1 : Cycle :=
  {| cyc_id := 1; cyc_name := "January"; cyc_start_date := "2024-01-01";
     cyc_end_date := "2024-01-31"; cyc_hourly_rate := None;
     cyc_client_name := Some "ACME"; cyc_client_address := None;
     cyc_client_gstin := None |}.

Definition event (rowid : Z) (key day : string) (hours : float) (c : option Z) : Event :=
  {| ev_id := rowid; ev_event_id := key; ev_title := "Work"; ev_description := "";
     ev_start_time := (day ++ "T09:00:00+00:00")%string;
     ev_end_time := (day ++ "T17:00:00+00:00")%string;
     ev_duration_hours := hours; ev_cycle_id := c |}.

Definition e1 : Event := event 1 "a" "2024-01-03" 2.5 None.
Definition e2 : Event := event 2 "b" "2024-01-02" 1.25 None.
Definition e3 : Event := event 3 "c" "2024-01-09" 8 None.
Definition e4 : Event := event 4 "d" "2024-02-09" 8 None.
Definition e5 : Event := event 5 "e" "2024-01-20" 8 (Some 7).

Definition db1 : DB :=
  {| invoice_cycles := [cycle1]; calendar_events := [e1; e2; e3; e4; e5];
     invoices := []; user_profile := []; seq_invoice_cycles := 1;
     seq_calendar_events := 5; seq_invoices := 0; seq_user_profile := 0 |}.

Definition invoice (rowid : Z) (number : string) : InvoiceRow :=
  {| inv_id := rowid; inv_cycle_id := 1; inv_invoice_number := number;
     inv_invoice_date := "2024-02-01"; inv_due_date := "2024-03-02";
     inv_total_hours := 3.75; inv_hourly_rate := 1000; inv_total_amount := 3750;
     inv_pdf_path := Some ("invoices/invoice-" ++ Sqlite.substr2 number ++ ".pdf")%string |}.

Definition with_invoices (numbers : list string) : DB :=
  set_invoices (imap (fun k n => invoice (Z.of_nat k + 1) n) numbers)
               (Z.of_nat (length numbers)) db1.

Definition answers : Profile :=
  {| prof_id := 0; full_name := "A. Worker"; address := "1 Road";
     account_name := Some "A. Worker"; account_number := Some "0001";
     ifsc_code := Some "IFSC0"; bank_name := Some "Bank";
     account_type := Some "SAVING"; pan := Some "PAN00" |}.

Definition at_ (micros : Z) (text : string) : DateTime :=
  {| utc_micros := micros; isoformat := text |}.

(** A calendar item that ends when it starts. *)
Definition zero_length : ApiEvent :=
  {| api_id := "x"; api_summary := Some "Reminder"; api_description := None;
     api_start := Some (at_ 1704272400000000 "2024-01-03T09:00:00+00:00");
     api_end := Some (at_ 1704272400000000 "2024-01-03T09:00:00+00:00");
     api_attendees := [] |}.

(** A calendar item that ends an hour before it starts. *)
Definition backwards : ApiEvent :=
  {| api_id := "z"; api_summary := Some "Backwards"; api_description := None;
     api_start := Some (at_ 1704272400000000 "2024-01-03T09:00:00+00:00");
     api_end := Some (at_ 1704268800000000 "2024-01-03T08:00:00+00:00");
     api_attendees := [] |}.

(** A calendar item of 50 minutes. *)
Definition fifty_minutes : ApiEvent :=
  {| api_id := "y"; api_summary := None; api_description := None;
     api_start := Some (at_ 1704272400000000 "2024-01-03T09:00:00+00:00");
     api_end := Some (at_ 1704275400000000 "2024-01-03T09:50:00+00:00");
     api_attendees := [Some "a@example.org"; None] |}.

(** What [fetch_events] builds for the first sample event. *)
Definition sample_dict : CalendarEvent.EventDict :=
  {| CalendarEvent.d_id := "a"; CalendarEvent.d_summary := "Work";
     CalendarEvent.d_description := "";
     CalendarEvent.d_start := "2024-01-03T09:00:00+00:00";
     CalendarEvent.d_end := "2024-01-03T17:00:00+00:00";
     CalendarEvent.d_duration_hours := 2.5;
     CalendarEvent.d_attendees := [] |}.

(** The same key as [sample_dict], another title. *)
Definition renamed_dict : CalendarEvent.EventDict :=
  {| CalendarEvent.d_id := "a"; CalendarEvent.d_summary := "Workshop";
     CalendarEvent.d_description := "";
     CalendarEvent.d_start := "2024-01-03T09:00:00+00:00";
     CalendarEvent.d_end := "2024-01-03T17:00:00+00:00";
     CalendarEvent.d_duration_hours := 2.5;
     CalendarEvent.d_attendees := [] |}.

(** [db1] with its first two events bound to the cycle and a profile. *)
Definition db2 : DB :=
  {| invoice_cycles := [cycle1];
     calendar_events :=
       [CalendarEvent.with_cycle (Some 1) e1; CalendarEvent.with_cycle (Some 1) e2;
        e3; e4; e5];
     invoices := [];
     user_profile :=
       [ {| prof_id := 1; full_name := "A. Worker"; address := "1 Road";
            account_name := Some "A. Worker"; account_number := Some "0001";
            ifsc_code := Some "IFSC0"; bank_name := Some "Bank";
            account_type := Some "SAVING"; pan := Some "PAN00" |} ];
     seq_invoice_cycles := 1; seq_calendar_events := 5; seq_invoices := 0;
     seq_user_profile := 1 |}.

(** The calendar's item for the first sample event, fetched again. *)
Definition first_again : ApiEvent :=
  {| api_id := "a"; api_summary := Some "Work"; api_description := None;
     api_start := Some (at_ 1704272400000000 "2024-01-03T09:00:00+00:00");
     api_end := Some (at_ 1704301200000000 "2024-01-03T17:00:00+00:00");
     api_attendees := [] |}.

End Sample.

Import Py Schema Main Spec.

(** * Checks of the model on concrete inputs *)

Example parse_selection_ex1 :
  parse_selection "1,3,5-8" 10 = Ok [1; 3; 5; 6; 7; 8].
Proof. vm_compute. reflexivity. Qed.

Example parse_selection_ex2 : parse_selection "1,1,2" 5 = Ok [1; 2].
Proof. vm_compute. reflexivity. Qed.

Example parse_selection_ex3 : parse_selection "5-3" 5 = Ok [].
Proof. vm_compute. reflexivity. Qed.

Example parse_selection_ex4 : parse_selection "999" 5 = Ok [].
Proof. vm_compute. reflexivity. Qed.

Example parse_selection_ex5 : parse_selection "0-2" 5 = Ok [0; 1; 2].
Proof. vm_compute. reflexivity. Qed.

Example parse_selection_ex6 : parse_selection " 2 , 4 - 9 " 5 = Ok [2; 4; 5].
Proof. vm_compute. reflexivity. Qed.

Example parse_selection_ex7 : parse_selection "" 5 = Raise ValueError.
Proof. vm_compute. reflexivity. Qed.

Example parse_selection_ex8 : parse_selection "1-2-3" 5 = Raise ValueError.
Proof. vm_compute. reflexivity. Qed.

Example parse_selection_ex9 : parse_selection "1,x" 5 = Raise ValueError.
Proof. vm_compute. reflexivity. Qed.

Example format_03d_ex :
  map Invoice.format_03d [0; 1; 5; 42; 999; 1000; 12345; -4; -40; -400]
  = ["000"; "001"; "005"; "042"; "999"; "1000"; "12345"; "-04"; "-40"; "-400"].
Proof. vm_compute. reflexivity. Qed.

Example round2_ex :
  map Py.round2 [2.675; 0.125; 0.375; 1.005; 0.8333333333333334; 1.5; 0; -0.001]%float
  = [2.67; 0.12; 0.38; 1; 0.83; 1.5; 0; -0]%float.
Proof. vm_compute. reflexivity. Qed.

(** * The selection parser *)

Section ForEach.
Context {A S : Type} (body : S -> A -> res S).

Lemma for_each_app (l1 l2 : list A) (s : S) :
  for_each body (l1 ++ l2) s = (s' ← for_each body l1 s; for_each body l2 s').
Proof.
  revert s. induction l1 as [|x l1 IH]; intros s; simpl; [reflexivity|].
  destruct (body s x) as [s'|e]; simpl; [apply IH | reflexivity].
Qed.

(** A loop whose body can only raise [e], and does raise it at one of the
    items whatever the state, raises [e]. *)
Lemma for_each_raise (e : exn) (x : A) (items : list A) :
  (forall s y e', body s y = Raise e' -> e' = e) ->
  (forall s, body s x = Raise e) ->
  x ∈ items ->
  forall s, for_each body items s = Raise e.
Proof.
  intros Honly Hx Hin. induction Hin as [x l | x y l Hin IH]; intros s; simpl.
  - rewrite Hx. reflexivity.
  - destruct (body s y) as [s'|e'] eqn:Hb; simpl.
    + apply IH; assumption.
    + f_equal. eapply Honly; eassumption.
Qed.

End ForEach.

Lemma int_raises_ValueError (s : string) (e : exn) : int s = Raise e -> e = ValueError.
Proof.
  unfold int. destruct (match strip s with String _ _ => _ | _ => _ end); congruence.
Qed.

Lemma parse_part_raises_ValueError max_num selected part e :
  parse_part max_num selected part = Raise e -> e = ValueError.
Proof.
  unfold parse_part. destruct (contains "-" (strip part)).
  - destruct (split "-" (strip part)) as [|s [|e1 [|? ?]]]; try congruence.
    destruct (int s) as [a|ea] eqn:Hs; simpl.
    + destruct (int e1) as [b|eb] eqn:He; simpl; [congruence|].
      intros [= <-]. eapply int_raises_ValueError; eassumption.
    + intros [= <-]. eapply int_raises_ValueError; eassumption.
  - destruct (int (strip part)) as [n|en] eqn:Hn; simpl.
    + destruct (_ && _); congruence.
    + intros [= <-]. eapply int_raises_ValueError; eassumption.
Qed.

Lemma is_int_Ok s n : int s = Ok n -> is_int s = true.
Proof. unfold is_int. intros ->. reflexivity. Qed.

Lemma split_nonempty (c : ascii) (p : string) : split c p <> [].
Proof.
  destruct p as [|d p]; simpl; [congruence|].
  destruct (Ascii.eqb d c); [congruence|]. destruct (split c p); congruence.
Qed.

(** One field: there was no separator. *)
Lemma split_one (c : ascii) (p y : string) :
  split c p = [y] -> p = y /\ contains c p = false.
Proof.
  revert y. induction p as [|d p IH]; intros y; simpl.
  - intros [= <-]. split; reflexivity.
  - destruct (Ascii.eqb d c) eqn:Hd.
    + intros [= _ H]. destruct (split_nonempty _ _ H).
    + destruct (split c p) as [|f fs] eqn:Hsp; [destruct (split_nonempty _ _ Hsp)|].
      intros [= <- ->]. destruct (IH f eq_refl) as [-> ->]. split; reflexivity.
Qed.

(** Two fields: one separator, between them. *)
Lemma split_two (c : ascii) (p x y : string) :
  split c p = [x; y] ->
  p = (x ++ String c y)%string /\ contains c x = false /\ contains c y = false.
Proof.
  revert x. induction p as [|d p IH]; intros x; simpl; [congruence|].
  destruct (Ascii.eqb d c) eqn:Hd.
  - intros [= <- H]. apply Ascii.eqb_eq in Hd. subst d.
    destruct (split_one _ _ _ H) as [-> Hc]. repeat split; assumption.
  - destruct (split c p) as [|f fs] eqn:Hsp; [congruence|].
    intros [= <- ->]. destruct (IH f eq_refl) as (-> & Hf & Hy).
    repeat split; simpl; [rewrite Hd|]; assumption.
Qed.

Lemma string_app_cons (c : ascii) (s t : string) :
  (String c s ++ t)%string = String c (s ++ t)%string.
Proof. reflexivity. Qed.

Lemma string_app_nil_r (s : string) : (s ++ "")%string = s.
Proof. induction s as [|c s IH]; [reflexivity | now rewrite string_app_cons, IH]. Qed.

Lemma string_app_snoc_cons (a : string) (c : ascii) (x : string) :
  ((a ++ String c "") ++ x)%string = (a ++ String c x)%string.
Proof. induction a as [|d a IH]; [reflexivity | now rewrite !string_app_cons, IH]. Qed.

Lemma is_range_from_app (x a y : string) :
  is_int (a ++ x) = true -> is_int y = true ->
  is_range_from a (x ++ String "-" y) = true.
Proof.
  revert a. induction x as [|c x IH]; intros a Ha Hy.
  - rewrite string_app_nil_r in Ha. simpl. rewrite Ha, Hy. reflexivity.
  - rewrite string_app_cons. simpl.
    rewrite (IH (a ++ String c "")%string); [apply orb_true_r | | assumption].
    now rewrite string_app_snoc_cons.
Qed.

(** The turn of the loop that meets a malformed token raises ValueError,
    whatever has been selected so far. *)
Lemma parse_part_malformed (part : string) :
  malformed part = true ->
  forall max_num selected, parse_part max_num selected part = Raise ValueError.
Proof.
  unfold malformed. intros [Hint Hrange]%andb_prop max_num selected.
  apply negb_true_iff in Hint, Hrange. unfold parse_part.
  destruct (contains "-" (strip part)).
  - destruct (split "-" (strip part)) as [|s [|e [|? ?]]] eqn:Hsp; try reflexivity.
    destruct (split_two _ _ _ _ Hsp) as (Hp & _ & _).
    destruct (int s) as [a|ea] eqn:Hs; simpl.
    + destruct (int e) as [b|eb] eqn:He; simpl.
      * rewrite Hp, is_range_from_app in Hrange; [discriminate | |];
          eauto using is_int_Ok.
      * f_equal. eapply int_raises_ValueError; eassumption.
    + f_equal. eapply int_raises_ValueError; eassumption.
  - destruct (int (strip part)) as [n|en] eqn:Hn; simpl.
    + apply is_int_Ok in Hn. congruence.
    + f_equal. eapply int_raises_ValueError; eassumption.
Qed.

Lemma parse_selection_malformed (selection part : string) (max_num : Z) :
  part ∈ split "," selection -> malformed part = true ->
  parse_selection selection max_num = Raise ValueError.
Proof.
  intros Hin Hbad. unfold parse_selection.
  rewrite (for_each_raise (parse_part max_num) ValueError part); [reflexivity | | |].
  - intros s y e'. apply parse_part_raises_ValueError.
  - intros s. apply parse_part_malformed. assumption.
  - assumption.
Qed.

(** C8. A selection with a malformed token, the empty selection among
    them, makes [parse_selection] raise ValueError: no list of indices is
    returned. The error is a result of its own that the caller can tell
    from a list and from every other exception: a caller that wraps the
    call in [try ... except ValueError] runs its handler, whatever the
    handler is. *)
Theorem parse_selection_malformed_raises :
  (forall max_num, parse_selection "" max_num = Raise ValueError)
  /\ (forall (selection part : string) (max_num : Z),
        part ∈ split "," selection ->
        malformed part = true ->
        parse_selection selection max_num = Raise ValueError
        /\ forall handler : res (list Z),
             try_except (parse_selection selection max_num) ValueError handler
             = handler).
Proof.
  split.
  - intros max_num. apply (parse_selection_malformed "" ""); [set_solver | reflexivity].
  - intros selection part max_num Hin Hbad.
    rewrite (parse_selection_malformed _ _ _ Hin Hbad). split; reflexivity.
Qed.

Lemma parse_selection_malformed_raises_witness :
  "x" ∈ split "," "1,x" /\ malformed "x" = true
  /\ parse_selection "1,x" 5 = Raise ValueError.
Proof.
  assert (Hin : "x" ∈ split "," "1,x") by (vm_compute; set_solver).
  assert (Hbad : malformed "x" = true) by reflexivity.
  split; [exact Hin|]. split; [exact Hbad|].
  exact (proj1 (proj2 parse_selection_malformed_raises "1,x" "x" 5 Hin Hbad)).
Defined.

(** ** What a successful parse returns *)







(** ** The bounds of the returned indices *)




Lemma digit_value_nonneg (c : ascii) : isdigit c = true -> 0 <= digit_value c <= 9.
Proof.
  unfold isdigit, digit_value. intros [H1 H2]%andb_prop.
  apply Nat.leb_le in H1, H2. lia.
Qed.






Example fetch_fifty_minutes :
  CalendarClient.fetch_events (Ok [Sample.fifty_minutes])
  = Ok [ {| CalendarEvent.d_id := "y"; CalendarEvent.d_summary := "No Title";
            CalendarEvent.d_description := "";
            CalendarEvent.d_start := "2024-01-03T09:00:00+00:00";
            CalendarEvent.d_end := "2024-01-03T09:50:00+00:00";
            CalendarEvent.d_duration_hours := 0.83;
            CalendarEvent.d_attendees := ["a@example.org"; ""] |} ].
Proof. vm_compute. reflexivity. Qed.

Example get_unassigned_db1 :
  map ev_id (CalendarEvent.get_unassigned Sample.utc_date "2024-01-01" "2024-01-31" Sample.db1)
  = [2; 1; 3].
Proof. vm_compute. reflexivity. Qed.

Example assign_events_db1 :
  (let '(db, out) := assign_events Sample.utc_date 999 1 "1,3" Sample.db1 in
   (map ev_cycle_id (calendar_events db), out))
  = ([None; Some 1; Some 1; None; Some 7], Returned (EventsAssigned 2)).
Proof. vm_compute. reflexivity. Qed.






(** * The event store *)

Section OrderBy.
Context {A : Type} (key : A -> string).

Let by_key : relation A := fun a b => String.le (key a) (key b).

#[local] Instance by_key_transitive : Transitive by_key.
Proof. intros a b c Hab Hbc. unfold by_key in *. etrans; eassumption. Qed.

#[local] Instance by_key_total : Total by_key.
Proof. intros a b. unfold by_key. apply (total String.le). Qed.

Lemma order_by_Permutation (rows : list A) : Sqlite.order_by key rows ≡ₚ rows.
Proof. apply merge_sort_Permutation. Qed.

Lemma elem_of_order_by (rows : list A) (x : A) :
  x ∈ Sqlite.order_by key rows <-> x ∈ rows.
Proof. now rewrite order_by_Permutation. Qed.


End OrderBy.

Lemma elem_of_List_filter {A : Type} (f : A -> bool) (l : list A) (x : A) :
  x ∈ List.filter f l <-> x ∈ l /\ f x = true.
Proof. rewrite !list_elem_of_In. apply filter_In. Qed.

Section EventStore.
Variable DATE : string -> option string.
Variable MAX_VARIABLE_NUMBER : nat.




Lemma count_char_app (c : ascii) (a b : string) :
  CalendarEvent.count_char c (a ++ b) =
  (CalendarEvent.count_char c a + CalendarEvent.count_char c b)%nat.
Proof.
  induction a as [|d a IH]; [reflexivity|].
  rewrite string_app_cons. simpl. rewrite IH. lia.
Qed.

(** The IN list has one [?] per identifier. *)
Lemma count_char_placeholders (n : nat) :
  CalendarEvent.count_char "?" (CalendarEvent.placeholders n) = n.
Proof.
  unfold CalendarEvent.placeholders. induction n as [|n IH]; [reflexivity|].
  destruct n as [|n]; [reflexivity|].
  change (replicate (S (S n)) "?") with ("?" :: replicate (S n) "?") at 1.
  change (String.concat "," ("?" :: replicate (S n) "?"))
    with ("?" ++ "," ++ String.concat "," (replicate (S n) "?"))%string.
  rewrite !count_char_app, IH. reflexivity.
Qed.

(** The statement always has as many variables as parameters; within
    the engine's limit it runs, on an empty list too. *)
Lemma assign_to_cycle_Ok (event_ids : list Z) (cycle_id : Z) (db : DB) :
  (length event_ids < MAX_VARIABLE_NUMBER)%nat ->
  CalendarEvent.assign_to_cycle MAX_VARIABLE_NUMBER event_ids cycle_id db
  = Ok (set_calendar_events (assigned_rows event_ids cycle_id (calendar_events db))
                            (seq_calendar_events db) db).
Proof.
  intros Hlen. unfold CalendarEvent.assign_to_cycle.
  rewrite count_char_placeholders. simpl length.
  destruct (Nat.ltb_spec MAX_VARIABLE_NUMBER (S (length event_ids))); [lia|].
  rewrite Nat.eqb_refl. reflexivity.
Qed.

Lemma assign_to_cycle_inv (event_ids : list Z) (cycle_id : Z) (db db' : DB) :
  CalendarEvent.assign_to_cycle MAX_VARIABLE_NUMBER event_ids cycle_id db = Ok db' ->
  db' = set_calendar_events (assigned_rows event_ids cycle_id (calendar_events db))
                            (seq_calendar_events db) db.
Proof.
  unfold CalendarEvent.assign_to_cycle.
  destruct (_ <? _)%nat; [discriminate|]. destruct (negb _); [discriminate|].
  intros [= <-]. reflexivity.
Qed.


Lemma elem_of_assigned_rows (event_ids : list Z) (cycle_id : Z) (rows : list Event)
    (ev : Event) :
  ev ∈ assigned_rows event_ids cycle_id rows <->
  exists ev0, ev0 ∈ rows
              /\ ((ev_id ev0 ∈ event_ids)
                    /\ ev = CalendarEvent.with_cycle (Some cycle_id) ev0
                  \/ (ev_id ev0 ∉ event_ids) /\ ev = ev0).
Proof.
  unfold assigned_rows. rewrite list_elem_of_fmap. split.
  - intros (ev0 & -> & Hin). exists ev0. split; [assumption|].
    destruct (bool_decide_reflect (ev_id ev0 ∈ event_ids)); auto.
  - intros (ev0 & Hin & [[Hid ->]|[Hid ->]]); exists ev0; split; try assumption.
    + now rewrite bool_decide_eq_true_2.
    + now rewrite bool_decide_eq_false_2.
Qed.

End EventStore.






(** ** The command [cycle assign] *)




(** X2. The selection [all], in any case of its letters, binds every
    candidate the command listed; [parse_selection] is not called. *)
Theorem assign_events_all
    (DATE : string -> option string) (MAX_VARIABLE_NUMBER : nat)
    (cycle_id : Z) (selection : string) (db : DB) (cycle : Cycle) :
  let events :=
    CalendarEvent.get_unassigned DATE (cyc_start_date cycle) (cyc_end_date cycle) db in
  InvoiceCycle.get cycle_id db = Some cycle ->
  lower selection = "all" ->
  events <> [] ->
  (length events < MAX_VARIABLE_NUMBER)%nat ->
  assign_events DATE MAX_VARIABLE_NUMBER cycle_id selection db
  = (set_calendar_events
       (assigned_rows (map ev_id events) cycle_id (calendar_events db))
       (seq_calendar_events db) db,
     Returned (EventsAssigned (length events))).
Proof.
  intros events Hget Hall Hne Hlen. unfold assign_events. rewrite Hget. fold events.
  destruct events as [|e0 events0] eqn:He; [congruence|].
  rewrite Hall. cbn [String.eqb Ascii.eqb Bool.eqb map].
  rewrite assign_to_cycle_Ok by (simpl in *; rewrite length_map; lia).
  simpl. rewrite length_map. reflexivity.
Qed.

Lemma assign_events_all_witness :
  (let '(db, out) := assign_events Sample.utc_date 999 1 "All" Sample.db1 in
   (map ev_cycle_id (calendar_events db), out))
  = ([Some 1; Some 1; Some 1; None; Some 7], Returned (EventsAssigned 3)).
Proof.
  rewrite (assign_events_all Sample.utc_date 999 1 "All" Sample.db1 Sample.cycle1);
    [vm_compute; reflexivity | reflexivity | reflexivity
     | vm_compute; discriminate | vm_compute; lia].
Defined.

(** X3. A selection with a malformed token ends [cycle assign] with the
    ValueError of [parse_selection], uncaught, and binds no event. *)
Theorem assign_events_malformed
    (DATE : string -> option string) (MAX_VARIABLE_NUMBER : nat)
    (cycle_id : Z) (selection part : string) (db : DB) (cycle : Cycle) :
  InvoiceCycle.get cycle_id db = Some cycle ->
  CalendarEvent.get_unassigned DATE (cyc_start_date cycle) (cyc_end_date cycle) db <> [] ->
  lower selection <> "all" ->
  part ∈ split "," selection ->
  malformed part = true ->
  assign_events DATE MAX_VARIABLE_NUMBER cycle_id selection db = (db, Uncaught ValueError).
Proof.
  intros Hget Hne Hall Hin Hbad. unfold assign_events. rewrite Hget.
  destruct (CalendarEvent.get_unassigned DATE _ _ db) as [|e0 events0]; [congruence|].
  apply String.eqb_neq in Hall. rewrite Hall.
  rewrite (parse_selection_malformed _ _ _ Hin Hbad). reflexivity.
Qed.

Lemma assign_events_malformed_witness :
  assign_events Sample.utc_date 999 1 "1,x" Sample.db1 = (Sample.db1, Uncaught ValueError).
Proof.
  apply (assign_events_malformed Sample.utc_date 999 1 "1,x" "x" Sample.db1 Sample.cycle1);
    [reflexivity | vm_compute; discriminate | vm_compute; discriminate
     | vm_compute; set_solver | reflexivity].
Defined.


(** * Invoice numbers *)

Lemma decimal_from_cons (a : Z) (c : ascii) (s : string) :
  decimal_from a (String c s) = decimal_from (10 * a + digit_value c) s.
Proof. reflexivity. Qed.

Lemma decimal_from_nonneg (s : string) (a : Z) :
  all_digits s = true -> 0 <= a -> 0 <= decimal_from a s.
Proof.
  revert a. induction s as [|c s IH]; intros a Hd Ha; [assumption|].
  simpl in Hd. apply andb_prop in Hd as [Hc Hs]. rewrite decimal_from_cons.
  apply IH; [assumption|]. apply digit_value_nonneg in Hc. lia.
Qed.

(** On a string of digits the prefix SQLite reads is the whole string. *)
Lemma digit_prefix_all_digits (s : string) (a : Z) :
  all_digits s = true -> Sqlite.digit_prefix a s = decimal_from a s.
Proof.
  revert a. induction s as [|c s IH]; intros a Hd; [reflexivity|].
  simpl in Hd. apply andb_prop in Hd as [Hc Hs].
  simpl. rewrite Hc, decimal_from_cons. apply IH, Hs.
Qed.

Lemma cast_integer_digits (c : ascii) (r : string) :
  all_digits (String c r) = true ->
  Sqlite.cast_integer (String c r)
  = Z.max Sqlite.MIN_INT64 (Z.min Sqlite.MAX_INT64 (decimal (String c r))).
Proof.
  intros Hd. unfold Sqlite.cast_integer, decimal. fold (decimal_from 0 (String c r)).
  rewrite <- (digit_prefix_all_digits _ _ Hd).
  simpl in Hd. apply andb_prop in Hd as [Hc _].
  assert (Hskip : Sqlite.skip_spaces (String c r) = String c r).
  { simpl. replace (Sqlite.isspace c) with false; [reflexivity|].
    destruct c as [[] [] [] [] [] [] [] []]; try reflexivity; discriminate. }
  rewrite Hskip.
  destruct c as [[] [] [] [] [] [] [] []]; try reflexivity; discriminate.
Qed.

Lemma is_hash_number_inv (s : string) :
  is_hash_number s = true ->
  exists c r, s = String "#" (String c r) /\ all_digits (String c r) = true.
Proof.
  destruct s as [|h [|c r]]; try discriminate.
  - destruct h as [[] [] [] [] [] [] [] []]; discriminate.
  - intros H. assert (h = "#"%char) as ->.
    { destruct h as [[] [] [] [] [] [] [] []]; try discriminate; reflexivity. }
    eauto.
Qed.

Lemma is_hash_number_like (s : string) :
  is_hash_number s = true -> Sqlite.like_hash s = true.
Proof. intros (c & r & -> & _)%is_hash_number_inv. reflexivity. Qed.

Lemma numeric_suffix_nonneg (s : string) :
  is_hash_number s = true -> 0 <= numeric_suffix s.
Proof.
  intros (c & r & -> & Hd)%is_hash_number_inv.
  apply (decimal_from_nonneg _ 0 Hd). lia.
Qed.

Lemma cast_integer_suffix (s : string) :
  is_hash_number s = true -> numeric_suffix s <= Sqlite.MAX_INT64 ->
  Sqlite.cast_integer (Sqlite.substr2 s) = numeric_suffix s.
Proof.
  intros Hs Hmax. pose proof (numeric_suffix_nonneg _ Hs) as H0. revert Hmax H0.
  apply is_hash_number_inv in Hs as (c & r & -> & Hd). unfold numeric_suffix.
  cbn [Sqlite.substr2]. rewrite (cast_integer_digits _ _ Hd).
  unfold Sqlite.MIN_INT64. lia.
Qed.

Lemma filter_map_comm {A B : Type} (f : A -> B) (g : B -> bool) (l : list A) :
  List.filter g (map f l) = map f (List.filter (fun x => g (f x)) l).
Proof.
  induction l as [|x l IH]; [reflexivity|]. simpl.
  destruct (g (f x)); simpl; now rewrite IH.
Qed.

Lemma get_next_invoice_number_numbers (db : DB) :
  Invoice.get_next_invoice_number db = next_of (map inv_invoice_number (invoices db)).
Proof.
  unfold Invoice.get_next_invoice_number, next_of, suffixes.
  now rewrite filter_map_comm, map_map.
Qed.

Lemma fold_left_max_nonneg (l : list Z) (x : Z) :
  0 <= x -> Forall (fun y => 0 <= y) l ->
  fold_left Z.max l x = Z.max x (fold_right Z.max 0 l).
Proof.
  intros Hx Hl. revert x Hx. induction Hl as [|y l Hy Hl IH]; intros x Hx; simpl.
  - lia.
  - rewrite IH by lia. lia.
Qed.

Lemma max_agg_nonneg (l : list Z) :
  Forall (fun y => 0 <= y) l ->
  match Sqlite.max_agg l with
  | Some m => if m =? 0 then 0 else m
  | None => 0
  end = fold_right Z.max 0 l.
Proof.
  intros Hl. destruct Hl as [|y l Hy Hl]; [reflexivity|].
  unfold Sqlite.max_agg. rewrite (fold_left_max_nonneg _ _ Hy Hl). simpl.
  destruct (Z.eqb_spec (Z.max y (fold_right Z.max 0 l)) 0); congruence.
Qed.

Lemma suffixes_pattern (numbers : list string) :
  (forall n, n ∈ numbers -> Sqlite.like_hash n = true ->
             is_hash_number n = true /\ numeric_suffix n <= Sqlite.MAX_INT64) ->
  suffixes numbers = map numeric_suffix (List.filter is_hash_number numbers).
Proof.
  unfold suffixes. induction numbers as [|n numbers IH]; intros H; [reflexivity|].
  simpl. assert (IH' := IH (fun m Hm => H m (list_elem_of_further _ _ _ Hm))).
  destruct (Sqlite.like_hash n) eqn:Hlike.
  - destruct (H n (list_elem_of_here _ _) Hlike) as [Hpat Hmax].
    rewrite Hpat. simpl. rewrite IH'. f_equal. apply cast_integer_suffix; assumption.
  - destruct (is_hash_number n) eqn:Hpat; [|assumption].
    apply is_hash_number_like in Hpat. congruence.
Qed.

(** ** The format [03d] *)

Lemma digit_value_of_digit (d : Z) :
  0 <= d <= 9 ->
  let c := ascii_of_nat (Z.to_nat (48 + d)) in
  isdigit c = true /\ digit_value c = d.
Proof.
  intros Hd c. unfold isdigit, digit_value. subst c.
  rewrite nat_ascii_embedding by lia. split; [|lia].
  apply andb_true_intro. split; apply Nat.leb_le; lia.
Qed.

Lemma digits_of_decimal (fuel : nat) (n : Z) (acc : string) (a : Z) :
  0 <= n < 10 ^ Z.of_nat fuel ->
  exists k, 0 <= k
            /\ decimal_from a (Invoice.digits_of fuel n acc)
               = decimal_from (a * 10 ^ k + n) acc.
Proof.
  revert n acc a. induction fuel as [|fuel IH]; intros n acc a Hn.
  - exists 0. split; [lia|]. simpl in *. f_equal. lia.
  - cbn [Invoice.digits_of].
    destruct (digit_value_of_digit (n mod 10)) as [_ Hv];
      [pose proof (Z.mod_pos_bound n 10); lia|].
    destruct (Z.ltb_spec n 10) as [Hlt|Hge].
    + exists 1. split; [lia|]. rewrite decimal_from_cons, Hv.
      rewrite Z.mod_small by lia. f_equal. lia.
    + destruct (IH (n / 10)
                   (String (ascii_of_nat (Z.to_nat (48 + n mod 10))) acc) a)
        as (k & Hk & Heq).
      { split; [apply Z.div_pos; lia|].
        apply Z.div_lt_upper_bound; [lia|].
        rewrite Nat2Z.inj_succ, Z.pow_succ_r in Hn by lia. lia. }
      exists (k + 1). split; [lia|]. rewrite Heq, decimal_from_cons, Hv.
      f_equal. rewrite Z.pow_add_r by lia.
      pose proof (Z.div_mod n 10). lia.
Qed.

Lemma digits_of_all_digits (fuel : nat) (n : Z) (acc : string) :
  0 <= n -> all_digits acc = true ->
  all_digits (Invoice.digits_of fuel n acc) = true.
Proof.
  revert n acc. induction fuel as [|fuel IH]; intros n acc Hn Hacc; [assumption|].
  cbn [Invoice.digits_of].
  assert (Hd : all_digits (String (ascii_of_nat (Z.to_nat (48 + n mod 10))) acc) = true).
  { simpl. rewrite Hacc, andb_true_r.
    apply digit_value_of_digit. pose proof (Z.mod_pos_bound n 10). lia. }
  destruct (n <? 10); [assumption|].
  apply IH; [apply Z.div_pos; lia | assumption].
Qed.

Lemma digits_of_length (fuel : nat) (n : Z) (acc : string) :
  (String.length acc <= String.length (Invoice.digits_of fuel n acc))%nat.
Proof.
  revert n acc. induction fuel as [|fuel IH]; intros n acc; [reflexivity|].
  cbn [Invoice.digits_of]. destruct (n <? 10); [simpl; lia|].
  etrans; [|apply IH]. simpl. lia.
Qed.

Lemma digits_of_length_le (fuel : nat) (n : Z) (acc : string) (k : nat) :
  (1 <= k)%nat -> 0 <= n < 10 ^ Z.of_nat k ->
  (String.length (Invoice.digits_of fuel n acc) <= k + String.length acc)%nat.
Proof.
  revert n acc k. induction fuel as [|fuel IH]; intros n acc k Hk Hn; [simpl; lia|].
  cbn [Invoice.digits_of]. destruct (Z.ltb_spec n 10) as [Hlt|Hge]; [simpl; lia|].
  destruct k as [|[|k]]; [lia | simpl in Hn; lia |].
  etrans; [apply (IH _ _ (S k)); [lia|]|simpl; lia].
  split; [apply Z.div_pos; lia|]. apply Z.div_lt_upper_bound; [lia|].
  rewrite (Nat2Z.inj_succ (S k)), Z.pow_succ_r in Hn by lia. lia.
Qed.

Lemma str_of_nonneg_decimal (n : Z) :
  0 <= n ->
  all_digits (Invoice.str_of_nonneg n) = true
  /\ decimal (Invoice.str_of_nonneg n) = n
  /\ (1 <= String.length (Invoice.str_of_nonneg n))%nat.
Proof.
  intros Hn. unfold Invoice.str_of_nonneg. split; [|split].
  - apply digits_of_all_digits; [assumption | reflexivity].
  - destruct (digits_of_decimal (S (Z.to_nat (Z.log2 n))) n "" 0) as (k & _ & Heq).
    + split; [assumption|]. rewrite Nat2Z.inj_succ, Z2Nat.id by apply Z.log2_nonneg.
      destruct (Z.eq_dec n 0) as [->|Hne]; [reflexivity|].
      pose proof (Z.log2_spec n ltac:(lia)) as [_ Hlt].
      eapply Z.lt_le_trans; [exact Hlt|].
      apply Z.pow_le_mono_l. pose proof (Z.log2_nonneg n). lia.
    + unfold decimal. fold (decimal_from 0 (Invoice.digits_of (S (Z.to_nat (Z.log2 n))) n "")).
      rewrite Heq. simpl. reflexivity.
  - cbn [Invoice.digits_of]. destruct (n <? 10); [simpl; lia|].
    etrans; [|apply digits_of_length]. simpl. lia.
Qed.

Lemma string_length_app (a b : string) :
  String.length (a ++ b) = (String.length a + String.length b)%nat.
Proof. induction a as [|c a IH]; [reflexivity|]. rewrite string_app_cons. simpl. now rewrite IH. Qed.

Lemma zeros_length (n : nat) : String.length (Invoice.zeros n) = n.
Proof. induction n as [|n IH]; [reflexivity | simpl; now rewrite IH]. Qed.

Lemma all_digits_zeros_app (n : nat) (s : string) :
  all_digits (Invoice.zeros n ++ s) = all_digits s.
Proof.
  induction n as [|n IH]; [reflexivity|].
  change (Invoice.zeros (S n) ++ s)%string with (String "0" (Invoice.zeros n ++ s)%string).
  simpl. exact IH.
Qed.

Lemma decimal_zeros_app (n : nat) (s : string) :
  decimal (Invoice.zeros n ++ s) = decimal s.
Proof.
  unfold decimal. induction n as [|n IH]; [reflexivity|].
  change (Invoice.zeros (S n) ++ s)%string with (String "0" (Invoice.zeros n ++ s)%string).
  simpl. exact IH.
Qed.

(** [f"{n:03d}"] of a number that is not negative: decimal digits only,
    three at least, no more than three below 1000, and the number is read
    back from them. *)
Lemma format_03d_decimal (n : Z) :
  0 <= n ->
  all_digits (Invoice.format_03d n) = true
  /\ decimal (Invoice.format_03d n) = n
  /\ (3 <= String.length (Invoice.format_03d n))%nat
  /\ (n < 1000 -> String.length (Invoice.format_03d n) = 3%nat).
Proof.
  intros Hn. unfold Invoice.format_03d.
  destruct (Z.ltb_spec n 0); [lia|]. unfold Invoice.zfill.
  destruct (str_of_nonneg_decimal n Hn) as (Hd & Hv & Hl).
  rewrite all_digits_zeros_app, decimal_zeros_app, string_length_app, zeros_length.
  repeat split; try assumption; [lia|].
  intros Hlt. enough (String.length (Invoice.str_of_nonneg n) <= 3)%nat by lia.
  apply (digits_of_length_le _ n "" 3); lia.
Qed.

Lemma get_next_invoice_number_largest (db : DB) :
  let numbers := map inv_invoice_number (invoices db) in
  (forall n, n ∈ numbers -> Sqlite.like_hash n = true ->
             is_hash_number n = true /\ numeric_suffix n <= Sqlite.MAX_INT64) ->
  let largest := fold_right Z.max 0 (map numeric_suffix (List.filter is_hash_number numbers)) in
  0 <= largest
  /\ Invoice.get_next_invoice_number db = String "#" (Invoice.format_03d (largest + 1)).
Proof.
  intros numbers Hpat largest. split.
  - subst largest. generalize (map numeric_suffix (List.filter is_hash_number numbers)).
    intros l. induction l; simpl; lia.
  - rewrite get_next_invoice_number_numbers. unfold next_of. fold numbers.
    rewrite (suffixes_pattern _ Hpat), max_agg_nonneg; [reflexivity|].
    apply Forall_forall. intros y (n & -> & Hn)%list_elem_of_fmap.
    apply elem_of_List_filter in Hn as [_ Hn]. apply numeric_suffix_nonneg, Hn.
Qed.

(** C2. Over invoice records whose numbers beginning with [#] are of the
    pattern (the [#], then digits that read as a number within SQLite's 64
    bits), [get_next_invoice_number] returns [#] followed by the decimal
    digits, zeros in front up to three, of one more than the largest
    numeric suffix, 0 when there is no such number. So the first number is
    [#001], and after [#001], [#002] and [#004] the next is [#005]. *)
Theorem next_invoice_number_spec (db : DB) :
  let numbers := map inv_invoice_number (invoices db) in
  (forall n, n ∈ numbers -> Sqlite.like_hash n = true ->
             is_hash_number n = true /\ numeric_suffix n <= Sqlite.MAX_INT64) ->
  let largest := fold_right Z.max 0 (map numeric_suffix (List.filter is_hash_number numbers)) in
  Invoice.get_next_invoice_number db = next_number numbers
  /\ Invoice.get_next_invoice_number db = String "#" (Invoice.format_03d (largest + 1))
  /\ all_digits (Invoice.format_03d (largest + 1)) = true
  /\ decimal (Invoice.format_03d (largest + 1)) = largest + 1
  /\ (3 <= String.length (Invoice.format_03d (largest + 1)))%nat
  /\ (largest + 1 < 1000 -> String.length (Invoice.format_03d (largest + 1)) = 3%nat)
  /\ (numbers = [] -> Invoice.get_next_invoice_number db = "#001")
  /\ (numbers = ["#001"; "#002"; "#004"] -> Invoice.get_next_invoice_number db = "#005").
Proof.
  intros numbers Hpat largest.
  destruct (get_next_invoice_number_largest db Hpat) as [H0 Hnext].
  fold numbers in H0, Hnext. fold largest in H0, Hnext.
  destruct (format_03d_decimal (largest + 1)) as (Hd & Hv & Hl & H3); [lia|].
  repeat split; try assumption.
  - intros Hnil. rewrite Hnext. subst largest. rewrite Hnil. reflexivity.
  - intros Hlist. rewrite Hnext. subst largest. rewrite Hlist. vm_compute. reflexivity.
Qed.

Lemma next_invoice_number_spec_witness :
  Invoice.get_next_invoice_number (Sample.with_invoices ["#001"; "#002"; "#004"]) = "#005"
  /\ Invoice.get_next_invoice_number (Sample.with_invoices []) = "#001".
Proof.
  split.
  - refine (proj2 (proj2 (proj2 (proj2 (proj2 (proj2 (proj2
              (next_invoice_number_spec (Sample.with_invoices ["#001"; "#002"; "#004"]) _)))))))
              eq_refl).
    intros n Hn _. vm_compute in Hn.
    repeat (apply elem_of_cons in Hn as [->|Hn]; [split; [reflexivity | vm_compute; discriminate]|]).
    inversion Hn.
  - refine (proj1 (proj2 (proj2 (proj2 (proj2 (proj2 (proj2
              (next_invoice_number_spec (Sample.with_invoices []) _)))))))
              eq_refl).
    intros n Hn. inversion Hn.
Defined.

Lemma le_fold_right_max (l : list Z) (x : Z) : x ∈ l -> x <= fold_right Z.max 0 l.
Proof.
  induction 1 as [x l | x y l Hin IH]; simpl; lia.
Qed.

(** X5. A generated number is of the pattern and larger than every number
    of the pattern in the table, so it is none of the stored numbers: gaps
    are not filled, and inserting it cannot fail on UNIQUE. *)
Theorem next_invoice_number_fresh (db : DB) :
  let numbers := map inv_invoice_number (invoices db) in
  (forall n, n ∈ numbers -> Sqlite.like_hash n = true ->
             is_hash_number n = true /\ numeric_suffix n <= Sqlite.MAX_INT64) ->
  is_hash_number (Invoice.get_next_invoice_number db) = true
  /\ (forall n, n ∈ numbers -> is_hash_number n = true ->
                numeric_suffix n < numeric_suffix (Invoice.get_next_invoice_number db))
  /\ Invoice.get_next_invoice_number db ∉ numbers.
Proof.
  intros numbers Hpat.
  destruct (get_next_invoice_number_largest db Hpat) as [H0 Hnext].
  fold numbers in H0, Hnext.
  set (largest := fold_right Z.max 0 (map numeric_suffix (List.filter is_hash_number numbers)))
    in *.
  destruct (format_03d_decimal (largest + 1)) as (Hd & Hv & Hl & _); [lia|].
  assert (Hpatn : is_hash_number (Invoice.get_next_invoice_number db) = true).
  { rewrite Hnext. destruct (Invoice.format_03d (largest + 1)) as [|c r]; [simpl in Hl; lia|].
    exact Hd. }
  assert (Hsuf : numeric_suffix (Invoice.get_next_invoice_number db) = largest + 1).
  { rewrite Hnext. exact Hv. }
  assert (Hlt : forall n, n ∈ numbers -> is_hash_number n = true ->
                          numeric_suffix n < numeric_suffix (Invoice.get_next_invoice_number db)).
  { intros n Hn Hp. rewrite Hsuf.
    enough (numeric_suffix n <= largest) by lia.
    apply le_fold_right_max, list_elem_of_fmap. exists n. split; [reflexivity|].
    apply elem_of_List_filter. split; assumption. }
  repeat split; try assumption.
  intros Hin. specialize (Hlt _ Hin Hpatn). lia.
Qed.

Lemma next_invoice_number_fresh_witness :
  Invoice.get_next_invoice_number (Sample.with_invoices ["#001"; "#002"; "#004"])
  ∉ ["#001"; "#002"; "#004"].
Proof.
  refine (proj2 (proj2 (next_invoice_number_fresh
                          (Sample.with_invoices ["#001"; "#002"; "#004"]) _))).
  intros n Hn _. vm_compute in Hn.
  repeat (apply elem_of_cons in Hn as [->|Hn]; [split; [reflexivity | vm_compute; discriminate]|]).
  inversion Hn.
Defined.

(** * Compiling an invoice *)

Lemma bind_real_Some (x : float) : PrimFloat.is_nan x = false -> Sqlite.bind_real x = Some x.
Proof. unfold Sqlite.bind_real. intros ->. reflexivity. Qed.

Lemma existsb_number_false (number : string) (rows : list InvoiceRow) :
  number ∉ map inv_invoice_number rows ->
  existsb (fun i => String.eqb (inv_invoice_number i) number) rows = false.
Proof.
  intros Hnot. apply not_true_is_false. intros (i & Hi & Heq)%existsb_exists.
  apply String.eqb_eq in Heq. apply Hnot. rewrite <- Heq.
  apply list_elem_of_fmap. exists i. split; [reflexivity|]. now apply list_elem_of_In.
Qed.

(** C3. Given an invoice date that parses, a document that builds, a
    number that is not taken and totals that are numbers,
    [generate_invoice_pdf] writes the file and appends one invoice record. Its total hours are the sum of the stored
    [duration_hours] of the events, added from left to right as floats and
    not rounded again; its total amount is the float product of these total
    hours and the hourly rate, which is the rate it was given. Durations
    2.5 and 1.25 at the rate 1000 give 3.75 hours and the amount 3750.0. *)
Theorem invoice_totals
    (today : string) (plus_days : string -> Z -> res string) (INVOICES_DIR : string)
    (build_document : string -> Cycle -> list Event -> Profile -> float -> bool ->
                      string -> string -> res unit)
    (compensated : bool)
    (cycle : Cycle) (events : list Event) (profile : Profile) (hourly_rate : float)
    (detailed : bool) (invoice_date : option string) (due_days : Z)
    (db : DB) (fs : files) (due_date : string) :
  let date := match invoice_date with
              | Some d => if String.eqb d "" then today else d
              | None => today
              end in
  let total_hours := sum compensated (map ev_duration_hours events) in
  let total_amount := (total_hours * hourly_rate)%float in
  plus_days date due_days = Ok due_date ->
  (forall pdf_path,
      build_document pdf_path cycle events profile hourly_rate detailed date due_date
      = Ok tt) ->
  Invoice.get_next_invoice_number db ∉ map inv_invoice_number (invoices db) ->
  PrimFloat.is_nan total_hours = false ->
  PrimFloat.is_nan hourly_rate = false ->
  PrimFloat.is_nan total_amount = false ->
  exists inv pdf_path new_id,
    PdfGenerator.generate_invoice_pdf today plus_days INVOICES_DIR build_document
      compensated cycle events profile hourly_rate detailed invoice_date due_days db fs
    = (set_invoices (invoices db ++ [inv]) new_id db, {[ pdf_path ]} ∪ fs, Ok pdf_path)
    /\ inv_total_hours inv = sum compensated (map ev_duration_hours events)
    /\ inv_hourly_rate inv = hourly_rate
    /\ inv_total_amount inv = (inv_total_hours inv * inv_hourly_rate inv)%float
    /\ inv_invoice_number inv = Invoice.get_next_invoice_number db
    /\ inv_cycle_id inv = cyc_id cycle
    /\ inv_invoice_date inv = date /\ inv_due_date inv = due_date
    /\ inv_pdf_path inv = Some pdf_path
    /\ (map ev_duration_hours events = [2.5; 1.25]%float -> hourly_rate = 1000%float ->
        inv_total_hours inv = 3.75%float /\ inv_total_amount inv = 3750%float).
Proof.
  intros date total_hours total_amount Hdue Hbuild Hfresh Hth Hhr Hta.
  unfold PdfGenerator.generate_invoice_pdf. fold date. rewrite Hdue, Hbuild.
  fold total_hours. fold total_amount. unfold Invoice.create.
  rewrite (bind_real_Some _ Hth), (bind_real_Some _ Hhr), (bind_real_Some _ Hta).
  rewrite (existsb_number_false _ _ Hfresh).
  eexists _, _, _. split; [reflexivity|]. cbn.
  do 8 (split; [reflexivity|]).
  subst total_amount total_hours. intros -> ->. destruct compensated; split; reflexivity.
Qed.

Lemma invoice_totals_witness :
  exists inv pdf_path new_id,
    PdfGenerator.generate_invoice_pdf "2024-02-01" Sample.plus_days "invoices"
      Sample.build true Sample.cycle1 [Sample.e1; Sample.e2] Sample.answers 1000 false
      None 30 Sample.db1 ∅
    = (set_invoices (invoices Sample.db1 ++ [inv]) new_id Sample.db1,
       {[ pdf_path ]} ∪ ∅, Ok pdf_path)
    /\ inv_total_hours inv = 3.75%float /\ inv_total_amount inv = 3750%float
    /\ inv_invoice_number inv = "#001".
Proof.
  destruct (invoice_totals "2024-02-01" Sample.plus_days "invoices" Sample.build true
              Sample.cycle1 [Sample.e1; Sample.e2] Sample.answers 1000 false None 30
              Sample.db1 ∅ "2024-03-02")
    as (inv & pdf_path & new_id & Hrun & _ & _ & _ & Hnum & _ & _ & _ & _ & Hex);
    [reflexivity | reflexivity | vm_compute; set_solver
     | reflexivity | reflexivity | reflexivity |].
  exists inv, pdf_path, new_id. split; [exact Hrun|].
  destruct (Hex eq_refl eq_refl) as [Hh Ha].
  split; [exact Hh|]. split; [exact Ha|]. exact Hnum.
Defined.

(** The sum is not rounded again: two stored durations of two decimals
    can add up to a float that has more, with either [sum]. *)
Example total_hours_not_rounded :
  forall compensated,
    sum compensated [0.1; 0.2]%float = 0.30000000000000004%float
    /\ round2 (sum compensated [0.1; 0.2]%float) = 0.3%float.
Proof. intros []; split; vm_compute; reflexivity. Qed.

(** Without compensation [sum] is the fold of the additions; with it, ten
    durations of 0.1 add up to 1.0 instead of 0.9999999999999999. *)
Lemma sum_plain (xs : list float) : sum false xs = fold_left PrimFloat.add xs 0%float.
Proof.
  unfold sum. generalize 0%float at 2 as c. generalize 0%float as f.
  induction xs as [|x xs IH]; intros f c; [reflexivity|]. apply IH.
Qed.

Example sum_ten_tenths :
  sum false (replicate 10 0.1%float) = 0.9999999999999999%float
  /\ sum true (replicate 10 0.1%float) = 1%float.
Proof. split; vm_compute; reflexivity. Qed.

Lemma get_by_cycle_update_rate (cycle_id c : Z) (r : float) (db : DB) :
  CalendarEvent.get_by_cycle c (InvoiceCycle.update_rate cycle_id r db)
  = CalendarEvent.get_by_cycle c db.
Proof. reflexivity. Qed.

(** C4, as the code has it. When the cycle has no bound event, [generate]
    ends with exit code 1 on [No events assigned to this cycle]: no invoice
    record is added and none is changed, the next invoice number stays what
    it was, no file is written, and the events and the profile are as
    before. One thing may have changed by then: when neither [--rate] nor
    the cycle gives a rate, the rate typed at the prompt has been stored in
    the cycle. *)
Theorem generate_without_events
    (today : string) (plus_days : string -> Z -> res string) (INVOICES_DIR : string)
    (build_document : string -> Cycle -> list Event -> Profile -> float -> bool ->
                      string -> string -> res unit)
    (compensated : bool)
    (cycle_id : Z) (rate : option float) (detailed : bool)
    (invoice_date : option string) (due_days : Z)
    (prompted_rate : float) (answers : Profile) (db : DB) (fs : files) (cycle : Cycle) :
  InvoiceCycle.get cycle_id db = Some cycle ->
  CalendarEvent.get_by_cycle cycle_id db = [] ->
  exists db',
    generate today plus_days INVOICES_DIR build_document compensated cycle_id rate
             detailed invoice_date due_days prompted_rate answers db fs
    = (db', fs, Exit 1 NoEventsAssigned)
    /\ invoices db' = invoices db
    /\ seq_invoices db' = seq_invoices db
    /\ Invoice.get_next_invoice_number db' = Invoice.get_next_invoice_number db
    /\ calendar_events db' = calendar_events db
    /\ user_profile db' = user_profile db
    /\ (db' = db
        \/ (forall r, rate_or rate (cyc_hourly_rate cycle) = Some r -> truthy r = false)
           /\ db' = InvoiceCycle.update_rate cycle_id prompted_rate db).
Proof.
  intros Hget Hnone. unfold generate. rewrite Hget.
  destruct (rate_or rate (cyc_hourly_rate cycle)) as [r|] eqn:Hrate;
    [destruct (truthy r) eqn:Htr|].
  - exists db. rewrite Hnone. repeat split; try reflexivity. left. reflexivity.
  - exists (InvoiceCycle.update_rate cycle_id prompted_rate db).
    rewrite get_by_cycle_update_rate, Hnone. repeat split; try reflexivity.
    right. split; [|reflexivity]. intros r' [= <-]. assumption.
  - exists (InvoiceCycle.update_rate cycle_id prompted_rate db).
    rewrite get_by_cycle_update_rate, Hnone. repeat split; try reflexivity.
    right. split; [|reflexivity]. intros r' [=].
Qed.

Lemma generate_without_events_witness :
  exists db',
    generate "2024-02-01" Sample.plus_days "invoices" Sample.build true 1
             (Some 1000%float) false None 30 500 Sample.answers Sample.db1 ∅
    = (db', ∅, Exit 1 NoEventsAssigned)
    /\ invoices db' = invoices Sample.db1.
Proof.
  destruct (generate_without_events "2024-02-01" Sample.plus_days "invoices" Sample.build
              true 1 (Some 1000%float) false None 30 500 Sample.answers Sample.db1 ∅
              Sample.cycle1)
    as (db' & Hrun & Hinv & _); [reflexivity | reflexivity |].
  exists db'. split; [exact Hrun | exact Hinv].
Defined.

(** C4, as the claim has it, fails: the command fails on the cycle without
    events after it has stored the prompted rate in the cycle. *)
Lemma generate_without_events_stores_rate :
  generate "2024-02-01" Sample.plus_days "invoices" Sample.build true 1 None false None
           30 500 Sample.answers Sample.db1 ∅
  = (InvoiceCycle.update_rate 1 500 Sample.db1, ∅, Exit 1 NoEventsAssigned)
  /\ map cyc_hourly_rate (invoice_cycles Sample.db1) = [None]
  /\ map cyc_hourly_rate (invoice_cycles (InvoiceCycle.update_rate 1 500 Sample.db1))
     = [Some 500%float]
  /\ InvoiceCycle.update_rate 1 500 Sample.db1 <> Sample.db1.
Proof.
  repeat split; try reflexivity.
  intros H. apply (f_equal (fun d => map cyc_hourly_rate (invoice_cycles d))) in H.
  discriminate H.
Qed.

(** [generate_invoice_pdf] itself does not look at the number of events:
    the check is the caller's. With no event it would record an invoice of
    0 hours. *)
Example generate_invoice_pdf_no_events :
  (let '(db', fs', r) :=
     PdfGenerator.generate_invoice_pdf "2024-02-01" Sample.plus_days "invoices"
       Sample.build true Sample.cycle1 [] Sample.answers 1000 false None 30
       Sample.db1 ∅ in
   (map inv_invoice_number (invoices db'), map inv_total_amount (invoices db'), r))
  = (["#001"], [0%float], Ok "invoices/invoice-001-2024-02-01.pdf").
Proof. vm_compute. reflexivity. Qed.

(** * Deleting an invoice *)

Lemma NoDup_fmap_eq {A B : Type} (f : A -> B) (l : list A) (x y : A) :
  NoDup (map f l) -> x ∈ l -> y ∈ l -> f x = f y -> x = y.
Proof.
  induction l as [|z l IH]; intros Hnd Hx Hy Heq; [inversion Hx|].
  simpl in Hnd. apply NoDup_cons in Hnd as [Hz Hnd].
  apply elem_of_cons in Hx as [->|Hx]; apply elem_of_cons in Hy as [->|Hy].
  - reflexivity.
  - exfalso. apply Hz. rewrite Heq. apply list_elem_of_fmap. eauto.
  - exfalso. apply Hz. rewrite <- Heq. apply list_elem_of_fmap. eauto.
  - apply IH; assumption.
Qed.

Lemma filter_length_lt {A : Type} (f : A -> bool) (l : list A) (x : A) :
  x ∈ l -> f x = false -> (length (List.filter f l) < length l)%nat.
Proof.
  induction 1 as [x l | x y l Hin IH]; intros Hf; simpl.
  - rewrite Hf. pose proof (List.filter_length_le f l). lia.
  - specialize (IH Hf). destruct (f y); simpl; lia.
Qed.

Lemma elem_of_joined (db : DB) (rows : list InvoiceRow) (j : Invoice.Joined) :
  j ∈ concat (map (Invoice.join_cycles db) rows) ->
  Invoice.j_invoice j ∈ rows
  /\ exists c, c ∈ invoice_cycles db /\ cyc_id c = inv_cycle_id (Invoice.j_invoice j).
Proof.
  intros Hj. apply list_elem_of_In, in_concat in Hj as (js & Hjs & Hj).
  apply in_map_iff in Hjs as (i & <- & Hi). unfold Invoice.join_cycles in Hj.
  apply in_map_iff in Hj as (c & <- & Hc). apply filter_In in Hc as [Hc Hid].
  simpl. split; [now apply list_elem_of_In|].
  exists c. split; [now apply list_elem_of_In | now apply Z.eqb_eq].
Qed.

(** A stored invoice whose cycle is stored is found by its number. *)
Lemma get_by_number_found (invoice_number : string) (db : DB) (inv : InvoiceRow) :
  inv ∈ invoices db -> inv_invoice_number inv = invoice_number ->
  (exists c, c ∈ invoice_cycles db /\ cyc_id c = inv_cycle_id inv) ->
  exists j, Invoice.get_by_number invoice_number db = Some j
            /\ Invoice.j_invoice j ∈ invoices db
            /\ inv_invoice_number (Invoice.j_invoice j) = invoice_number.
Proof.
  intros Hin Hnum (c & Hc & Hid). unfold Invoice.get_by_number.
  set (rows := List.filter _ (invoices db)).
  destruct (concat (map (Invoice.join_cycles db) rows)) as [|j js] eqn:Hjs.
  - exfalso.
    assert (Hmem : {| Invoice.j_invoice := inv; Invoice.j_cycle_name := cyc_name c;
                      Invoice.j_client_name := cyc_client_name c |}
                   ∈ concat (map (Invoice.join_cycles db) rows)).
    { apply list_elem_of_In, in_concat. exists (Invoice.join_cycles db inv). split.
      - apply in_map, filter_In. split; [now apply list_elem_of_In|].
        now apply String.eqb_eq.
      - unfold Invoice.join_cycles.
        apply (in_map (fun c => {| Invoice.j_invoice := inv;
                                   Invoice.j_cycle_name := cyc_name c;
                                   Invoice.j_client_name := cyc_client_name c |})).
        apply filter_In. split; [now apply list_elem_of_In | now apply Z.eqb_eq]. }
    rewrite Hjs in Hmem. inversion Hmem.
  - exists j. split; [reflexivity|].
    assert (Hj : j ∈ concat (map (Invoice.join_cycles db) rows))
      by (rewrite Hjs; left).
    apply elem_of_joined in Hj as [Hj _]. subst rows.
    apply elem_of_List_filter in Hj as [Hj Heq]. split; [assumption|].
    now apply String.eqb_eq.
Qed.

Lemma get_by_number_not_found (invoice_number : string) (db : DB) :
  (forall inv, inv ∈ invoices db -> inv_invoice_number inv <> invoice_number) ->
  Invoice.get_by_number invoice_number db = None.
Proof.
  intros Hnone. unfold Invoice.get_by_number.
  replace (List.filter _ (invoices db)) with (@nil InvoiceRow); [reflexivity|].
  symmetry. induction (invoices db) as [|i l IH]; [reflexivity|]. simpl.
  destruct (String.eqb_spec (inv_invoice_number i) invoice_number) as [Heq|Hne].
  - exfalso. apply (Hnone i); [left | assumption].
  - apply IH. intros inv Hinv. apply Hnone. right. assumption.
Qed.

(** C9. Deleting by the number of a stored invoice (its cycle is stored,
    and invoice numbers are unique as the schema has them) returns true,
    removes the record and leaves every other record, and the file at the
    stored path is no file any more while every other file is kept; the
    lookup by that number then finds nothing. Deleting by a number that no
    record has returns false and leaves the records and the files as they
    were. *)
Theorem delete_invoice (invoice_number : string) (db : DB) (fs : files) :
  (forall inv,
      inv ∈ invoices db -> inv_invoice_number inv = invoice_number ->
      (exists c, c ∈ invoice_cycles db /\ cyc_id c = inv_cycle_id inv) ->
      NoDup (map inv_invoice_number (invoices db)) ->
      exists db' fs',
        Invoice.delete invoice_number db fs = (db', fs', true)
        /\ (forall i, i ∈ invoices db' <-> i ∈ invoices db /\ i <> inv)
        /\ (forall p, inv_pdf_path inv = Some p -> p <> "" -> p ∉ fs')
        /\ (forall q, q ∈ fs' -> q ∈ fs)
        /\ (forall q, q ∈ fs -> inv_pdf_path inv <> Some q -> q ∈ fs')
        /\ Invoice.get_by_number invoice_number db' = None
        /\ invoice_cycles db' = invoice_cycles db
        /\ calendar_events db' = calendar_events db)
  /\ ((forall inv, inv ∈ invoices db -> inv_invoice_number inv <> invoice_number) ->
      Invoice.delete invoice_number db fs = (db, fs, false)).
Proof.
  split.
  - intros inv Hin Hnum Hcycle Hnd.
    destruct (get_by_number_found _ _ _ Hin Hnum Hcycle) as (j & Hget & Hj & Hjn).
    assert (Hsame : Invoice.j_invoice j = inv).
    { apply (NoDup_fmap_eq inv_invoice_number (invoices db)); congruence. }
    unfold Invoice.delete. rewrite Hget, Hsame.
    set (kept := List.filter _ (invoices db)).
    assert (Hkept : forall i, i ∈ kept <-> i ∈ invoices db /\ i <> inv).
    { intros i. subst kept. rewrite elem_of_List_filter, negb_true_iff. split.
      - intros [Hi Hne]. split; [assumption|]. intros ->.
        apply String.eqb_neq in Hne. contradiction.
      - intros [Hi Hne]. split; [assumption|]. apply String.eqb_neq. intros Heq.
        apply Hne. apply (NoDup_fmap_eq inv_invoice_number (invoices db)); congruence. }
    assert (Hcount : (0 <? length (invoices db) - length kept)%nat = true).
    { apply Nat.ltb_lt. subst kept.
      enough (length (List.filter
                        (fun i => negb (String.eqb (inv_invoice_number i) invoice_number))
                        (invoices db)) < length (invoices db))%nat by lia.
      apply (filter_length_lt _ _ inv Hin). rewrite Hnum, String.eqb_refl. reflexivity. }
    rewrite Hcount. eexists _, _. split; [reflexivity|]. cbn [invoices set_invoices].
    split; [exact Hkept|]. split; [|split; [|split; [|split; [|split; reflexivity]]]].
    + intros p -> Hp. apply String.eqb_neq in Hp. rewrite Hp. simpl.
      destruct (bool_decide_reflect (p ∈ fs)) as [Hfs|Hfs]; [|exact Hfs].
      rewrite elem_of_difference, elem_of_singleton. tauto.
    + intros q. destruct (inv_pdf_path inv) as [p|]; [|auto].
      destruct (negb (String.eqb p "") && bool_decide (p ∈ fs)); [|auto].
      now intros [Hq _]%elem_of_difference.
    + intros q Hq Hne. destruct (inv_pdf_path inv) as [p|]; [|assumption].
      destruct (negb (String.eqb p "") && bool_decide (p ∈ fs)); [|assumption].
      apply elem_of_difference. split; [assumption|].
      rewrite elem_of_singleton. congruence.
    + apply get_by_number_not_found. cbn [invoices set_invoices].
      intros i [Hi Hne]%Hkept Heq. apply Hne.
      apply (NoDup_fmap_eq inv_invoice_number (invoices db)); congruence.
  - intros Hnone. unfold Invoice.delete.
    rewrite (get_by_number_not_found _ _ Hnone). reflexivity.
Qed.

Lemma delete_invoice_witness :
  exists db' fs',
    Invoice.delete "#001" (Sample.with_invoices ["#001"; "#002"])
                   {[ "invoices/invoice-001.pdf"; "invoices/invoice-002.pdf" ]}
    = (db', fs', true)
    /\ Invoice.get_by_number "#001" db' = None
    /\ ("invoices/invoice-001.pdf" ∉ fs')
    /\ ("invoices/invoice-002.pdf" ∈ fs')
    /\ Invoice.delete "#009" (Sample.with_invoices ["#001"; "#002"]) ∅
       = (Sample.with_invoices ["#001"; "#002"], ∅, false).
Proof.
  destruct (proj1 (delete_invoice "#001" (Sample.with_invoices ["#001"; "#002"])
                     {[ "invoices/invoice-001.pdf"; "invoices/invoice-002.pdf" ]})
                  (Sample.invoice 1 "#001"))
    as (db' & fs' & Hrun & _ & Hgone & _ & Hkept & Hfind & _).
  - vm_compute. left.
  - reflexivity.
  - exists Sample.cycle1. split; [vm_compute; left | reflexivity].
  - apply (bool_decide_unpack _). vm_compute. exact I.
  - exists db', fs'. split; [exact Hrun|]. split; [exact Hfind|].
    split; [apply (Hgone _ eq_refl); discriminate|].
    split; [apply Hkept; [set_solver | discriminate]|].
    apply (proj2 (delete_invoice "#009" (Sample.with_invoices ["#001"; "#002"]) ∅)).
    intros inv Hinv. vm_compute in Hinv.
    repeat (apply elem_of_cons in Hinv as [->|Hinv]; [discriminate|]).
    inversion Hinv.
Defined.

(** * Ingestion *)

Lemma for_each_cons {A S : Type} (body : S -> A -> res S) (x : A) (rest : list A) (s : S) :
  for_each body (x :: rest) s = (s' ← body s x; for_each body rest s').
Proof. reflexivity. Qed.

Lemma process_event_timed acc item start end_ :
  timed item start end_ ->
  CalendarClient.process_event acc item = Ok (acc ++ [dict_of item start end_])%list.
Proof. intros [Hs He]. unfold CalendarClient.process_event. rewrite Hs, He. reflexivity. Qed.

Lemma process_event_all_day acc item :
  CalendarClient.api_start item = None -> CalendarClient.process_event acc item = Ok acc.
Proof. intros Hs. unfold CalendarClient.process_event. rewrite Hs. reflexivity. Qed.

Lemma process_events_Ok (items : list CalendarClient.ApiEvent)
    (acc : list CalendarEvent.EventDict) :
  (forall item start, item ∈ items -> CalendarClient.api_start item = Some start ->
                      exists end_, CalendarClient.api_end item = Some end_) ->
  exists events,
    for_each CalendarClient.process_event items acc = Ok events
    /\ forall ev, ev ∈ events <->
                  ev ∈ acc \/ exists item start end_,
                                item ∈ items /\ timed item start end_
                                /\ ev = dict_of item start end_.
Proof.
  revert acc. induction items as [|item items IH]; intros acc Hend.
  - exists acc. split; [reflexivity|]. intros ev. split; [auto|].
    intros [?|(? & ? & ? & Hin & _)]; [assumption | inversion Hin].
  - assert (Hend' : forall it start, it ∈ items -> CalendarClient.api_start it = Some start ->
                                     exists end_, CalendarClient.api_end it = Some end_)
      by (intros it start Hit; apply Hend; right; exact Hit).
    rewrite for_each_cons.
    destruct (CalendarClient.api_start item) as [start|] eqn:Hs.
    + destruct (Hend item start (list_elem_of_here _ _) Hs) as [end_ He].
      rewrite (process_event_timed acc item start end_ (conj Hs He)).
      destruct (IH (acc ++ [dict_of item start end_])%list Hend') as (events & Hrun & Hmem).
      exists events. split; [exact Hrun|]. intros ev. rewrite Hmem, elem_of_app.
      rewrite list_elem_of_singleton. split.
      * intros [[?| ->]|(it & s & e & Hin & Ht & ->)]; [left; assumption | right | right].
        -- exists item, start, end_. repeat split; [left | assumption..].
        -- exists it, s, e. repeat split; [right; assumption | apply Ht..].
      * intros [?|(it & s & e & Hin & Ht & ->)]; [left; left; assumption|].
        apply elem_of_cons in Hin as [->|Hin].
        -- destruct Ht as [Hs' He']. rewrite Hs in Hs'. rewrite He in He'.
           injection Hs' as <-. injection He' as <-. left. right. reflexivity.
        -- right. exists it, s, e. auto.
    + rewrite (process_event_all_day acc item Hs).
      destruct (IH acc Hend') as (events & Hrun & Hmem).
      exists events. split; [exact Hrun|]. intros ev. rewrite Hmem. split.
      * intros [?|(it & s & e & Hin & Ht & ->)]; [left; assumption | right].
        exists it, s, e. repeat split; [right; assumption | apply Ht..].
      * intros [?|(it & s & e & Hin & Ht & ->)]; [left; assumption|].
        apply elem_of_cons in Hin as [->|Hin].
        -- destruct Ht as [Hs' _]. congruence.
        -- right. exists it, s, e. auto.
Qed.

Lemma le_fold_left_max (ids : list Z) (seq x : Z) :
  x ∈ ids -> x <= fold_left Z.max ids seq.
Proof.
  assert (Hmono : forall l a, a <= fold_left Z.max l a).
  { induction l as [|y l IH]; intros a; simpl; [lia|]. etrans; [|apply IH]. lia. }
  revert seq. induction ids as [|y ids IH]; intros seq Hx; [inversion Hx|].
  simpl. apply elem_of_cons in Hx as [->|Hx]; [|apply IH, Hx].
  etrans; [|apply Hmono]. lia.
Qed.

(** One [INSERT OR REPLACE]: the rows of other keys are kept in place, the
    rows of the key are gone, and one row is added at the end under a rowid
    above every rowid of the table. *)
Lemma insert_or_replace_inv (c : option Z) (db db' : DB) (event : CalendarEvent.EventDict) :
  CalendarEvent.insert_or_replace c db event = Ok db' ->
  exists row,
    calendar_events db'
    = List.filter (fun r => negb (String.eqb (ev_event_id r) (CalendarEvent.d_id event)))
                  (calendar_events db) ++ [row]
    /\ row_of event row /\ ev_cycle_id row = c
    /\ (forall x, x ∈ calendar_events db -> ev_id x < ev_id row)
    /\ invoice_cycles db' = invoice_cycles db /\ invoices db' = invoices db.
Proof.
  unfold CalendarEvent.insert_or_replace, Sqlite.bind_real.
  destruct (PrimFloat.is_nan (CalendarEvent.d_duration_hours event)); [discriminate|].
  intros [= <-]. eexists. split; [reflexivity|]. cbn.
  split; [repeat split|]. split; [reflexivity|]. split; [|split; reflexivity].
  intros x Hx. unfold Sqlite.next_rowid.
  enough (ev_id x <= fold_left Z.max (map ev_id (calendar_events db)) (seq_calendar_events db))
    by lia.
  apply le_fold_left_max, list_elem_of_fmap. eauto.
Qed.

Lemma insert_or_replace_Ok (c : option Z) (db : DB) (event : CalendarEvent.EventDict) :
  PrimFloat.is_nan (CalendarEvent.d_duration_hours event) = false ->
  exists db', CalendarEvent.insert_or_replace c db event = Ok db'.
Proof.
  intros Hnan. unfold CalendarEvent.insert_or_replace, Sqlite.bind_real.
  rewrite Hnan. eauto.
Qed.

Lemma bulk_insert_Ok (events : list CalendarEvent.EventDict) (c : option Z) (db : DB) :
  (forall e, e ∈ events -> PrimFloat.is_nan (CalendarEvent.d_duration_hours e) = false) ->
  exists db', CalendarEvent.bulk_insert events c db = Ok db'.
Proof.
  unfold CalendarEvent.bulk_insert. revert db.
  induction events as [|e events IH]; intros db Hnan; simpl; [eauto|].
  destruct (insert_or_replace_Ok c db e) as [db1 H1]; [apply Hnan; left|].
  rewrite H1. simpl. apply IH. intros e' He'. apply Hnan. right. assumption.
Qed.

(** After a bulk insert every row is a row of before or the row of one of
    the inserted dictionaries, with the cycle link given to the call; and
    every inserted dictionary has a row. *)
Lemma bulk_insert_inv (events : list CalendarEvent.EventDict) (c : option Z) (db db' : DB) :
  CalendarEvent.bulk_insert events c db = Ok db' ->
  (forall row, row ∈ calendar_events db' ->
               row ∈ calendar_events db
               \/ exists e, e ∈ events /\ row_of e row /\ ev_cycle_id row = c)
  /\ (forall e, e ∈ events ->
                exists row, row ∈ calendar_events db'
                            /\ ev_event_id row = CalendarEvent.d_id e).
Proof.
  unfold CalendarEvent.bulk_insert. revert db.
  induction events as [|e events IH]; intros db; simpl.
  - intros [= <-]. split; [auto | intros e He; inversion He].
  - destruct (CalendarEvent.insert_or_replace c db e) as [db1|] eqn:H1; [|discriminate].
    simpl. intros Hrest. destruct (IH _ Hrest) as [Hrows Hkeys].
    destruct (insert_or_replace_inv _ _ _ _ H1) as (row1 & Hev & Hrow1 & Hc1 & _).
    split.
    + intros row [Hrow|(e' & He' & Hr)]%Hrows.
      * rewrite Hev in Hrow. apply elem_of_app in Hrow as [Hrow|Hrow].
        -- left. now apply elem_of_List_filter in Hrow as [Hrow _].
        -- apply list_elem_of_singleton in Hrow as ->. right. exists e.
           split; [left | split; assumption].
      * right. exists e'. split; [right; assumption | assumption].
    + intros e' [ -> |He']%elem_of_cons; [|apply Hkeys, He'].
      (* the row of [e] stays, or a later dictionary of the same key has one *)
      clear Hrows Hkeys IH.
      assert (Hhas : exists row, row ∈ calendar_events db1
                                 /\ ev_event_id row = CalendarEvent.d_id e).
      { exists row1. split; [rewrite Hev; apply elem_of_app; right; left | apply Hrow1]. }
      clear H1 Hev Hrow1 Hc1. revert db1 Hrest Hhas.
      induction events as [|e2 events IH2]; intros db1; simpl.
      * intros [= <-]. auto.
      * destruct (CalendarEvent.insert_or_replace c db1 e2) as [db2|] eqn:H2; [|discriminate].
        simpl. intros Hrest (row & Hrow & Hkey). apply (IH2 _ Hrest).
        destruct (insert_or_replace_inv _ _ _ _ H2) as (row2 & Hev2 & Hrow2 & _).
        destruct (String.eqb_spec (CalendarEvent.d_id e) (CalendarEvent.d_id e2)) as [Heq|Hne].
        -- exists row2. split; [rewrite Hev2; apply elem_of_app; right; left|].
           rewrite Heq. apply Hrow2.
        -- exists row. split; [|assumption]. rewrite Hev2. apply elem_of_app. left.
           apply elem_of_List_filter. split; [assumption|].
           apply negb_true_iff, String.eqb_neq. congruence.
Qed.

(** C6, as the code has it. Every timed item of the calendar's answer is
    admitted and stored, whatever the order of its two instants: the time
    stamps are stored as the calendar gave them and the stored
    [duration_hours] is [round((end - start).total_seconds() / 3600, 2)],
    which is 0 or negative when the end is not after the start. No row is
    rejected or clamped, and every row that ingestion writes has no
    cycle. *)
Theorem ingestion_stores_rounded_duration
    (items : list CalendarClient.ApiEvent) (db : DB) :
  (forall item start, item ∈ items -> CalendarClient.api_start item = Some start ->
                      exists end_, CalendarClient.api_end item = Some end_) ->
  (forall item start end_,
      item ∈ items -> timed item start end_ ->
      PrimFloat.is_nan (round2 (CalendarClient.hours_between start end_)) = false) ->
  exists events db',
    CalendarClient.fetch_events (Ok items) = Ok events
    /\ CalendarEvent.bulk_insert events None db = Ok db'
    /\ (forall item start end_,
           item ∈ items -> timed item start end_ ->
           exists row, row ∈ calendar_events db'
                       /\ ev_event_id row = CalendarClient.api_id item)
    /\ (forall row,
           row ∈ calendar_events db' ->
           row ∈ calendar_events db
           \/ exists item start end_,
                item ∈ items /\ timed item start end_
                /\ ev_event_id row = CalendarClient.api_id item
                /\ ev_start_time row = CalendarClient.isoformat start
                /\ ev_end_time row = CalendarClient.isoformat end_
                /\ ev_duration_hours row
                   = round2 (CalendarClient.hours_between start end_)
                /\ ev_cycle_id row = None).
Proof.
  intros Hend Hnan.
  destruct (process_events_Ok items [] Hend) as (events & Hrun & Hmem).
  assert (Hev : forall ev, ev ∈ events <->
                           exists item start end_,
                             item ∈ items /\ timed item start end_
                             /\ ev = dict_of item start end_).
  { intros ev. rewrite Hmem. split; [intros [Hnil|?]; [inversion Hnil | assumption] | auto]. }
  destruct (bulk_insert_Ok events None db) as [db' Hins].
  { intros e (item & start & end_ & Hin & Ht & ->)%Hev. simpl. eapply Hnan; eassumption. }
  destruct (bulk_insert_inv _ _ _ _ Hins) as [Hrows Hkeys].
  exists events, db'. split; [|split; [exact Hins|split]].
  - unfold CalendarClient.fetch_events. simpl. rewrite Hrun. reflexivity.
  - intros item start end_ Hin Ht.
    destruct (Hkeys (dict_of item start end_)) as (row & Hrow & Hkey).
    + apply Hev. eauto 6.
    + exists row. split; assumption.
  - intros row [Hold|(e & He & Hr & Hc)]%Hrows; [left; assumption | right].
    apply Hev in He as (item & start & end_ & Hin & Ht & ->).
    destruct Hr as (Hk & _ & _ & Hs & He & Hd).
    exists item, start, end_. repeat split; try assumption; apply Ht.
Qed.

Lemma ingestion_stores_rounded_duration_witness :
  exists events db',
    CalendarClient.fetch_events (Ok [Sample.fifty_minutes]) = Ok events
    /\ CalendarEvent.bulk_insert events None Sample.db1 = Ok db'
    /\ exists row, row ∈ calendar_events db' /\ ev_event_id row = "y".
Proof.
  destruct (ingestion_stores_rounded_duration [Sample.fifty_minutes] Sample.db1)
    as (events & db' & Hfetch & Hins & Hadm & _).
  - intros item start [->|Hin]%elem_of_cons; [|inversion Hin].
    intros _. eexists. reflexivity.
  - intros item start end_ [->|Hin]%elem_of_cons; [|inversion Hin].
    intros [[= <-] [= <-]]. reflexivity.
  - exists events, db'. split; [exact Hfetch|]. split; [exact Hins|].
    apply (Hadm Sample.fifty_minutes _ _ (list_elem_of_here _ _) (conj eq_refl eq_refl)).
Defined.

(** C6, as the claim has it, fails: an item that ends at the instant it
    starts is admitted and stored as it is, with a duration of 0 hours. *)
Lemma ingestion_admits_end_not_after_start :
  (let '(db', out) := fetch true (Ok [Sample.zero_length]) empty_db in
   (map (fun r => (ev_start_time r, ev_end_time r, ev_duration_hours r))
        (calendar_events db'), out))
  = ([("2024-01-03T09:00:00+00:00", "2024-01-03T09:00:00+00:00", 0%float)],
     Returned (EventsFound 1)).
Proof. vm_compute. reflexivity. Qed.

(** So is one that ends an hour before it starts, with a duration of -1. *)
Example ingestion_admits_end_before_start :
  (let '(db', out) := fetch true (Ok [Sample.backwards]) empty_db in
   (map (fun r => (ev_start_time r, ev_end_time r, ev_duration_hours r))
        (calendar_events db'), out))
  = ([("2024-01-03T09:00:00+00:00", "2024-01-03T08:00:00+00:00", (-1)%float)],
     Returned (EventsFound 1)).
Proof. vm_compute. reflexivity. Qed.

Lemma filter_eqb_negb_eqb (key : string) (rows : list Event) :
  List.filter (fun r => String.eqb (ev_event_id r) key)
              (List.filter (fun r => negb (String.eqb (ev_event_id r) key)) rows) = [].
Proof.
  induction rows as [|x rows IH]; [reflexivity|]. simpl.
  destruct (String.eqb (ev_event_id x) key) eqn:Hx; simpl; [exact IH|].
  rewrite Hx. exact IH.
Qed.

(** C7, as the code has it. Ingesting again an event that is stored with
    the same fields replaces its row: the new row has the same calendar
    key, title, description, time stamps and duration, no cycle (whatever
    cycle the old row had), and a new rowid, larger than the old one. It
    is the one row of that key, and the rows of other keys are as before. *)
Theorem reingest_same_fields (event : CalendarEvent.EventDict) (db : DB) (r : Event) :
  stored (CalendarEvent.d_id event) db = [r] ->
  row_of event r ->
  PrimFloat.is_nan (CalendarEvent.d_duration_hours event) = false ->
  exists db' r',
    CalendarEvent.bulk_insert [event] None db = Ok db'
    /\ stored (CalendarEvent.d_id event) db' = [r']
    /\ same_fields r r'
    /\ ev_cycle_id r' = None
    /\ ev_id r < ev_id r'
    /\ (forall x, ev_event_id x <> CalendarEvent.d_id event ->
                  (x ∈ calendar_events db' <-> x ∈ calendar_events db)).
Proof.
  intros Hstored Hrow Hnan.
  destruct (insert_or_replace_Ok None db event Hnan) as [db' Hins].
  destruct (insert_or_replace_inv _ _ _ _ Hins) as (r' & Hev & Hrow' & Hc & Hid & _).
  exists db', r'. split; [|split; [|split; [|split; [exact Hc|split]]]].
  - unfold CalendarEvent.bulk_insert. simpl. rewrite Hins. reflexivity.
  - unfold stored. rewrite Hev, List.filter_app, filter_eqb_negb_eqb. simpl.
    destruct Hrow' as [-> _]. rewrite String.eqb_refl. reflexivity.
  - destruct Hrow as (H1 & H2 & H3 & H4 & H5 & H6).
    destruct Hrow' as (H1' & H2' & H3' & H4' & H5' & H6').
    unfold same_fields. repeat split; congruence.
  - apply Hid. assert (Hin : r ∈ stored (CalendarEvent.d_id event) db)
      by (rewrite Hstored; left).
    now apply elem_of_List_filter in Hin as [Hin _].
  - intros x Hx. rewrite Hev, elem_of_app, elem_of_List_filter, list_elem_of_singleton.
    split.
    + intros [[Hin _]| ->]; [assumption|]. destruct Hrow' as [Hk _]. contradiction.
    + intros Hin. left. split; [assumption|]. now apply negb_true_iff, String.eqb_neq.
Qed.

Lemma reingest_same_fields_witness :
  exists db' r',
    CalendarEvent.bulk_insert [Sample.sample_dict] None
      (set_calendar_events
         (assigned_rows [1] 1 (calendar_events Sample.db1)) 5 Sample.db1) = Ok db'
    /\ stored "a" db' = [r']
    /\ ev_cycle_id r' = None
    /\ ev_id r' = 6.
Proof.
  destruct (reingest_same_fields Sample.sample_dict
              (set_calendar_events
                 (assigned_rows [1] 1 (calendar_events Sample.db1)) 5 Sample.db1)
              (CalendarEvent.with_cycle (Some 1) Sample.e1))
    as (db' & r' & Hins & Hst & _ & Hc & _).
  - reflexivity.
  - repeat split.
  - reflexivity.
  - exists db', r'. split; [exact Hins|]. split; [exact Hst|]. split; [exact Hc|].
    revert Hins Hst. vm_compute. intros [= <-] [= <-]. reflexivity.
Defined.

(** C7, as the claim has it, fails: ingesting the same event twice leaves
    a row under another rowid, though its cycle link is null both times. *)
Lemma reingest_changes_rowid :
  (db1 ← CalendarEvent.bulk_insert [Sample.sample_dict] None empty_db;
   db2 ← CalendarEvent.bulk_insert [Sample.sample_dict] None db1;
   Ok (map (fun r => (ev_id r, ev_cycle_id r)) (calendar_events db1),
       map (fun r => (ev_id r, ev_cycle_id r)) (calendar_events db2)))
  = Ok ([(1, None)], [(2, None)]).
Proof. vm_compute. reflexivity. Qed.

(** * Selections, token by token *)









(** * More on the command [cycle assign] *)

Lemma getitem_Ok {A : Type} (l : list A) (i : Z) (x : A) :
  getitem l i = Ok x ->
  l !! Z.to_nat (if i <? 0 then i + Z.of_nat (length l) else i) = Some x
  /\ 0 <= (if i <? 0 then i + Z.of_nat (length l) else i) < Z.of_nat (length l).
Proof.
  unfold getitem. set (j := if i <? 0 then _ else _).
  destruct ((0 <=? j) && (j <? Z.of_nat (length l))) eqn:Hb; [|discriminate].
  apply andb_prop in Hb as [H0 H1]. apply Z.leb_le in H0. apply Z.ltb_lt in H1.
  destruct (l !! Z.to_nat j) as [y|]; [|discriminate]. intros [= ->]. split; [reflexivity | lia].
Qed.

Lemma getitem_elem_of {A : Type} (l : list A) (i : Z) (x : A) :
  getitem l i = Ok x -> x ∈ l.
Proof. intros [H _]%getitem_Ok. eapply list_elem_of_lookup_2, H. Qed.

(** The identifiers [cycle assign] collects: one per index, each the
    identifier of the event at that place of the list. *)
Lemma ids_at_inv (events : list Event) (indices ids : list Z) :
  ids_at events indices = Ok ids ->
  Forall2 (fun i id => exists e, getitem events (i - 1) = Ok e /\ ev_id e = id) indices ids.
Proof.
  unfold ids_at.
  enough (H : forall acc ids,
             for_each (fun ids i => e ← getitem events (i - 1); Ok (ids ++ [ev_id e])%list)
                      indices acc = Ok ids ->
             exists ids', ids = (acc ++ ids')%list
                          /\ Forall2 (fun i id => exists e, getitem events (i - 1) = Ok e
                                                            /\ ev_id e = id) indices ids').
  { intros Hrun. destruct (H [] ids Hrun) as (ids' & -> & HF). exact HF. }
  induction indices as [|i indices IH]; intros acc ids'; simpl.
  - intros [= <-]. exists []. split; [now rewrite app_nil_r | constructor].
  - destruct (getitem events (i - 1)) as [e|] eqn:He; simpl; [|discriminate].
    intros Hrun. destruct (IH _ _ Hrun) as (rest & -> & HF).
    exists (ev_id e :: rest). split; [now rewrite <- app_assoc|].
    constructor; [eauto | assumption].
Qed.

Lemma ids_at_candidates (events : list Event) (indices ids : list Z) :
  ids_at events indices = Ok ids ->
  length ids = length indices /\ forall id, id ∈ ids -> id ∈ map ev_id events.
Proof.
  intros HF%ids_at_inv. split; [symmetry; eapply Forall2_length, HF|].
  induction HF as [|i id indices ids (e & He & <-) HF IH]; intros id' Hin; [inversion Hin|].
  apply elem_of_cons in Hin as [->|Hin]; [|apply IH, Hin].
  apply list_elem_of_fmap. exists e. split; [reflexivity | eapply getitem_elem_of, He].
Qed.

(** [cycle assign] leaves the database as it is, or binds a list of
    identifiers of candidates that is not empty. *)
Lemma assign_events_not_found (DATE : string -> option string) (MAX_VARIABLE_NUMBER : nat)
    (cycle_id : Z) (selection : string) (db : DB) :
  InvoiceCycle.get cycle_id db = None ->
  assign_events DATE MAX_VARIABLE_NUMBER cycle_id selection db = (db, Exit 1 CycleNotFound).
Proof. intros H. unfold assign_events. rewrite H. reflexivity. Qed.

Lemma assign_events_inv (DATE : string -> option string) (MAX_VARIABLE_NUMBER : nat)
    (cycle_id : Z) (selection : string) (db : DB) (cycle : Cycle) :
  InvoiceCycle.get cycle_id db = Some cycle ->
  let events :=
    CalendarEvent.get_unassigned DATE (cyc_start_date cycle) (cyc_end_date cycle) db in
  (exists out, assign_events DATE MAX_VARIABLE_NUMBER cycle_id selection db = (db, out)
               /\ forall n, out <> Returned (EventsAssigned n))
  \/ exists ids,
       ids <> []
       /\ (forall id, id ∈ ids -> id ∈ map ev_id events)
       /\ assign_events DATE MAX_VARIABLE_NUMBER cycle_id selection db
          = (set_calendar_events (assigned_rows ids cycle_id (calendar_events db))
                                 (seq_calendar_events db) db,
             Returned (EventsAssigned (length ids))).
Proof.
  intros Hget events. unfold assign_events. rewrite Hget. fold events.
  destruct events as [|e0 events0] eqn:Hev;
    [left; eexists; split; [reflexivity | discriminate]|].
  rewrite <- Hev.
  assert (Hassign : forall ids : list Z,
             (forall id, id ∈ ids -> id ∈ map ev_id events) ->
             let r := match ids with
                      | [] => (db, Returned NoEventsSelected)
                      | _ :: _ =>
                          match CalendarEvent.assign_to_cycle MAX_VARIABLE_NUMBER ids cycle_id db with
                          | Ok db' => (db', Returned (EventsAssigned (length ids)))
                          | Raise e => (db, Uncaught e)
                          end
                      end in
             (exists out, r = (db, out) /\ forall n, out <> Returned (EventsAssigned n))
             \/ exists ids',
                  ids' <> []
                  /\ (forall id, id ∈ ids' -> id ∈ map ev_id events)
                  /\ r = (set_calendar_events (assigned_rows ids' cycle_id (calendar_events db))
                                              (seq_calendar_events db) db,
                          Returned (EventsAssigned (length ids')))).
  { intros [|i ids] Hids r; subst r; [left; eexists; split; [reflexivity | discriminate]|].
    destruct (CalendarEvent.assign_to_cycle _ _ _ _) as [db'|e] eqn:Ha.
    - apply assign_to_cycle_inv in Ha as ->. right. exists (i :: ids).
      repeat split; [discriminate | assumption].
    - left. eexists. split; [reflexivity | discriminate]. }
  destruct (String.eqb (lower selection) "all").
  - apply (Hassign (map ev_id events)). auto.
  - destruct (parse_selection selection (Z.of_nat (length events))) as [l|e] eqn:Hparse;
      [|left; eexists; split; [reflexivity | discriminate]].
    cbn [mbind res_bind].
    destruct (ids_at events l) as [ids|e] eqn:Hids;
      [|left; eexists; split; [reflexivity | discriminate]].
    apply (Hassign ids). apply (ids_at_candidates _ _ _ Hids).
Qed.





(** X9. With as many candidates as the engine allows variables in a
    statement, or more, the answer [all] ends [cycle assign] on an
    OperationalError that nothing catches (too many SQL variables: one
    per identifier and one for the cycle), and no event is bound. *)
Theorem assign_events_too_many
    (DATE : string -> option string) (MAX_VARIABLE_NUMBER : nat)
    (cycle_id : Z) (selection : string) (db : DB) (cycle : Cycle) :
  let events :=
    CalendarEvent.get_unassigned DATE (cyc_start_date cycle) (cyc_end_date cycle) db in
  InvoiceCycle.get cycle_id db = Some cycle ->
  lower selection = "all" ->
  events <> [] ->
  (MAX_VARIABLE_NUMBER <= length events)%nat ->
  assign_events DATE MAX_VARIABLE_NUMBER cycle_id selection db
  = (db, Uncaught OperationalError).
Proof.
  intros events Hget Hall Hne Hlen. unfold assign_events. rewrite Hget. fold events.
  destruct events as [|e0 events0] eqn:He; [congruence|].
  rewrite Hall. cbn [String.eqb Ascii.eqb Bool.eqb map].
  unfold CalendarEvent.assign_to_cycle. rewrite count_char_placeholders.
  destruct (Nat.ltb_spec MAX_VARIABLE_NUMBER (S (length (ev_id e0 :: map ev_id events0))));
    [reflexivity|].
  simpl in *. rewrite length_map in *. lia.
Qed.

Lemma assign_events_too_many_witness :
  assign_events Sample.utc_date 3 1 "ALL" Sample.db1
  = (Sample.db1, Uncaught OperationalError).
Proof.
  apply (assign_events_too_many Sample.utc_date 3 1 "ALL" Sample.db1 Sample.cycle1);
    [reflexivity | reflexivity | vm_compute; discriminate | vm_compute; lia].
Defined.

Lemma get_unassigned_nil (DATE : string -> option string) (start_date end_date : string)
    (db : DB) :
  (forall e, e ∈ calendar_events db ->
             CalendarEvent.unassigned_in_range DATE start_date end_date e = false) ->
  CalendarEvent.get_unassigned DATE start_date end_date db = [].
Proof.
  intros H. unfold CalendarEvent.get_unassigned.
  replace (List.filter _ (calendar_events db)) with (@nil Event); [reflexivity|].
  symmetry. induction (calendar_events db) as [|e l IH]; [reflexivity|]. simpl.
  rewrite (H e) by left. apply IH. intros e' He'. apply H. right. assumption.
Qed.

(** X10. After the answer [all], no event of the period is left without
    a cycle: the same command run again finds no unassigned event and
    returns before it asks anything. *)
Theorem assign_events_again_after_all
    (DATE : string -> option string) (MAX_VARIABLE_NUMBER : nat)
    (cycle_id : Z) (selection again : string) (db : DB) (cycle : Cycle) :
  let events :=
    CalendarEvent.get_unassigned DATE (cyc_start_date cycle) (cyc_end_date cycle) db in
  InvoiceCycle.get cycle_id db = Some cycle ->
  lower selection = "all" ->
  events <> [] ->
  (length events < MAX_VARIABLE_NUMBER)%nat ->
  let db' := (assign_events DATE MAX_VARIABLE_NUMBER cycle_id selection db).1 in
  CalendarEvent.get_unassigned DATE (cyc_start_date cycle) (cyc_end_date cycle) db' = []
  /\ assign_events DATE MAX_VARIABLE_NUMBER cycle_id again db'
     = (db', Returned NoUnassignedEvents).
Proof.
  intros events Hget Hall Hne Hlen db'.
  assert (Hdb' : db' = set_calendar_events
                         (assigned_rows (map ev_id events) cycle_id (calendar_events db))
                         (seq_calendar_events db) db).
  { subst db'. unfold assign_events. rewrite Hget. fold events.
    destruct events as [|e0 events0] eqn:He; [congruence|].
    rewrite Hall. cbn [String.eqb Ascii.eqb Bool.eqb map].
    rewrite assign_to_cycle_Ok by (simpl in *; rewrite length_map; lia). reflexivity. }
  assert (Hnone : CalendarEvent.get_unassigned
                    DATE (cyc_start_date cycle) (cyc_end_date cycle) db' = []).
  { apply get_unassigned_nil. intros e He. rewrite Hdb' in He. simpl in He.
    apply elem_of_assigned_rows in He as (e0 & He0 & [[_ ->]|[Hid ->]]); [reflexivity|].
    apply not_true_is_false. intros Hin. apply Hid.
    apply list_elem_of_fmap. exists e0. split; [reflexivity|].
    unfold events, CalendarEvent.get_unassigned.
    apply elem_of_order_by, elem_of_List_filter. split; assumption. }
  split; [exact Hnone|]. unfold assign_events.
  replace (InvoiceCycle.get cycle_id db') with (Some cycle) by (rewrite Hdb'; symmetry; exact Hget).
  rewrite Hnone. reflexivity.
Qed.

Lemma assign_events_again_after_all_witness :
  assign_events Sample.utc_date 999 1 "1"
                (assign_events Sample.utc_date 999 1 "all" Sample.db1).1
  = ((assign_events Sample.utc_date 999 1 "all" Sample.db1).1, Returned NoUnassignedEvents).
Proof.
  apply (assign_events_again_after_all Sample.utc_date 999 1 "all" "1" Sample.db1 Sample.cycle1);
    [reflexivity | reflexivity | vm_compute; discriminate | vm_compute; lia].
Defined.








(** * More on ingestion *)

(** ** The answer of the calendar, item by item *)

Lemma process_event_no_end acc item start :
  CalendarClient.api_start item = Some start -> CalendarClient.api_end item = None ->
  CalendarClient.process_event acc item = Raise KeyError.
Proof. intros Hs He. unfold CalendarClient.process_event. rewrite Hs, He. reflexivity. Qed.

Lemma process_events_inv (items : list CalendarClient.ApiEvent)
    (acc events : list CalendarEvent.EventDict) :
  for_each CalendarClient.process_event items acc = Ok events ->
  exists new,
    events = (acc ++ new)%list
    /\ Forall2 (fun item ev => exists start end_, timed item start end_
                                                 /\ ev = dict_of item start end_)
               (List.filter is_timed items) new.
Proof.
  revert acc. induction items as [|item items IH]; intros acc.
  - intros [= <-]. exists []. split; [now rewrite app_nil_r | constructor].
  - rewrite for_each_cons. cbn [List.filter]. unfold is_timed at 1.
    destruct (CalendarClient.api_start item) as [start|] eqn:Hs.
    + destruct (CalendarClient.api_end item) as [end_|] eqn:He.
      * rewrite (process_event_timed acc item start end_ (conj Hs He)).
        cbn [mbind res_bind].
        intros Hrun. destruct (IH _ Hrun) as (new & -> & HF).
        exists (dict_of item start end_ :: new). split; [now rewrite <- app_assoc|].
        constructor; [|exact HF]. exists start, end_. split; [split; assumption | reflexivity].
      * rewrite (process_event_no_end acc item start Hs He). discriminate.
    + rewrite (process_event_all_day acc item Hs). cbn [mbind res_bind]. apply IH.
Qed.

Lemma process_events_raise (items : list CalendarClient.ApiEvent)
    (acc : list CalendarEvent.EventDict) (e : exn) :
  for_each CalendarClient.process_event items acc = Raise e <->
  e = KeyError
  /\ exists item, item ∈ items /\ is_timed item = true /\ CalendarClient.api_end item = None.
Proof.
  revert acc. induction items as [|item items IH]; intros acc.
  - simpl. split; [discriminate | intros (_ & item & Hin & _); inversion Hin].
  - rewrite for_each_cons.
    destruct (CalendarClient.api_start item) as [start|] eqn:Hs.
    + destruct (CalendarClient.api_end item) as [end_|] eqn:He.
      * rewrite (process_event_timed acc item start end_ (conj Hs He)).
        cbn [mbind res_bind]. rewrite IH. split.
        -- intros (-> & it & Hin & Ht & Hn). split; [reflexivity|]. exists it.
           split; [right; assumption | split; assumption].
        -- intros (-> & it & Hin & Ht & Hn). split; [reflexivity|]. exists it.
           apply elem_of_cons in Hin as [->|Hin]; [congruence|]. auto.
      * rewrite (process_event_no_end acc item start Hs He). cbn [mbind res_bind]. split.
        -- intros [= <-]. split; [reflexivity|]. exists item.
           split; [left|]. split; [unfold is_timed; now rewrite Hs | assumption].
        -- intros (-> & _). reflexivity.
    + rewrite (process_event_all_day acc item Hs). cbn [mbind res_bind]. rewrite IH. split.
      * intros (-> & it & Hin & Ht & Hn). split; [reflexivity|]. exists it.
        split; [right; assumption | split; assumption].
      * intros (-> & it & Hin & Ht & Hn). split; [reflexivity|]. exists it.
        apply elem_of_cons in Hin as [->|Hin]; [|auto].
        unfold is_timed in Ht. rewrite Hs in Ht. discriminate.
Qed.

(** X13. [fetch_events] returns one dictionary for each item of the
    calendar's answer that has a [dateTime] at its start, in the order of
    the answer, with the key of the item; all-day items are passed over
    and nothing is merged or dropped otherwise. It raises when an item
    with a [dateTime] at its start has none at its end, and whatever is
    raised on the way leaves it as a plain [Exception]. *)
Theorem fetch_events_timed_in_order :
  (forall response e, CalendarClient.fetch_events response = Raise e -> e = Exception)
  /\ (forall items,
        CalendarClient.fetch_events (Ok items) = Raise Exception <->
        exists item, item ∈ items /\ is_timed item = true
                     /\ CalendarClient.api_end item = None)
  /\ (forall items events,
        CalendarClient.fetch_events (Ok items) = Ok events ->
        Forall2 (fun item ev => exists start end_, timed item start end_
                                                   /\ ev = dict_of item start end_)
                (List.filter is_timed items) events
        /\ map CalendarEvent.d_id events
           = map CalendarClient.api_id (List.filter is_timed items)).
Proof.
  split; [|split].
  - intros response e. unfold CalendarClient.fetch_events.
    destruct (_ ≫= _); [discriminate | congruence].
  - intros items. unfold CalendarClient.fetch_events. cbn [mbind res_bind].
    destruct (for_each CalendarClient.process_event items []) as [events|e] eqn:Hrun.
    + split; [discriminate|]. intros Hex.
      assert (Hr : for_each CalendarClient.process_event items [] = Raise KeyError)
        by (apply process_events_raise; split; [reflexivity | exact Hex]).
      congruence.
    + split; [|reflexivity]. intros _. now apply process_events_raise in Hrun as [_ Hex].
  - intros items events. unfold CalendarClient.fetch_events. cbn [mbind res_bind].
    destruct (for_each CalendarClient.process_event items []) as [evs|e] eqn:Hrun;
      [|discriminate].
    intros [= <-]. destruct (process_events_inv _ _ _ Hrun) as (new & -> & HF).
    simpl. split; [exact HF|].
    clear Hrun. induction HF as [|item ev its evs (s & e & _ & ->) HF IH]; [reflexivity|].
    simpl. now rewrite IH.
Qed.

(** ** Rows and calendar keys after a bulk insert *)

Lemma bulk_insert_cons (e : CalendarEvent.EventDict) (events : list CalendarEvent.EventDict)
    (c : option Z) (db : DB) :
  CalendarEvent.bulk_insert (e :: events) c db
  = (db1 ← CalendarEvent.insert_or_replace c db e; CalendarEvent.bulk_insert events c db1).
Proof. reflexivity. Qed.

(** The rows of the keys that are not in the batch are the rows of
    before. *)
Lemma bulk_insert_other_keys (events : list CalendarEvent.EventDict) (c : option Z)
    (db db' : DB) :
  CalendarEvent.bulk_insert events c db = Ok db' ->
  forall row, ev_event_id row ∉ map CalendarEvent.d_id events ->
              (row ∈ calendar_events db' <-> row ∈ calendar_events db).
Proof.
  revert db. induction events as [|e events IH]; intros db.
  - intros [= <-]. tauto.
  - rewrite bulk_insert_cons.
    destruct (CalendarEvent.insert_or_replace c db e) as [db1|] eqn:H1; [|discriminate].
    cbn [mbind res_bind]. intros Hrest row Hkey.
    destruct (insert_or_replace_inv _ _ _ _ H1) as (row1 & Hev & Hrow1 & _).
    rewrite (IH _ Hrest row) by (intros Hin; apply Hkey; right; exact Hin).
    rewrite Hev, elem_of_app, elem_of_List_filter, list_elem_of_singleton.
    assert (Hne : ev_event_id row <> CalendarEvent.d_id e) by (intros Heq; apply Hkey; rewrite Heq; left).
    split.
    + intros [[Hin _]| ->]; [assumption|]. destruct Hrow1 as [Hk _]. contradiction.
    + intros Hin. left. split; [assumption|]. now apply negb_true_iff, String.eqb_neq.
Qed.

(** The rows of the keys of the batch are rows the batch wrote. *)
Lemma bulk_insert_batch_keys (events : list CalendarEvent.EventDict) (c : option Z)
    (db db' : DB) :
  CalendarEvent.bulk_insert events c db = Ok db' ->
  forall row, row ∈ calendar_events db' ->
              ev_event_id row ∈ map CalendarEvent.d_id events ->
              exists e, e ∈ events /\ row_of e row /\ ev_cycle_id row = c.
Proof.
  revert db. induction events as [|e events IH]; intros db.
  - intros _ row _ Hin. inversion Hin.
  - rewrite bulk_insert_cons.
    destruct (CalendarEvent.insert_or_replace c db e) as [db1|] eqn:H1; [|discriminate].
    cbn [mbind res_bind]. intros Hrest row Hrow Hkey.
    destruct (decide (ev_event_id row ∈ map CalendarEvent.d_id events)) as [Hin|Hout].
    + destruct (IH _ Hrest row Hrow Hin) as (e' & He' & Hr). exists e'.
      split; [right; assumption | assumption].
    + apply (bulk_insert_other_keys _ _ _ _ Hrest row Hout) in Hrow.
      destruct (insert_or_replace_inv _ _ _ _ H1) as (row1 & Hev & Hrow1 & Hc & _).
      rewrite Hev in Hrow. apply elem_of_app in Hrow as [Hrow|Hrow].
      * apply elem_of_List_filter in Hrow as [_ Hne].
        apply negb_true_iff, String.eqb_neq in Hne.
        simpl in Hkey. apply elem_of_cons in Hkey as [Hkey|Hkey]; [congruence | contradiction].
      * apply list_elem_of_singleton in Hrow as ->. exists e.
        split; [left | split; assumption].
Qed.

(** X14. When [fetch] reports events found, their number is the number
    of timed items of the answer; every stored row that has the key of one
    of them has no cycle afterwards, also when the event was bound to a
    cycle before, so fetching a period again undoes its assignments; and
    the rows of all other keys are the rows of before. *)
Theorem fetch_again_unassigns
    (items : list CalendarClient.ApiEvent) (db db' : DB) (n : nat) :
  fetch true (Ok items) db = (db', Returned (EventsFound n)) ->
  n = length (List.filter is_timed items)
  /\ (forall row item,
         row ∈ calendar_events db' -> item ∈ items -> is_timed item = true ->
         ev_event_id row = CalendarClient.api_id item ->
         ev_cycle_id row = None)
  /\ (forall row,
         (forall item, item ∈ items -> is_timed item = true ->
                       ev_event_id row <> CalendarClient.api_id item) ->
         (row ∈ calendar_events db' <-> row ∈ calendar_events db)).
Proof.
  unfold fetch. cbn [negb].
  destruct (CalendarClient.fetch_events (Ok items)) as [events|e] eqn:Hfetch; [|discriminate].
  assert (Hids : map CalendarEvent.d_id events
                 = map CalendarClient.api_id (List.filter is_timed items)).
  { revert Hfetch. unfold CalendarClient.fetch_events. cbn [mbind res_bind].
    destruct (for_each CalendarClient.process_event items []) as [evs|] eqn:Hrun; [|discriminate].
    intros [= <-]. destruct (process_events_inv _ _ _ Hrun) as (new & -> & HF). simpl.
    clear Hrun. induction HF as [|item ev its evs (s & e & _ & ->) HF IH]; [reflexivity|].
    simpl. now rewrite IH. }
  destruct events as [|e0 events0] eqn:He; [discriminate|]. rewrite <- He in *.
  destruct (CalendarEvent.bulk_insert events None db) as [db1|] eqn:Hins; [|discriminate].
  intros [= <- <-]. split; [|split].
  - rewrite <- (length_map CalendarEvent.d_id), Hids, length_map. reflexivity.
  - intros row item Hrow Hitem Ht Hkey.
    destruct (bulk_insert_batch_keys _ _ _ _ Hins row Hrow) as (e & _ & _ & Hc); [|exact Hc].
    rewrite Hids, Hkey. apply list_elem_of_fmap. exists item. split; [reflexivity|].
    apply elem_of_List_filter. split; assumption.
  - intros row Hother. apply (bulk_insert_other_keys _ _ _ _ Hins).
    rewrite Hids. intros (item & Hk & Hin)%list_elem_of_fmap.
    apply elem_of_List_filter in Hin as [Hin Ht]. apply (Hother item Hin Ht Hk).
Qed.

Lemma fetch_again_unassigns_witness :
  map ev_cycle_id (stored "a" Sample.db2) = [Some 1]
  /\ forall row,
       row ∈ calendar_events (fetch true (Ok [Sample.first_again]) Sample.db2).1 ->
       ev_event_id row = "a" -> ev_cycle_id row = None.
Proof.
  assert (H : fetch true (Ok [Sample.first_again]) Sample.db2
              = ((fetch true (Ok [Sample.first_again]) Sample.db2).1,
                 Returned (EventsFound 1)))
    by (vm_compute; reflexivity).
  destruct (fetch_again_unassigns [Sample.first_again] Sample.db2 _ 1%nat H)
    as (_ & Hnone & _).
  split; [reflexivity|]. intros row Hrow Hkey.
  apply (Hnone row Sample.first_again Hrow); [left | reflexivity | exact Hkey].
Defined.

(** ** One row for each key of a batch *)

Lemma stored_insert_or_replace (c : option Z) (db db' : DB) (e : CalendarEvent.EventDict)
    (key : string) :
  CalendarEvent.insert_or_replace c db e = Ok db' ->
  if String.eqb (CalendarEvent.d_id e) key
  then exists row, stored key db' = [row] /\ row_of e row /\ ev_cycle_id row = c
  else stored key db' = stored key db.
Proof.
  intros (row & Hev & Hrow & Hc & _)%insert_or_replace_inv.
  unfold stored. rewrite Hev, List.filter_app. cbn [List.filter].
  destruct Hrow as (Hk & Hrest). rewrite Hk.
  destruct (String.eqb_spec (CalendarEvent.d_id e) key) as [<-|Hne].
  - exists row. rewrite filter_eqb_negb_eqb.
    split; [reflexivity|]. split; [exact (conj Hk Hrest) | exact Hc].
  - rewrite app_nil_r. clear Hev. apply String.eqb_neq in Hne.
    induction (calendar_events db) as [|x l IH]; [reflexivity|].
    simpl. destruct (String.eqb_spec (ev_event_id x) (CalendarEvent.d_id e)) as [Hx|Hx]; simpl.
    + rewrite Hx, Hne. exact IH.
    + destruct (String.eqb (ev_event_id x) key); [f_equal|]; exact IH.
Qed.

(** X15. After a bulk insert the table holds exactly one row for each
    key of the batch, whatever it held for that key before and however
    often the key is in the batch: the row has the fields of the last
    dictionary of that key and the cycle link given to the call. *)
Theorem bulk_insert_one_row_per_key
    (events : list CalendarEvent.EventDict) (c : option Z) (db db' : DB) :
  CalendarEvent.bulk_insert events c db = Ok db' ->
  forall key, key ∈ map CalendarEvent.d_id events ->
    exists row e,
      stored key db' = [row]
      /\ last (List.filter (fun e => String.eqb (CalendarEvent.d_id e) key) events) = Some e
      /\ row_of e row /\ ev_cycle_id row = c.
Proof.
  unfold CalendarEvent.bulk_insert. revert db'.
  induction events as [|e events IH] using rev_ind; intros db' Hrun key Hkey;
    [inversion Hkey|].
  rewrite for_each_app in Hrun.
  destruct (for_each (CalendarEvent.insert_or_replace c) events db) as [db1|] eqn:H1;
    [|discriminate].
  cbn [mbind res_bind for_each] in Hrun.
  destruct (CalendarEvent.insert_or_replace c db1 e) as [db2|] eqn:H2; [|discriminate].
  cbn [mbind res_bind] in Hrun. injection Hrun as <-.
  pose proof (stored_insert_or_replace c db1 db2 e key H2) as Hst.
  rewrite List.filter_app. cbn [List.filter].
  destruct (String.eqb_spec (CalendarEvent.d_id e) key) as [Heq|Hne].
  - destruct Hst as (row & Hst & Hrow & Hc). exists row, e.
    split; [exact Hst|]. split; [apply last_snoc | split; assumption].
  - rewrite app_nil_r, Hst. apply (IH db1 eq_refl).
    rewrite map_app in Hkey. apply elem_of_app in Hkey as [Hkey|Hkey]; [assumption|].
    apply list_elem_of_singleton in Hkey. congruence.
Qed.

Lemma bulk_insert_one_row_per_key_witness :
  exists db' row,
    CalendarEvent.bulk_insert [Sample.sample_dict; Sample.renamed_dict] (Some 1) Sample.db1
    = Ok db'
    /\ stored "a" db' = [row]
    /\ ev_title row = "Workshop" /\ ev_cycle_id row = Some 1.
Proof.
  assert (H : exists db',
             CalendarEvent.bulk_insert [Sample.sample_dict; Sample.renamed_dict] (Some 1)
                                       Sample.db1 = Ok db')
    by (eexists; vm_compute; reflexivity).
  destruct H as [db' H].
  destruct (bulk_insert_one_row_per_key _ _ _ _ H "a") as (row & e & Hst & Hlast & Hrow & Hc).
  - left.
  - exists db', row. split; [exact H|]. split; [exact Hst|]. split; [|exact Hc].
    injection Hlast as <-. exact (proj1 (proj2 Hrow)).
Defined.

(** * Cycles and the profile *)



Lemma lt_next_rowid (seq x : Z) (ids : list Z) : x ∈ ids -> x < Sqlite.next_rowid seq ids.
Proof. intros H. unfold Sqlite.next_rowid. pose proof (le_fold_left_max ids seq x H). lia. Qed.


(** X17. After [update_rate], [get] returns the cycle of that identifier
    with the new rate, no rate when the new rate is not a number, and
    every other cycle as before; the identifiers of the table are the
    same, and for an identifier that no cycle has nothing changes at
    all. *)
Theorem update_rate_get (cycle_id : Z) (hourly_rate : float) (db : DB) (c : Z) :
  InvoiceCycle.get c (InvoiceCycle.update_rate cycle_id hourly_rate db)
  = (if c =? cycle_id
     then InvoiceCycle.with_rate (Sqlite.bind_real hourly_rate) <$> InvoiceCycle.get c db
     else InvoiceCycle.get c db)
  /\ map cyc_id (invoice_cycles (InvoiceCycle.update_rate cycle_id hourly_rate db))
     = map cyc_id (invoice_cycles db)
  /\ (InvoiceCycle.get cycle_id db = None ->
      InvoiceCycle.update_rate cycle_id hourly_rate db = db).
Proof.
  unfold InvoiceCycle.get, InvoiceCycle.update_rate. cbn [invoice_cycles set_invoice_cycles].
  split; [|split].
  - induction (invoice_cycles db) as [|x l IH]; simpl.
    + destruct (c =? cycle_id); reflexivity.
    + destruct (Z.eqb_spec (cyc_id x) cycle_id) as [Hx|Hx]; cbn [cyc_id InvoiceCycle.with_rate].
      * destruct (Z.eqb_spec (cyc_id x) c) as [Hc|Hc].
        -- replace (c =? cycle_id) with true by (symmetry; apply Z.eqb_eq; lia). reflexivity.
        -- exact IH.
      * destruct (Z.eqb_spec (cyc_id x) c) as [Hc|Hc]; [|exact IH].
        replace (c =? cycle_id) with false by (symmetry; apply Z.eqb_neq; lia). reflexivity.
  - rewrite map_map. apply map_ext. intros x. destruct (cyc_id x =? cycle_id); reflexivity.
  - intros Hnone.
    assert (Hid : map (fun x => if cyc_id x =? cycle_id
                                then InvoiceCycle.with_rate (Sqlite.bind_real hourly_rate) x
                                else x) (invoice_cycles db) = invoice_cycles db).
    { induction (invoice_cycles db) as [|x l IH]; [reflexivity|]. simpl in *.
      destruct (cyc_id x =? cycle_id); [discriminate|]. f_equal. apply IH, Hnone. }
    rewrite Hid. destruct db; reflexivity.
Qed.

Lemma latest_None (db : DB) : UserProfile.latest db = None <-> user_profile db = [].
Proof. unfold UserProfile.latest. destruct (user_profile db); split; congruence. Qed.

(** X18. [get_or_create] twice is [get_or_create] once: the second call
    returns the profile of the first and writes nothing. On a table with a
    profile the first call writes nothing either; on an empty table it
    stores the one row of [Your Name] and [Your Address]. Cycles, events
    and invoices are never touched. *)
Theorem get_or_create_idempotent (db : DB) :
  let '(db1, profile) := UserProfile.get_or_create db in
  UserProfile.get_or_create db1 = (db1, profile)
  /\ (user_profile db <> [] -> db1 = db)
  /\ (user_profile db = [] ->
      user_profile db1 = [profile]
      /\ full_name profile = "Your Name" /\ address profile = "Your Address")
  /\ invoice_cycles db1 = invoice_cycles db
  /\ calendar_events db1 = calendar_events db
  /\ invoices db1 = invoices db.
Proof.
  unfold UserProfile.get_or_create.
  destruct (UserProfile.latest db) as [p|] eqn:Hl.
  - rewrite Hl. split; [reflexivity|]. split; [reflexivity|].
    split; [|repeat split]. intros Hnil%latest_None. congruence.
  - apply latest_None in Hl. rewrite Hl.
    split; [reflexivity|]. split; [congruence|]. repeat split.
Qed.

Lemma latest_map (g : Profile -> Profile) (db : DB) (s : Z) :
  (forall p, prof_id (g p) = prof_id p) ->
  UserProfile.latest (set_user_profile (map g (user_profile db)) s db)
  = g <$> UserProfile.latest db.
Proof.
  intros Hid. unfold UserProfile.latest. cbn [user_profile set_user_profile].
  destruct (user_profile db) as [|p rest]; [reflexivity|]. simpl. f_equal.
  revert p. induction rest as [|q rest IH]; intros p; [reflexivity|]. simpl.
  rewrite !Hid. destruct (prof_id p <? prof_id q); apply IH.
Qed.

(** What [update] has written is what [get_or_create] reads next, under
    the rowid of the profile that was there. *)
Lemma update_get_or_create (profile_data profile : Profile) (db1 : DB) :
  UserProfile.latest db1 = Some profile ->
  let db2 := UserProfile.update profile_data db1 in
  UserProfile.get_or_create db2
  = (db2, {| prof_id := prof_id profile; full_name := full_name profile_data;
             address := address profile_data;
             account_name := account_name profile_data;
             account_number := account_number profile_data;
             ifsc_code := ifsc_code profile_data;
             bank_name := bank_name profile_data;
             account_type := account_type profile_data;
             pan := pan profile_data |})
  /\ map prof_id (user_profile db2) = map prof_id (user_profile db1).
Proof.
  intros Hl. unfold UserProfile.update. rewrite Hl.
  unfold UserProfile.get_or_create.
  rewrite latest_map, Hl by (intros q; destruct (_ =? _); reflexivity).
  cbn [fmap option_fmap option_map]. rewrite Z.eqb_refl.
  split; [reflexivity|]. cbn [user_profile set_user_profile]. rewrite map_map.
  apply map_ext. intros q. destruct (_ =? _); reflexivity.
Qed.

Lemma get_or_create_latest (db : DB) :
  UserProfile.latest (UserProfile.get_or_create db).1
  = Some (UserProfile.get_or_create db).2.
Proof.
  unfold UserProfile.get_or_create. destruct (UserProfile.latest db) as [p|] eqn:Hl.
  - exact Hl.
  - apply latest_None in Hl. rewrite Hl. reflexivity.
Qed.

(** X19. The command [profile], when the update is confirmed, stores what
    was typed in the row of the profile it showed, and that is the profile
    read from then on; no row is added for it and no rowid changes. When
    the update is declined the command has still created the placeholder
    profile if there was none. *)
Theorem profile_command_stores_answers (answers : Profile) (db : DB) :
  let '(db1, before) := UserProfile.get_or_create db in
  let db2 := profile true answers db in
  UserProfile.get_or_create db2
  = (db2, {| prof_id := prof_id before; full_name := full_name answers;
             address := address answers; account_name := account_name answers;
             account_number := account_number answers;
             ifsc_code := ifsc_code answers; bank_name := bank_name answers;
             account_type := account_type answers; pan := pan answers |})
  /\ map prof_id (user_profile db2) = map prof_id (user_profile db1)
  /\ profile false answers db = db1.
Proof.
  pose proof (get_or_create_latest db) as Hl. unfold profile.
  destruct (UserProfile.get_or_create db) as [db1 before]. simpl in Hl.
  destruct (update_get_or_create
              {| prof_id := prof_id before; full_name := full_name answers;
                 address := address answers; account_name := account_name answers;
                 account_number := account_number answers;
                 ifsc_code := ifsc_code answers; bank_name := bank_name answers;
                 account_type := account_type answers; pan := pan answers |}
              before db1 Hl) as [Hget Hids].
  split; [exact Hget|]. split; [exact Hids | reflexivity].
Qed.

(** * Records of invoices *)

Lemma bind_real_inv (x y : float) : Sqlite.bind_real x = Some y -> y = x.
Proof. unfold Sqlite.bind_real. destruct (PrimFloat.is_nan x); congruence. Qed.

(** A record that [Invoice.create] has written: the table had no record of
    that number, and has the new record at its end, under a rowid above
    every rowid of the table. *)
Lemma create_inv (cycle_id : Z) (invoice_number invoice_date due_date : string)
    (total_hours hourly_rate total_amount : float) (pdf_path : string)
    (db db1 : DB) (new_id : Z) :
  Invoice.create cycle_id invoice_number invoice_date due_date total_hours hourly_rate
                 total_amount pdf_path db = Ok (db1, new_id) ->
  let row := {| inv_id := new_id; inv_cycle_id := cycle_id;
                inv_invoice_number := invoice_number; inv_invoice_date := invoice_date;
                inv_due_date := due_date; inv_total_hours := total_hours;
                inv_hourly_rate := hourly_rate; inv_total_amount := total_amount;
                inv_pdf_path := Some pdf_path |} in
  db1 = set_invoices (invoices db ++ [row]) new_id db
  /\ (forall i, i ∈ invoices db -> inv_invoice_number i <> invoice_number)
  /\ (forall i, i ∈ invoices db -> inv_id i < new_id).
Proof.
  unfold Invoice.create.
  destruct (Sqlite.bind_real total_hours) as [th|] eqn:Hth; [|discriminate].
  destruct (Sqlite.bind_real hourly_rate) as [hr|] eqn:Hhr; [|discriminate].
  destruct (Sqlite.bind_real total_amount) as [ta|] eqn:Hta; [|discriminate].
  apply bind_real_inv in Hth, Hhr, Hta. subst th hr ta.
  destruct (existsb _ (invoices db)) eqn:Hex; [discriminate|].
  intros [= <- <-]. split; [reflexivity|]. split.
  - intros i Hi Heq. apply not_true_iff_false in Hex. apply Hex.
    apply existsb_exists. exists i. split; [now apply list_elem_of_In | now apply String.eqb_eq].
  - intros i Hi. unfold Sqlite.next_rowid.
    enough (inv_id i <= fold_left Z.max (map inv_id (invoices db)) (seq_invoices db)) by lia.
    apply le_fold_left_max, list_elem_of_fmap. eauto.
Qed.

Lemma filter_number_other (number : string) (rows : list InvoiceRow) :
  (forall i, i ∈ rows -> inv_invoice_number i <> number) ->
  List.filter (fun i => String.eqb (inv_invoice_number i) number) rows = []
  /\ List.filter (fun i => negb (String.eqb (inv_invoice_number i) number)) rows = rows.
Proof.
  induction rows as [|i rows IH]; intros H; [split; reflexivity|]. simpl.
  destruct (String.eqb_spec (inv_invoice_number i) number) as [Heq|Hne].
  - destruct (H i (list_elem_of_here _ _) Heq).
  - destruct IH as [IH1 IH2]; [intros j Hj; apply H; right; exact Hj|].
    simpl. rewrite IH1, IH2. split; reflexivity.
Qed.

Lemma head_map_filter {A B : Type} (f : A -> B) (p : A -> bool) (l : list A) :
  head (map f (List.filter p l)) = f <$> List.find p l.
Proof. induction l as [|x l IH]; [reflexivity|]. simpl. destruct (p x); [reflexivity | exact IH]. Qed.

(** The record just written is the one its number finds, joined with
    its cycle. *)
Lemma get_by_number_created (row : InvoiceRow) (db : DB) (s : Z) (cycle : Cycle) :
  (forall i, i ∈ invoices db -> inv_invoice_number i <> inv_invoice_number row) ->
  InvoiceCycle.get (inv_cycle_id row) db = Some cycle ->
  Invoice.get_by_number (inv_invoice_number row) (set_invoices (invoices db ++ [row]) s db)
  = Some {| Invoice.j_invoice := row; Invoice.j_cycle_name := cyc_name cycle;
            Invoice.j_client_name := cyc_client_name cycle |}.
Proof.
  intros Hfresh Hget. unfold Invoice.get_by_number. cbn [invoices set_invoices].
  rewrite List.filter_app, (proj1 (filter_number_other _ _ Hfresh)).
  cbn [List.filter app]. rewrite String.eqb_refl.
  cbn [map concat]. rewrite app_nil_r. unfold Invoice.join_cycles.
  cbn [invoice_cycles set_invoices].
  rewrite (head_map_filter _ (fun c => cyc_id c =? inv_cycle_id row)).
  unfold InvoiceCycle.get in Hget. rewrite Hget. reflexivity.
Qed.

(** X20. An invoice that [Invoice.create] has recorded for a stored cycle
    is what [get_by_number] returns for its number, with every field as
    given and with the name and the client of the cycle; that number found
    nothing before, every other number finds what it found before, and
    the rowid of the record is above every rowid of the table. *)
Theorem invoice_create_get_by_number
    (cycle_id : Z) (invoice_number invoice_date due_date : string)
    (total_hours hourly_rate total_amount : float) (pdf_path : string)
    (db db1 : DB) (new_id : Z) (cycle : Cycle) :
  Invoice.create cycle_id invoice_number invoice_date due_date total_hours hourly_rate
                 total_amount pdf_path db = Ok (db1, new_id) ->
  InvoiceCycle.get cycle_id db = Some cycle ->
  Invoice.get_by_number invoice_number db = None
  /\ Invoice.get_by_number invoice_number db1
     = Some {| Invoice.j_invoice :=
                 {| inv_id := new_id; inv_cycle_id := cycle_id;
                    inv_invoice_number := invoice_number;
                    inv_invoice_date := invoice_date; inv_due_date := due_date;
                    inv_total_hours := total_hours; inv_hourly_rate := hourly_rate;
                    inv_total_amount := total_amount; inv_pdf_path := Some pdf_path |};
               Invoice.j_cycle_name := cyc_name cycle;
               Invoice.j_client_name := cyc_client_name cycle |}
  /\ (forall other, other <> invoice_number ->
                    Invoice.get_by_number other db1 = Invoice.get_by_number other db)
  /\ (forall i, i ∈ invoices db -> inv_id i < new_id).
Proof.
  intros (-> & Hfresh & Hlt)%create_inv Hget.
  split; [apply get_by_number_not_found, Hfresh|]. split; [|split; [|exact Hlt]].
  - apply (get_by_number_created
             {| inv_id := new_id; inv_cycle_id := cycle_id;
                inv_invoice_number := invoice_number; inv_invoice_date := invoice_date;
                inv_due_date := due_date; inv_total_hours := total_hours;
                inv_hourly_rate := hourly_rate; inv_total_amount := total_amount;
                inv_pdf_path := Some pdf_path |}); assumption.
  - intros other Hne. unfold Invoice.get_by_number. cbn [invoices set_invoices].
    rewrite List.filter_app. cbn [List.filter inv_invoice_number].
    apply not_eq_sym, String.eqb_neq in Hne. rewrite Hne, app_nil_r. reflexivity.
Qed.

Lemma invoice_create_get_by_number_witness :
  exists db1,
    Invoice.create 1 "#001" "2024-02-01" "2024-03-02" 3.75 1000 3750
                   "invoices/invoice-001-2024-02-01.pdf" Sample.db1 = Ok (db1, 1)
    /\ Invoice.get_by_number "#001" Sample.db1 = None
    /\ (Invoice.j_cycle_name <$> Invoice.get_by_number "#001" db1) = Some "January".
Proof.
  assert (H : exists db1,
             Invoice.create 1 "#001" "2024-02-01" "2024-03-02" 3.75 1000 3750
                            "invoices/invoice-001-2024-02-01.pdf" Sample.db1 = Ok (db1, 1))
    by (eexists; vm_compute; reflexivity).
  destruct H as [db1 H].
  destruct (invoice_create_get_by_number _ _ _ _ _ _ _ _ _ _ _ Sample.cycle1 H eq_refl)
    as (Hnone & Hfound & _).
  exists db1. split; [exact H|]. split; [exact Hnone|]. rewrite Hfound. reflexivity.
Defined.

(** X21. Deleting the invoice that was just recorded, with its file on
    disk, returns true, removes the file and leaves the table of invoices
    as it was before the invoice was recorded. So the next invoice number
    is again what it was: the number of a deleted last invoice is given
    out a second time. The rowid is not: the counter of the table stays
    at the rowid of the deleted record. *)
Theorem invoice_create_delete
    (cycle_id : Z) (invoice_number invoice_date due_date : string)
    (total_hours hourly_rate total_amount : float) (pdf_path : string)
    (db db1 : DB) (new_id : Z) (cycle : Cycle) (fs : files) :
  Invoice.create cycle_id invoice_number invoice_date due_date total_hours hourly_rate
                 total_amount pdf_path db = Ok (db1, new_id) ->
  InvoiceCycle.get cycle_id db = Some cycle ->
  pdf_path <> "" ->
  exists db2,
    Invoice.delete invoice_number db1 ({[ pdf_path ]} ∪ fs)
    = (db2, ({[ pdf_path ]} ∪ fs) ∖ {[ pdf_path ]}, true)
    /\ invoices db2 = invoices db
    /\ Invoice.get_next_invoice_number db2 = Invoice.get_next_invoice_number db
    /\ seq_invoices db2 = new_id
    /\ (forall i, i ∈ invoices db -> inv_id i < new_id).
Proof.
  intros (-> & Hfresh & Hlt)%create_inv Hget Hpath.
  pose proof (get_by_number_created
                {| inv_id := new_id; inv_cycle_id := cycle_id;
                   inv_invoice_number := invoice_number; inv_invoice_date := invoice_date;
                   inv_due_date := due_date; inv_total_hours := total_hours;
                   inv_hourly_rate := hourly_rate; inv_total_amount := total_amount;
                   inv_pdf_path := Some pdf_path |} db new_id cycle Hfresh Hget) as Hfound.
  cbn [inv_invoice_number] in Hfound.
  unfold Invoice.delete. rewrite Hfound. cbn [Invoice.j_invoice inv_pdf_path].
  apply String.eqb_neq in Hpath. rewrite Hpath.
  rewrite bool_decide_eq_true_2 by (apply elem_of_union; left; now apply elem_of_singleton).
  cbn [negb andb invoices set_invoices seq_invoices].
  rewrite List.filter_app, (proj2 (filter_number_other _ _ Hfresh)).
  cbn [List.filter inv_invoice_number]. rewrite String.eqb_refl. cbn [negb].
  rewrite app_nil_r, length_app. cbn [length].
  replace (0 <? length (invoices db) + 1 - length (invoices db))%nat with true
    by (symmetry; apply Nat.ltb_lt; lia).
  eexists. split; [reflexivity|]. cbn [invoices set_invoices seq_invoices].
  split; [reflexivity|]. split; [reflexivity|]. split; [reflexivity | exact Hlt].
Qed.

Lemma invoice_create_delete_witness :
  exists db1 db2,
    Invoice.create 1 "#001" "2024-02-01" "2024-03-02" 3.75 1000 3750
                   "invoices/invoice-001-2024-02-01.pdf" Sample.db1 = Ok (db1, 1)
    /\ Invoice.delete "#001" db1 ({[ "invoices/invoice-001-2024-02-01.pdf" ]} ∪ ∅)
       = (db2, ({[ "invoices/invoice-001-2024-02-01.pdf" ]} ∪ ∅)
               ∖ {[ "invoices/invoice-001-2024-02-01.pdf" ]}, true)
    /\ Invoice.get_next_invoice_number db2 = Invoice.get_next_invoice_number Sample.db1
    /\ seq_invoices db2 = 1.
Proof.
  assert (H : exists db1,
             Invoice.create 1 "#001" "2024-02-01" "2024-03-02" 3.75 1000 3750
                            "invoices/invoice-001-2024-02-01.pdf" Sample.db1 = Ok (db1, 1))
    by (eexists; vm_compute; reflexivity).
  destruct H as [db1 H].
  destruct (invoice_create_delete _ _ _ _ _ _ _ _ _ _ _ Sample.cycle1 ∅ H eq_refl)
    as (db2 & Hdel & _ & Hnext & Hseq & _); [discriminate|].
  exists db1, db2. split; [exact H|]. split; [exact Hdel|]. split; [exact Hnext | exact Hseq].
Defined.

(** ** One number after the other *)

Lemma fold_right_max_snoc (l : list Z) (x : Z) :
  0 <= x -> fold_right Z.max 0 (l ++ [x]) = Z.max (fold_right Z.max 0 l) x.
Proof. intros Hx. induction l as [|y l IH]; simpl; [lia|]. rewrite IH. lia. Qed.

(** X22. Over records whose numbers are of the pattern, the number that
    follows a recorded invoice of the generated number is the next in
    count: its numeric suffix is one more (as long as that stays within
    SQLite's 64 bits), and it is again of the pattern. *)
Theorem next_invoice_number_consecutive
    (cycle_id : Z) (invoice_date due_date : string)
    (total_hours hourly_rate total_amount : float) (pdf_path : string)
    (db db1 : DB) (new_id : Z) :
  let numbers := map inv_invoice_number (invoices db) in
  let number := Invoice.get_next_invoice_number db in
  (forall n, n ∈ numbers -> Sqlite.like_hash n = true ->
             is_hash_number n = true /\ numeric_suffix n <= Sqlite.MAX_INT64) ->
  numeric_suffix number <= Sqlite.MAX_INT64 ->
  Invoice.create cycle_id number invoice_date due_date total_hours hourly_rate
                 total_amount pdf_path db = Ok (db1, new_id) ->
  Invoice.get_next_invoice_number db1
  = String "#" (Invoice.format_03d (numeric_suffix number + 1))
  /\ numeric_suffix (Invoice.get_next_invoice_number db1) = numeric_suffix number + 1
  /\ is_hash_number (Invoice.get_next_invoice_number db1) = true.
Proof.
  intros numbers number Hpat Hmax (-> & _ & _)%create_inv.
  destruct (get_next_invoice_number_largest db Hpat) as [H0 Hnext].
  fold numbers in H0, Hnext. fold number in Hnext.
  set (largest := fold_right Z.max 0 (map numeric_suffix (List.filter is_hash_number numbers)))
    in *.
  destruct (format_03d_decimal (largest + 1)) as (Hd & Hv & Hl & _); [lia|].
  assert (Hpatn : is_hash_number number = true).
  { rewrite Hnext. destruct (Invoice.format_03d (largest + 1)) as [|c r]; [simpl in Hl; lia|].
    exact Hd. }
  assert (Hsuf : numeric_suffix number = largest + 1) by (rewrite Hnext; exact Hv).
  set (db1 := set_invoices _ new_id db).
  assert (Hnumbers : map inv_invoice_number (invoices db1) = (numbers ++ [number])%list).
  { subst db1. cbn [invoices set_invoices]. rewrite map_app. reflexivity. }
  destruct (get_next_invoice_number_largest db1) as [_ Hnext1].
  { rewrite Hnumbers. intros n [Hn|Hn]%elem_of_app Hlike; [apply Hpat; assumption|].
    apply list_elem_of_singleton in Hn as ->. split; assumption. }
  rewrite Hnumbers, List.filter_app in Hnext1. cbn [List.filter] in Hnext1.
  rewrite Hpatn, map_app in Hnext1. cbn [map] in Hnext1.
  rewrite fold_right_max_snoc in Hnext1 by lia. fold largest in Hnext1.
  replace (Z.max largest (numeric_suffix number)) with (numeric_suffix number) in Hnext1 by lia.
  destruct (format_03d_decimal (numeric_suffix number + 1)) as (Hd1 & Hv1 & Hl1 & _); [lia|].
  rewrite Hnext1. split; [reflexivity|]. split; [exact Hv1|].
  destruct (Invoice.format_03d (numeric_suffix number + 1)) as [|c r]; [simpl in Hl1; lia|].
  exact Hd1.
Qed.

Lemma next_invoice_number_consecutive_witness :
  exists db1,
    Invoice.create 1 (Invoice.get_next_invoice_number Sample.db1) "2024-02-01" "2024-03-02"
                   3.75 1000 3750 "invoices/invoice-001-2024-02-01.pdf" Sample.db1
    = Ok (db1, 1)
    /\ Invoice.get_next_invoice_number Sample.db1 = "#001"
    /\ Invoice.get_next_invoice_number db1 = "#002".
Proof.
  assert (H : exists db1,
             Invoice.create 1 (Invoice.get_next_invoice_number Sample.db1) "2024-02-01"
                            "2024-03-02" 3.75 1000 3750
                            "invoices/invoice-001-2024-02-01.pdf" Sample.db1 = Ok (db1, 1))
    by (eexists; vm_compute; reflexivity).
  destruct H as [db1 H].
  assert (Hnext : Invoice.get_next_invoice_number db1 = "#002").
  { refine (proj1 (next_invoice_number_consecutive _ _ _ _ _ _ _ _ _ _ _ _ H)).
    - intros n Hn. inversion Hn.
    - vm_compute. discriminate. }
  exists db1. split; [exact H|]. split; [reflexivity | exact Hnext].
Defined.

(** ** The command [invoices delete] *)

(** X23. The command [invoices delete] never ends on [Failed to delete]:
    an invoice that the lookup found is deleted. When the command does
    not report a deletion (no such invoice, or the confirmation declined
    without [--yes]) the database and the files are as before. When it
    does, [--yes] was given or the deletion was confirmed, no record of
    that number is left, every other invoice is kept, and no file has
    been created. *)
Theorem delete_command_outcomes (invoice_number : string) (yes confirmed : bool)
    (db : DB) (fs : files) :
  let r := Main.delete invoice_number yes confirmed db fs in
  r.2 <> Exit 1 DeleteFailed
  /\ (r.2 <> Returned InvoiceDeleted -> r.1 = (db, fs))
  /\ (r.2 = Returned InvoiceDeleted ->
      (yes = true \/ confirmed = true)
      /\ Invoice.get_by_number invoice_number db <> None
      /\ (forall i, i ∈ invoices r.1.1 <->
                    i ∈ invoices db /\ inv_invoice_number i <> invoice_number)
      /\ (forall q, q ∈ r.1.2 -> q ∈ fs)).
Proof.
  unfold Main.delete.
  destruct (Invoice.get_by_number invoice_number db) as [j|] eqn:Hget;
    [|simpl; repeat split; discriminate].
  destruct (negb yes && negb confirmed) eqn:Hask; [simpl; repeat split; discriminate|].
  unfold Invoice.delete. rewrite Hget.
  set (kept := List.filter _ (invoices db)).
  assert (Hcount : (0 <? length (invoices db) - length kept)%nat = true).
  { assert (Hj : j ∈ concat (map (Invoice.join_cycles db)
                               (List.filter
                                  (fun i => String.eqb (inv_invoice_number i) invoice_number)
                                  (invoices db)))).
    { unfold Invoice.get_by_number in Hget.
      destruct (concat _) as [|j' js]; [discriminate|]. injection Hget as ->. left. }
    apply elem_of_joined in Hj as [Hj _]. apply elem_of_List_filter in Hj as [Hin Hnum].
    apply Nat.ltb_lt. subst kept.
    enough (length (List.filter
                      (fun i => negb (String.eqb (inv_invoice_number i) invoice_number))
                      (invoices db)) < length (invoices db))%nat by lia.
    apply (filter_length_lt _ _ _ Hin). rewrite Hnum. reflexivity. }
  rewrite Hcount. cbn [fst snd invoices set_invoices].
  split; [discriminate|]. split; [intros H; destruct H; reflexivity|]. intros _.
  split; [destruct yes, confirmed; simpl in Hask; auto; discriminate|].
  split; [discriminate|]. split.
  - intros i. subst kept. rewrite elem_of_List_filter, negb_true_iff.
    split; intros [Hi Hne]; (split; [assumption|]); now apply String.eqb_neq.
  - intros q. destruct (inv_pdf_path (Invoice.j_invoice j)) as [p|]; [|auto].
    destruct (negb (String.eqb p "") && bool_decide (p ∈ fs)); [|auto].
    now intros [Hq _]%elem_of_difference.
Qed.

(** * More on the command [generate] *)

Section Generate.

Variable today : string.
Variable plus_days : string -> Z -> res string.
Variable INVOICES_DIR : string.
Variable build_document :
  string -> Cycle -> list Event -> Profile -> float -> bool -> string -> string -> res unit.
Variable compensated : bool.

(** The three ways [generate_invoice_pdf] ends: before the file is
    written, after the file and without a record, or with both. *)
Lemma generate_invoice_pdf_inv (cycle : Cycle) (events : list Event) (profile : Profile)
    (hourly_rate : float) (detailed : bool) (invoice_date : option string) (due_days : Z)
    (db : DB) (fs : files) :
  let r := PdfGenerator.generate_invoice_pdf today plus_days INVOICES_DIR build_document
             compensated cycle events profile hourly_rate detailed invoice_date due_days
             db fs in
  (exists e, r = (db, fs, Raise e))
  \/ (exists pdf_path e, r = (db, {[ pdf_path ]} ∪ fs, Raise e))
  \/ (exists pdf_path inv new_id,
        r = (set_invoices (invoices db ++ [inv]) new_id db, {[ pdf_path ]} ∪ fs, Ok pdf_path)
        /\ inv_hourly_rate inv = hourly_rate
        /\ inv_cycle_id inv = cyc_id cycle
        /\ inv_invoice_number inv = Invoice.get_next_invoice_number db
        /\ inv_pdf_path inv = Some pdf_path
        /\ inv_total_hours inv = sum compensated (map ev_duration_hours events)
        /\ inv_total_amount inv = (inv_total_hours inv * hourly_rate)%float).
Proof.
  unfold PdfGenerator.generate_invoice_pdf.
  destruct (plus_days _ due_days) as [due_date|e]; [|left; eauto].
  destruct (build_document _ _ _ _ _ _ _ _) as [[]|e]; [|left; eauto].
  destruct (Invoice.create _ _ _ _ _ _ _ _ _) as [[db1 new_id]|e] eqn:Hc;
    [|right; left; eauto].
  apply create_inv in Hc as (-> & _). right. right.
  eexists _, _, _. split; [reflexivity|]. repeat split.
Qed.

Lemma generate_rate_step (cycle_id : Z) (rate : option float) (cycle : Cycle)
    (prompted_rate : float) (db : DB) :
  match rate_or rate (cyc_hourly_rate cycle) with
  | Some r => if truthy r then (r, db)
              else (prompted_rate, InvoiceCycle.update_rate cycle_id prompted_rate db)
  | None => (prompted_rate, InvoiceCycle.update_rate cycle_id prompted_rate db)
  end
  = (rate_used rate (cyc_hourly_rate cycle) prompted_rate,
     match given rate, given (cyc_hourly_rate cycle) with
     | None, None => InvoiceCycle.update_rate cycle_id prompted_rate db
     | _, _ => db
     end).
Proof.
  unfold rate_or, rate_used, given.
  destruct rate as [r|]; [destruct (truthy r) eqn:Hr; [rewrite Hr; reflexivity|]|];
    (destruct (cyc_hourly_rate cycle) as [r'|]; [destruct (truthy r') eqn:Hr'|]; reflexivity).
Qed.

(** [generate] on a stored cycle: it stops on a cycle without events, or
    it hands the events, the profile and the rate to [generate_invoice_pdf]
    over a database that differs in the rate of the cycle and in the
    profile at most. *)
Lemma generate_inv (cycle_id : Z) (rate : option float) (detailed : bool)
    (invoice_date : option string) (due_days : Z) (prompted_rate : float)
    (answers : Profile) (db : DB) (fs : files) (cycle : Cycle) :
  InvoiceCycle.get cycle_id db = Some cycle ->
  let db0 := match given rate, given (cyc_hourly_rate cycle) with
             | None, None => InvoiceCycle.update_rate cycle_id prompted_rate db
             | _, _ => db
             end in
  let r := generate today plus_days INVOICES_DIR build_document compensated cycle_id rate
                    detailed invoice_date due_days prompted_rate answers db fs in
  (CalendarEvent.get_by_cycle cycle_id db = [] /\ r = (db0, fs, Exit 1 NoEventsAssigned))
  \/ (CalendarEvent.get_by_cycle cycle_id db <> []
      /\ exists dbp profile,
           invoice_cycles dbp = invoice_cycles db0
           /\ calendar_events dbp = calendar_events db
           /\ invoices dbp = invoices db
           /\ seq_invoices dbp = seq_invoices db
           /\ r = match PdfGenerator.generate_invoice_pdf today plus_days INVOICES_DIR
                          build_document compensated cycle
                          (CalendarEvent.get_by_cycle cycle_id db) profile
                          (rate_used rate (cyc_hourly_rate cycle) prompted_rate)
                          detailed invoice_date due_days dbp fs with
                  | (db', fs', Ok pdf_path) => (db', fs', Returned (InvoiceGenerated pdf_path))
                  | (db', fs', Raise _) => (db', fs', Exit 1 GenerateFailed)
                  end).
Proof.
  intros Hget db0 r. subst r. unfold generate. rewrite Hget, generate_rate_step. fold db0.
  assert (Hev : CalendarEvent.get_by_cycle cycle_id db0 = CalendarEvent.get_by_cycle cycle_id db).
  { subst db0. destruct (given rate), (given (cyc_hourly_rate cycle)); reflexivity. }
  assert (Hrows : calendar_events db0 = calendar_events db /\ invoices db0 = invoices db
                  /\ seq_invoices db0 = seq_invoices db).
  { subst db0. destruct (given rate), (given (cyc_hourly_rate cycle)); repeat split. }
  destruct Hrows as (Hce & Hinv & Hseq).
  rewrite Hev. destruct (CalendarEvent.get_by_cycle cycle_id db) as [|e es] eqn:Hevents;
    [left; split; reflexivity|].
  right. split; [discriminate|].
  assert (Hp : invoice_cycles (UserProfile.get_or_create db0).1 = invoice_cycles db0
               /\ calendar_events (UserProfile.get_or_create db0).1 = calendar_events db0
               /\ invoices (UserProfile.get_or_create db0).1 = invoices db0
               /\ seq_invoices (UserProfile.get_or_create db0).1 = seq_invoices db0).
  { unfold UserProfile.get_or_create. destruct (UserProfile.latest db0); repeat split. }
  destruct (UserProfile.get_or_create db0) as [db1 profile]. simpl in Hp.
  destruct Hp as (H1 & H2 & H3 & H4).
  destruct (String.eqb (full_name profile) "Your Name").
  - eexists _, _. split; [|split; [|split; [|split; [|reflexivity]]]].
    + unfold UserProfile.update. destruct (UserProfile.latest db1); simpl; assumption.
    + unfold UserProfile.update. destruct (UserProfile.latest db1); simpl; congruence.
    + unfold UserProfile.update. destruct (UserProfile.latest db1); simpl; congruence.
    + unfold UserProfile.update. destruct (UserProfile.latest db1); simpl; congruence.
  - exists db1, profile. split; [assumption|]. split; [congruence|]. split; [congruence|].
    split; [congruence | reflexivity].
Qed.

End Generate.

Lemma update_rate_ids (cycle_id : Z) (hourly_rate : float) (db : DB) :
  map cyc_id (invoice_cycles (InvoiceCycle.update_rate cycle_id hourly_rate db))
  = map cyc_id (invoice_cycles db).
Proof.
  unfold InvoiceCycle.update_rate. cbn [invoice_cycles set_invoice_cycles].
  rewrite map_map. apply map_ext. intros x. destruct (cyc_id x =? cycle_id); reflexivity.
Qed.

Lemma get_cyc_id (cycle_id : Z) (db : DB) (cycle : Cycle) :
  InvoiceCycle.get cycle_id db = Some cycle -> cyc_id cycle = cycle_id.
Proof. unfold InvoiceCycle.get. intros [_ H]%find_some. now apply Z.eqb_eq. Qed.

(** X24. Whatever its arguments and however it ends, [generate] leaves
    the events as they are, so the events of a cycle stay bound to it
    after an invoice and the cycle can be invoiced again; it removes no
    file and no cycle, and it adds one invoice record at most: none unless
    it reports the invoice generated, and then one for this cycle whose
    file is on disk. *)
Theorem generate_keeps_events
    (today : string) (plus_days : string -> Z -> res string) (INVOICES_DIR : string)
    (build_document : string -> Cycle -> list Event -> Profile -> float -> bool ->
                      string -> string -> res unit)
    (compensated : bool)
    (cycle_id : Z) (rate : option float) (detailed : bool)
    (invoice_date : option string) (due_days : Z)
    (prompted_rate : float) (answers : Profile) (db : DB) (fs : files) :
  let r := generate today plus_days INVOICES_DIR build_document compensated cycle_id rate
                    detailed invoice_date due_days prompted_rate answers db fs in
  calendar_events r.1.1 = calendar_events db
  /\ (forall c, CalendarEvent.get_by_cycle c r.1.1 = CalendarEvent.get_by_cycle c db)
  /\ map cyc_id (invoice_cycles r.1.1) = map cyc_id (invoice_cycles db)
  /\ (forall q, q ∈ fs -> q ∈ r.1.2)
  /\ (invoices r.1.1 = invoices db /\ (forall p, r.2 <> Returned (InvoiceGenerated p))
      \/ exists inv pdf_path,
           invoices r.1.1 = (invoices db ++ [inv])%list
           /\ r.2 = Returned (InvoiceGenerated pdf_path)
           /\ inv_cycle_id inv = cycle_id
           /\ inv_pdf_path inv = Some pdf_path
           /\ pdf_path ∈ r.1.2).
Proof.
  intros r.
  enough (H : calendar_events r.1.1 = calendar_events db
              /\ map cyc_id (invoice_cycles r.1.1) = map cyc_id (invoice_cycles db)
              /\ (forall q, q ∈ fs -> q ∈ r.1.2)
              /\ (invoices r.1.1 = invoices db /\ (forall p, r.2 <> Returned (InvoiceGenerated p))
                  \/ exists inv pdf_path,
                       invoices r.1.1 = (invoices db ++ [inv])%list
                       /\ r.2 = Returned (InvoiceGenerated pdf_path)
                       /\ inv_cycle_id inv = cycle_id
                       /\ inv_pdf_path inv = Some pdf_path
                       /\ pdf_path ∈ r.1.2)).
  { destruct H as (Hce & Hids & Hfs & Hinv). split; [exact Hce|]. split; [|auto].
    intros c. unfold CalendarEvent.get_by_cycle. now rewrite Hce. }
  subst r. destruct (InvoiceCycle.get cycle_id db) as [cycle|] eqn:Hget.
  2: { unfold generate. rewrite Hget. simpl.
       split; [reflexivity|]. split; [reflexivity|]. split; [auto|].
       left. split; [reflexivity | discriminate]. }
  destruct (generate_inv today plus_days INVOICES_DIR build_document compensated cycle_id rate
              detailed invoice_date due_days prompted_rate answers db fs cycle Hget)
    as [[_ ->]|(_ & dbp & profile & Hcyc & Hce & Hinv & _ & ->)].
  - simpl. split; [|split; [|split; [auto|left; split; [|discriminate]]]];
      destruct (given rate), (given (cyc_hourly_rate cycle)); try reflexivity.
    apply update_rate_ids.
  - assert (Hids : map cyc_id (invoice_cycles dbp) = map cyc_id (invoice_cycles db)).
    { rewrite Hcyc. destruct (given rate), (given (cyc_hourly_rate cycle)); try reflexivity.
      apply update_rate_ids. }
    destruct (generate_invoice_pdf_inv today plus_days INVOICES_DIR build_document compensated
                cycle (CalendarEvent.get_by_cycle cycle_id db) profile
                (rate_used rate (cyc_hourly_rate cycle) prompted_rate) detailed invoice_date
                due_days dbp fs)
      as [(e & ->)|[(pdf_path & e & ->)|(pdf_path & inv & new_id & -> & _ & Hc & _ & Hp & _)]];
      simpl.
    + split; [assumption|]. split; [assumption|]. split; [auto|].
      left. split; [assumption | discriminate].
    + split; [assumption|]. split; [assumption|].
      split; [intros q Hq; apply elem_of_union; right; exact Hq|].
      left. split; [assumption | discriminate].
    + split; [assumption|]. split; [assumption|].
      split; [intros q Hq; apply elem_of_union; right; exact Hq|].
      right. exists inv, pdf_path. rewrite Hinv. split; [reflexivity|]. split; [reflexivity|].
      split; [rewrite Hc; eapply get_cyc_id, Hget|]. split; [exact Hp|].
      apply elem_of_union. left. now apply elem_of_singleton.
Qed.

(** X25. The invoice that [generate] reports is recorded for the cycle
    under the next invoice number, with its file on disk. Its hours are
    the float sum of the durations of the events of the cycle in the order
    of their start times; its rate is the one of [--rate] when that is
    given and not 0, else the one of the cycle when that is set and not 0,
    else the one typed at the prompt; its amount is the float product of
    the two. The rate of the cycle is overwritten in this last case only,
    with the rate typed: [--rate] never changes the cycle. *)
Theorem generate_records_invoice
    (today : string) (plus_days : string -> Z -> res string) (INVOICES_DIR : string)
    (build_document : string -> Cycle -> list Event -> Profile -> float -> bool ->
                      string -> string -> res unit)
    (compensated : bool)
    (cycle_id : Z) (rate : option float) (detailed : bool)
    (invoice_date : option string) (due_days : Z)
    (prompted_rate : float) (answers : Profile) (db : DB) (fs : files)
    (cycle : Cycle) (db' : DB) (fs' : files) (pdf_path : string) :
  InvoiceCycle.get cycle_id db = Some cycle ->
  generate today plus_days INVOICES_DIR build_document compensated cycle_id rate
           detailed invoice_date due_days prompted_rate answers db fs
  = (db', fs', Returned (InvoiceGenerated pdf_path)) ->
  let events := CalendarEvent.get_by_cycle cycle_id db in
  let hourly_rate := rate_used rate (cyc_hourly_rate cycle) prompted_rate in
  events <> []
  /\ (pdf_path ∈ fs')
  /\ exists inv,
       invoices db' = (invoices db ++ [inv])%list
       /\ inv_cycle_id inv = cycle_id
       /\ inv_invoice_number inv = Invoice.get_next_invoice_number db
       /\ inv_pdf_path inv = Some pdf_path
       /\ inv_total_hours inv = sum compensated (map ev_duration_hours events)
       /\ inv_hourly_rate inv = hourly_rate
       /\ inv_total_amount inv = (inv_total_hours inv * hourly_rate)%float
       /\ invoice_cycles db'
          = invoice_cycles
              match given rate, given (cyc_hourly_rate cycle) with
              | None, None => InvoiceCycle.update_rate cycle_id prompted_rate db
              | _, _ => db
              end.
Proof.
  intros Hget Hrun events hourly_rate.
  destruct (generate_inv today plus_days INVOICES_DIR build_document compensated cycle_id rate
              detailed invoice_date due_days prompted_rate answers db fs cycle Hget)
    as [[_ Heq]|(Hne & dbp & profile & Hcyc & Hce & Hinv & _ & Heq)];
    rewrite Heq in Hrun; [discriminate|].
  destruct (generate_invoice_pdf_inv today plus_days INVOICES_DIR build_document compensated
              cycle events profile hourly_rate detailed invoice_date due_days dbp fs)
    as [(e & Hr)|[(p & e & Hr)|(p & inv & new_id & Hr & Hrate & Hc & Hnum & Hp & Hth & Hta)]];
    fold events hourly_rate in Hrun; rewrite Hr in Hrun; try discriminate.
  injection Hrun as <- <- <-. split; [exact Hne|].
  split; [apply elem_of_union; left; now apply elem_of_singleton|].
  exists inv. cbn [invoices invoice_cycles set_invoices]. rewrite Hinv, Hcyc.
  split; [reflexivity|]. split; [rewrite Hc; eapply get_cyc_id, Hget|].
  split; [rewrite Hnum, !get_next_invoice_number_numbers, Hinv; reflexivity|].
  repeat split; assumption.
Qed.

Lemma generate_records_invoice_witness :
  exists db' fs' inv,
    generate "2024-02-01" Sample.plus_days "invoices" Sample.build true 1 (Some 0%float)
             false None 30 500 Sample.answers Sample.db2 ∅
    = (db', fs', Returned (InvoiceGenerated "invoices/invoice-001-2024-02-01.pdf"))
    /\ invoices db' = [inv]
    /\ inv_invoice_number inv = "#001"
    /\ inv_total_hours inv = 3.75%float
    /\ inv_hourly_rate inv = 500%float
    /\ inv_total_amount inv = 1875%float
    /\ map cyc_hourly_rate (invoice_cycles db') = [Some 500%float].
Proof.
  assert (H : exists db' fs',
             generate "2024-02-01" Sample.plus_days "invoices" Sample.build true 1
                      (Some 0%float) false None 30 500 Sample.answers Sample.db2 ∅
             = (db', fs', Returned (InvoiceGenerated "invoices/invoice-001-2024-02-01.pdf")))
    by (eexists _, _; vm_compute; reflexivity).
  destruct H as (db' & fs' & H).
  destruct (generate_records_invoice "2024-02-01" Sample.plus_days "invoices" Sample.build true 1
              (Some 0%float) false None 30 500 Sample.answers Sample.db2 ∅ Sample.cycle1
              db' fs' _ eq_refl H)
    as (_ & _ & inv & Hinv & _ & Hnum & _ & Hth & Hhr & Hta & Hcyc).
  exists db', fs', inv. split; [exact H|]. split; [exact Hinv|].
  split; [exact Hnum|]. split; [exact Hth|]. split; [exact Hhr|].
  split; [rewrite Hta, Hth; reflexivity|]. rewrite Hcyc. reflexivity.
Defined.

(** X26. [generate_invoice_pdf] writes the file before it records the
    invoice. With a rate that is not a number (the option [--rate nan]
    gives one) the document is built and the record is refused, since
    SQLite stores such a rate as NULL in a column that is NOT NULL: the
    call raises IntegrityError, no invoice is recorded, and the file
    stays on disk under the name of the next invoice number. *)
Theorem generate_invoice_pdf_file_without_record
    (today : string) (plus_days : string -> Z -> res string) (INVOICES_DIR : string)
    (build_document : string -> Cycle -> list Event -> Profile -> float -> bool ->
                      string -> string -> res unit)
    (compensated : bool)
    (cycle : Cycle) (events : list Event) (profile : Profile) (hourly_rate : float)
    (detailed : bool) (invoice_date : option string) (due_days : Z)
    (db : DB) (fs : files) (due_date : string) :
  let date := match invoice_date with
              | Some d => if String.eqb d "" then today else d
              | None => today
              end in
  plus_days date due_days = Ok due_date ->
  (forall pdf_path,
      build_document pdf_path cycle events profile hourly_rate detailed date due_date
      = Ok tt) ->
  PrimFloat.is_nan hourly_rate = true ->
  exists pdf_path,
    PdfGenerator.generate_invoice_pdf today plus_days INVOICES_DIR build_document
      compensated cycle events profile hourly_rate detailed invoice_date due_days db fs
    = (db, {[ pdf_path ]} ∪ fs, Raise IntegrityError)
    /\ pdf_path = (INVOICES_DIR ++ "/invoice-"
                     ++ PdfGenerator.without_hash (Invoice.get_next_invoice_number db)
                     ++ "-" ++ date ++ ".pdf")%string.
Proof.
  intros date Hdue Hbuild Hnan. unfold PdfGenerator.generate_invoice_pdf. fold date.
  rewrite Hdue, Hbuild. unfold Invoice.create, Sqlite.bind_real at 2. rewrite Hnan.
  eexists. split; [|reflexivity].
  destruct (Sqlite.bind_real _); reflexivity.
Qed.

Lemma generate_invoice_pdf_file_without_record_witness :
  PrimFloat.is_nan PrimFloat.nan = true
  /\ exists pdf_path,
       PdfGenerator.generate_invoice_pdf "2024-02-01" Sample.plus_days "invoices"
         Sample.build true Sample.cycle1 [Sample.e1; Sample.e2] Sample.answers
         PrimFloat.nan false None 30 Sample.db1 ∅
       = (Sample.db1, {[ pdf_path ]} ∪ ∅, Raise IntegrityError)
       /\ pdf_path = "invoices/invoice-001-2024-02-01.pdf".
Proof.
  split; [reflexivity|].
  destruct (generate_invoice_pdf_file_without_record
              "2024-02-01" Sample.plus_days "invoices" Sample.build true Sample.cycle1
              [Sample.e1; Sample.e2] Sample.answers PrimFloat.nan false None 30
              Sample.db1 ∅ "2024-03-02")
    as (pdf_path & Hrun & Hpath); [reflexivity | reflexivity | reflexivity |].
  exists pdf_path. split; [exact Hrun|]. rewrite Hpath. reflexivity.
Defined.

(** * Logging out *)

(** X27. After [logout] the token file is no file any more, whether or
    not there was one, and every other file is kept; a second [logout]
    finds nothing to clear. From then on [is_authenticated] is false
    whatever the token held, and [fetch] exits with code 1 on the request
    to authenticate, without a call to the calendar and without a change
    to the database. *)
Theorem logout_then_fetch (TOKEN_FILE : string) (stored_credentials : res bool)
    (response : res (list CalendarClient.ApiEvent)) (db : DB) (fs : files) :
  let fs' := (logout TOKEN_FILE fs).1 in
  (TOKEN_FILE ∉ fs')
  /\ (forall q, q <> TOKEN_FILE -> (q ∈ fs' <-> q ∈ fs))
  /\ (logout TOKEN_FILE fs).2 = bool_decide (TOKEN_FILE ∈ fs)
  /\ logout TOKEN_FILE fs' = (fs', false)
  /\ Auth.is_authenticated TOKEN_FILE stored_credentials fs' = false
  /\ fetch (Auth.is_authenticated TOKEN_FILE stored_credentials fs') response db
     = (db, Exit 1 NotAuthenticated).
Proof.
  intros fs'. unfold logout in *. assert (Hout : TOKEN_FILE ∉ fs').
  { subst fs'. unfold Auth.clear_credentials.
    destruct (bool_decide_reflect (TOKEN_FILE ∈ fs)) as [Hin|Hin]; simpl; [|exact Hin].
    rewrite elem_of_difference, elem_of_singleton. tauto. }
  assert (Hno : Auth.is_authenticated TOKEN_FILE stored_credentials fs' = false).
  { unfold Auth.is_authenticated. now rewrite bool_decide_eq_false_2. }
  split; [exact Hout|]. split; [|split; [|split; [|split; [exact Hno|]]]].
  - intros q Hq. subst fs'. unfold Auth.clear_credentials.
    destruct (bool_decide (TOKEN_FILE ∈ fs)); simpl; [|tauto].
    rewrite elem_of_difference, elem_of_singleton. tauto.
  - unfold Auth.clear_credentials. destruct (bool_decide (TOKEN_FILE ∈ fs)); reflexivity.
  - unfold Auth.clear_credentials at 1. now rewrite bool_decide_eq_false_2.
  - rewrite Hno. reflexivity.
Qed.

(** * The keys of the schema *)

Section Keys.
Context {A B : Type} (key : A -> B).

Lemma NoDup_key_snoc (rows : list A) (row : A) :
  NoDup (map key rows) -> key row ∉ map key rows -> NoDup (map key (rows ++ [row])).
Proof.
  intros Hnd Hnew. rewrite map_app. apply NoDup_app. split; [exact Hnd|].
  split; [|apply NoDup_singleton].
  intros k Hk Hin. apply list_elem_of_singleton in Hin as ->. contradiction.
Qed.

Lemma NoDup_key_filter (keep : A -> bool) (rows : list A) :
  NoDup (map key rows) -> NoDup (map key (List.filter keep rows)).
Proof.
  induction rows as [|x rows IH]; simpl; [auto|]. intros [Hx Hnd]%NoDup_cons.
  destruct (keep x); simpl; [|auto]. apply NoDup_cons. split; [|auto].
  intros (y & Hy & Hin)%list_elem_of_fmap. apply Hx. rewrite Hy.
  apply list_elem_of_fmap. exists y. split; [reflexivity|].
  now apply elem_of_List_filter in Hin as [Hin _].
Qed.

Lemma map_key_map (g : A -> A) (rows : list A) :
  (forall x, key (g x) = key x) -> map key (map g rows) = map key rows.
Proof. intros Hg. rewrite map_map. apply map_ext, Hg. Qed.

End Keys.

Lemma keys_unique_empty_db : keys_unique empty_db.
Proof. repeat split; constructor. Qed.

Lemma next_rowid_fresh (seq : Z) (ids : list Z) : Sqlite.next_rowid seq ids ∉ ids.
Proof. intros Hin. pose proof (lt_next_rowid seq _ _ Hin). lia. Qed.

Lemma keys_unique_create_cycle (name start_date end_date : string)
    (hourly_rate : option float) (client_name client_address client_gstin : option string)
    (db : DB) :
  keys_unique db ->
  keys_unique (InvoiceCycle.create name start_date end_date hourly_rate client_name
                                   client_address client_gstin db).1.
Proof.
  intros (H1 & H2 & H3 & H4 & H5 & H6). unfold InvoiceCycle.create. simpl.
  repeat split; try assumption.
  apply NoDup_key_snoc; [assumption | apply next_rowid_fresh].
Qed.

Lemma keys_unique_update_rate (cycle_id : Z) (hourly_rate : float) (db : DB) :
  keys_unique db -> keys_unique (InvoiceCycle.update_rate cycle_id hourly_rate db).
Proof.
  intros (H1 & H2 & H3 & H4 & H5 & H6). unfold keys_unique.
  rewrite update_rate_ids. repeat split; assumption.
Qed.

Lemma keys_unique_insert_or_replace (c : option Z) (db db' : DB)
    (event : CalendarEvent.EventDict) :
  CalendarEvent.insert_or_replace c db event = Ok db' -> keys_unique db -> keys_unique db'.
Proof.
  unfold CalendarEvent.insert_or_replace.
  destruct (Sqlite.bind_real _) as [duration|]; [|discriminate].
  intros [= <-] (H1 & H2 & H3 & H4 & H5 & H6). unfold keys_unique. simpl.
  split; [assumption|]. split; [|split; [|repeat split; assumption]].
  - apply NoDup_key_snoc; [apply NoDup_key_filter, H2|]. simpl.
    intros (x & Hx & Hin)%list_elem_of_fmap. apply elem_of_List_filter in Hin as [Hin _].
    apply (next_rowid_fresh (seq_calendar_events db) (map ev_id (calendar_events db))).
    rewrite Hx. apply list_elem_of_fmap. eauto.
  - apply NoDup_key_snoc; [apply NoDup_key_filter, H3|]. simpl.
    intros (x & Hx & Hin)%list_elem_of_fmap. apply elem_of_List_filter in Hin as [_ Hne].
    apply negb_true_iff, String.eqb_neq in Hne. congruence.
Qed.

Lemma keys_unique_bulk_insert (events : list CalendarEvent.EventDict) (c : option Z)
    (db db' : DB) :
  CalendarEvent.bulk_insert events c db = Ok db' -> keys_unique db -> keys_unique db'.
Proof.
  revert db. induction events as [|e events IH]; intros db.
  - intros [= <-]. auto.
  - rewrite bulk_insert_cons.
    destruct (CalendarEvent.insert_or_replace c db e) as [db1|] eqn:H1; [|discriminate].
    cbn [mbind res_bind]. intros Hrest Hk. apply (IH _ Hrest).
    eapply keys_unique_insert_or_replace; eassumption.
Qed.

Lemma keys_unique_assigned (ids : list Z) (cycle_id : Z) (db : DB) :
  keys_unique db ->
  keys_unique (set_calendar_events (assigned_rows ids cycle_id (calendar_events db))
                                   (seq_calendar_events db) db).
Proof.
  intros (H1 & H2 & H3 & H4 & H5 & H6). unfold keys_unique, assigned_rows. simpl.
  rewrite (map_key_map ev_id), (map_key_map ev_event_id)
    by (intros x; destruct (bool_decide _); reflexivity).
  repeat split; assumption.
Qed.

Lemma keys_unique_create_invoice (cycle_id : Z) (invoice_number invoice_date due_date : string)
    (total_hours hourly_rate total_amount : float) (pdf_path : string)
    (db db1 : DB) (new_id : Z) :
  Invoice.create cycle_id invoice_number invoice_date due_date total_hours hourly_rate
                 total_amount pdf_path db = Ok (db1, new_id) ->
  keys_unique db -> keys_unique db1.
Proof.
  intros Hc (H1 & H2 & H3 & H4 & H5 & H6).
  pose proof Hc as (-> & Hfresh & Hlt)%create_inv. unfold keys_unique. simpl.
  repeat split; try assumption.
  - apply NoDup_key_snoc; [assumption|]. simpl.
    intros (i & Hi & Hin)%list_elem_of_fmap. specialize (Hlt i Hin). lia.
  - apply NoDup_key_snoc; [assumption|]. simpl.
    intros (i & Hi & Hin)%list_elem_of_fmap. apply (Hfresh i Hin). congruence.
Qed.

Lemma keys_unique_delete_invoice (invoice_number : string) (db : DB) (fs : files) :
  keys_unique db -> keys_unique (Invoice.delete invoice_number db fs).1.1.
Proof.
  intros Hk. unfold Invoice.delete.
  destruct (Invoice.get_by_number invoice_number db); [|exact Hk].
  destruct Hk as (H1 & H2 & H3 & H4 & H5 & H6). unfold keys_unique. simpl.
  repeat split; try assumption; apply NoDup_key_filter; assumption.
Qed.

Lemma keys_unique_get_or_create (db : DB) :
  keys_unique db -> keys_unique (UserProfile.get_or_create db).1.
Proof.
  intros Hk. unfold UserProfile.get_or_create.
  destruct (UserProfile.latest db); [exact Hk|].
  destruct Hk as (H1 & H2 & H3 & H4 & H5 & H6). unfold keys_unique. simpl.
  repeat split; try assumption.
  apply NoDup_key_snoc; [assumption | apply next_rowid_fresh].
Qed.

Lemma keys_unique_update_profile (profile_data : Profile) (db : DB) :
  keys_unique db -> keys_unique (UserProfile.update profile_data db).
Proof.
  intros Hk. unfold UserProfile.update. destruct (UserProfile.latest db); [|exact Hk].
  destruct Hk as (H1 & H2 & H3 & H4 & H5 & H6). unfold keys_unique. simpl.
  rewrite (map_key_map prof_id) by (intros x; destruct (_ =? _); reflexivity).
  repeat split; assumption.
Qed.

Lemma keys_unique_generate_invoice_pdf
    (today : string) (plus_days : string -> Z -> res string) (INVOICES_DIR : string)
    (build_document : string -> Cycle -> list Event -> Profile -> float -> bool ->
                      string -> string -> res unit)
    (compensated : bool)
    (cycle : Cycle) (events : list Event) (profile : Profile) (hourly_rate : float)
    (detailed : bool) (invoice_date : option string) (due_days : Z)
    (db : DB) (fs : files) :
  keys_unique db ->
  keys_unique (PdfGenerator.generate_invoice_pdf today plus_days INVOICES_DIR build_document
                 compensated cycle events profile hourly_rate detailed invoice_date
                 due_days db fs).1.1.
Proof.
  intros Hk. unfold PdfGenerator.generate_invoice_pdf.
  destruct (plus_days _ due_days) as [due_date|e]; [|exact Hk].
  destruct (build_document _ _ _ _ _ _ _ _) as [[]|e]; [|exact Hk].
  destruct (Invoice.create _ _ _ _ _ _ _ _ _) as [[db1 new_id]|e] eqn:Hc; [|exact Hk].
  simpl. eapply keys_unique_create_invoice; eassumption.
Qed.

(** X28. Every command keeps the keys of the schema unique. Over a
    database in which no rowid, no calendar key and no invoice number is
    there twice, [fetch], [cycle assign], [generate], [invoices delete],
    [profile] and the creation of a cycle end on such a database again,
    whatever their arguments and however they end. The empty database is
    one, so the uniqueness that properties above assume holds for every
    database the commands make of it. *)
Theorem commands_keep_keys_unique (db : DB) :
  keys_unique db ->
  (forall authenticated response, keys_unique (fetch authenticated response db).1)
  /\ (forall DATE MAX_VARIABLE_NUMBER cycle_id selection,
         keys_unique (assign_events DATE MAX_VARIABLE_NUMBER cycle_id selection db).1)
  /\ (forall today plus_days INVOICES_DIR build_document compensated cycle_id rate detailed
             invoice_date due_days prompted_rate answers fs,
         keys_unique (generate today plus_days INVOICES_DIR build_document compensated
                               cycle_id rate detailed invoice_date due_days prompted_rate
                               answers db fs).1.1)
  /\ (forall invoice_number yes confirmed fs,
         keys_unique (Main.delete invoice_number yes confirmed db fs).1.1)
  /\ (forall update answers, keys_unique (profile update answers db))
  /\ (forall name start_date end_date hourly_rate client_name client_address client_gstin,
         keys_unique (InvoiceCycle.create name start_date end_date hourly_rate client_name
                                          client_address client_gstin db).1).
Proof.
  intros Hk. split; [|split; [|split; [|split; [|split]]]].
  - intros authenticated response. unfold fetch.
    destruct (negb authenticated); [exact Hk|].
    destruct (CalendarClient.fetch_events response) as [[|e0 events0]|e]; try exact Hk.
    destruct (CalendarEvent.bulk_insert _ None db) as [db'|e] eqn:Hins; [|exact Hk].
    simpl. eapply keys_unique_bulk_insert; eassumption.
  - intros DATE MAX_VARIABLE_NUMBER cycle_id selection.
    destruct (InvoiceCycle.get cycle_id db) as [cycle|] eqn:Hget;
      [|rewrite (assign_events_not_found _ _ _ _ _ Hget); exact Hk].
    destruct (assign_events_inv DATE MAX_VARIABLE_NUMBER cycle_id selection db cycle Hget)
      as [(out & -> & _)|(ids & _ & _ & ->)]; [exact Hk|].
    simpl. apply keys_unique_assigned, Hk.
  - intros today plus_days INVOICES_DIR build_document compensated cycle_id rate detailed
           invoice_date due_days prompted_rate answers fs.
    unfold generate. destruct (InvoiceCycle.get cycle_id db) as [cycle|]; [|exact Hk].
    rewrite generate_rate_step.
    set (db0 := match given rate, given (cyc_hourly_rate cycle) with
                | None, None => InvoiceCycle.update_rate cycle_id prompted_rate db
                | _, _ => db
                end).
    assert (Hk0 : keys_unique db0).
    { subst db0. destruct (given rate), (given (cyc_hourly_rate cycle)); try exact Hk.
      apply keys_unique_update_rate, Hk. }
    destruct (CalendarEvent.get_by_cycle cycle_id db0) as [|e es]; [exact Hk0|].
    pose proof (keys_unique_get_or_create db0 Hk0) as Hk1.
    destruct (UserProfile.get_or_create db0) as [db1 before]. simpl in Hk1.
    destruct (String.eqb (full_name before) "Your Name").
    + match goal with
      | |- context [PdfGenerator.generate_invoice_pdf ?a ?b ?c ?d ?e ?f ?g ?h ?i ?j ?k ?l ?m ?n] =>
          pose proof (keys_unique_generate_invoice_pdf a b c d e f g h i j k l m n
                        (keys_unique_update_profile _ _ Hk1)) as Hk2;
          destruct (PdfGenerator.generate_invoice_pdf a b c d e f g h i j k l m n)
            as [[db2 fs2] [pdf_path|e']]; exact Hk2
      end.
    + match goal with
      | |- context [PdfGenerator.generate_invoice_pdf ?a ?b ?c ?d ?e ?f ?g ?h ?i ?j ?k ?l ?m ?n] =>
          pose proof (keys_unique_generate_invoice_pdf a b c d e f g h i j k l m n Hk1) as Hk2;
          destruct (PdfGenerator.generate_invoice_pdf a b c d e f g h i j k l m n)
            as [[db2 fs2] [pdf_path|e']]; exact Hk2
      end.
  - intros invoice_number yes confirmed fs. unfold Main.delete.
    destruct (Invoice.get_by_number invoice_number db); [|exact Hk].
    destruct (negb yes && negb confirmed); [exact Hk|].
    pose proof (keys_unique_delete_invoice invoice_number db fs Hk) as Hd.
    destruct (Invoice.delete invoice_number db fs) as [[db' fs'] deleted].
    destruct deleted; exact Hd.
  - intros update answers. unfold profile.
    pose proof (keys_unique_get_or_create db Hk) as Hk1.
    destruct (UserProfile.get_or_create db) as [db1 before]. simpl in Hk1.
    destruct update; [apply keys_unique_update_profile, Hk1 | exact Hk1].
  - intros. apply keys_unique_create_cycle, Hk.
Qed.

Lemma commands_keep_keys_unique_witness :
  keys_unique Sample.db1
  /\ keys_unique (fetch true (Ok [Sample.first_again; Sample.fifty_minutes]) Sample.db1).1
  /\ keys_unique (assign_events Sample.utc_date 999 1 "1,3" Sample.db1).1.
Proof.
  assert (Hk : keys_unique Sample.db1).
  { repeat split; apply (bool_decide_unpack _); vm_compute; exact I. }
  destruct (commands_keep_keys_unique Sample.db1 Hk) as (Hfetch & Hassign & _).
  split; [exact Hk|]. split; [apply Hfetch | apply Hassign].
Defined.

(** ** The profile that [generate] asks for *)

(** The profile table and its counter are all that the profile is read
    from and written to. *)
Lemma get_or_create_profiles (d d' : DB) :
  user_profile d = user_profile d' -> seq_user_profile d = seq_user_profile d' ->
  user_profile (UserProfile.get_or_create d).1 = user_profile (UserProfile.get_or_create d').1
  /\ seq_user_profile (UserProfile.get_or_create d).1
     = seq_user_profile (UserProfile.get_or_create d').1
  /\ (UserProfile.get_or_create d).2 = (UserProfile.get_or_create d').2.
Proof.
  intros Hp Hs. unfold UserProfile.get_or_create, UserProfile.latest. rewrite Hp, Hs.
  destruct (user_profile d') as [|p rest] eqn:Hd'; simpl; [repeat split|].
  split; [congruence|]. split; [assumption | reflexivity].
Qed.

Lemma update_profiles (profile_data : Profile) (d d' : DB) :
  user_profile d = user_profile d' ->
  user_profile (UserProfile.update profile_data d)
  = user_profile (UserProfile.update profile_data d').
Proof.
  intros Hp. unfold UserProfile.update, UserProfile.latest. rewrite Hp.
  destruct (user_profile d') as [|p rest] eqn:Hd'; simpl; [congruence | reflexivity].
Qed.

Lemma generate_invoice_pdf_profiles
    (today : string) (plus_days : string -> Z -> res string) (INVOICES_DIR : string)
    (build_document : string -> Cycle -> list Event -> Profile -> float -> bool ->
                      string -> string -> res unit)
    (compensated : bool)
    (cycle : Cycle) (events : list Event) (profile : Profile) (hourly_rate : float)
    (detailed : bool) (invoice_date : option string) (due_days : Z)
    (db : DB) (fs : files) :
  user_profile (PdfGenerator.generate_invoice_pdf today plus_days INVOICES_DIR build_document
                  compensated cycle events profile hourly_rate detailed invoice_date
                  due_days db fs).1.1
  = user_profile db.
Proof.
  destruct (generate_invoice_pdf_inv today plus_days INVOICES_DIR build_document compensated
              cycle events profile hourly_rate detailed invoice_date due_days db fs)
    as [(e & ->)|[(pdf_path & e & ->)|(pdf_path & inv & new_id & -> & _)]]; reflexivity.
Qed.

(** X29. On a cycle with events [generate] reads the profile, and creates
    the placeholder when there is none, before it generates. When the name
    of that profile is [Your Name], it stores what is typed for it in that
    row, and what was typed is the profile from then on, also when the
    generation fails afterwards. A profile of another name is not written
    by [generate]. *)
Theorem generate_stores_profile
    (today : string) (plus_days : string -> Z -> res string) (INVOICES_DIR : string)
    (build_document : string -> Cycle -> list Event -> Profile -> float -> bool ->
                      string -> string -> res unit)
    (compensated : bool)
    (cycle_id : Z) (rate : option float) (detailed : bool)
    (invoice_date : option string) (due_days : Z)
    (prompted_rate : float) (answers : Profile) (db : DB) (fs : files) (cycle : Cycle) :
  InvoiceCycle.get cycle_id db = Some cycle ->
  CalendarEvent.get_by_cycle cycle_id db <> [] ->
  let '(db1, before) := UserProfile.get_or_create db in
  let typed := {| prof_id := prof_id before; full_name := full_name answers;
                  address := address answers; account_name := account_name answers;
                  account_number := account_number answers;
                  ifsc_code := ifsc_code answers; bank_name := bank_name answers;
                  account_type := account_type answers; pan := pan answers |} in
  let db' := (generate today plus_days INVOICES_DIR build_document compensated cycle_id rate
                       detailed invoice_date due_days prompted_rate answers db fs).1.1 in
  if String.eqb (full_name before) "Your Name"
  then user_profile db' = user_profile (UserProfile.update typed db1)
       /\ (UserProfile.get_or_create db').2 = typed
  else user_profile db' = user_profile db1
       /\ (UserProfile.get_or_create db').2 = before.
Proof.
  intros Hget Hne. unfold generate. rewrite Hget, generate_rate_step.
  set (db0 := match given rate, given (cyc_hourly_rate cycle) with
              | None, None => InvoiceCycle.update_rate cycle_id prompted_rate db
              | _, _ => db
              end).
  assert (H0 : user_profile db0 = user_profile db /\ seq_user_profile db0 = seq_user_profile db
               /\ CalendarEvent.get_by_cycle cycle_id db0 = CalendarEvent.get_by_cycle cycle_id db).
  { subst db0. destruct (given rate), (given (cyc_hourly_rate cycle)); repeat split. }
  destruct H0 as (Hp & Hs & Hev). rewrite Hev.
  destruct (CalendarEvent.get_by_cycle cycle_id db) as [|e es]; [congruence|].
  destruct (get_or_create_profiles db0 db Hp Hs) as (Hp1 & Hs1 & Hb).
  pose proof (get_or_create_latest db) as Hl.
  destruct (UserProfile.get_or_create db) as [db1 before].
  destruct (UserProfile.get_or_create db0) as [db01 before0].
  simpl in Hp1, Hs1, Hb, Hl. subst before0.
  assert (Hread : forall d typed,
             UserProfile.latest d = Some typed -> (UserProfile.get_or_create d).2 = typed).
  { intros d typed Hd. unfold UserProfile.get_or_create. rewrite Hd. reflexivity. }
  assert (Hlatest : forall d d', user_profile d = user_profile d' ->
                                 UserProfile.latest d = UserProfile.latest d').
  { intros d d' Hd. unfold UserProfile.latest. rewrite Hd. reflexivity. }
  destruct (String.eqb (full_name before) "Your Name").
  - match goal with
    | |- context [PdfGenerator.generate_invoice_pdf ?a ?b ?c ?d ?e ?f ?g ?h ?i ?j ?k ?l ?m ?n] =>
        pose proof (generate_invoice_pdf_profiles a b c d e f g h i j k l m n) as Hk;
        destruct (PdfGenerator.generate_invoice_pdf a b c d e f g h i j k l m n)
          as [[db2 fs2] [pdf_path|e']]
    end; simpl in Hk |- *;
      (assert (Hup : user_profile db2
                     = user_profile
                         (UserProfile.update
                            {| prof_id := prof_id before; full_name := full_name answers;
                               address := address answers;
                               account_name := account_name answers;
                               account_number := account_number answers;
                               ifsc_code := ifsc_code answers;
                               bank_name := bank_name answers;
                               account_type := account_type answers; pan := pan answers |}
                            db1))
         by (rewrite Hk; apply update_profiles, Hp1));
      (split; [exact Hup|]);
      apply Hread; rewrite (Hlatest _ _ Hup);
      destruct (update_get_or_create
                  {| prof_id := prof_id before; full_name := full_name answers;
                     address := address answers; account_name := account_name answers;
                     account_number := account_number answers;
                     ifsc_code := ifsc_code answers; bank_name := bank_name answers;
                     account_type := account_type answers; pan := pan answers |}
                  before db1 Hl) as [Hg _];
      match type of Hg with
      | UserProfile.get_or_create ?d = _ =>
          pose proof (get_or_create_latest d) as Hd; rewrite Hg in Hd; exact Hd
      end.
  - match goal with
    | |- context [PdfGenerator.generate_invoice_pdf ?a ?b ?c ?d ?e ?f ?g ?h ?i ?j ?k ?l ?m ?n] =>
        pose proof (generate_invoice_pdf_profiles a b c d e f g h i j k l m n) as Hk;
        destruct (PdfGenerator.generate_invoice_pdf a b c d e f g h i j k l m n)
          as [[db2 fs2] [pdf_path|e']]
    end; simpl in Hk |- *;
      (assert (Hup : user_profile db2 = user_profile db1) by congruence);
      (split; [exact Hup|]); apply Hread; rewrite (Hlatest _ _ Hup); exact Hl.
Qed.

Lemma generate_stores_profile_witness :
  user_profile (set_user_profile [] 0 Sample.db2) = []
  /\ (generate "2024-02-01" Sample.plus_days "invoices" Sample.build true 1
               (Some 1000%float) false (Some "tomorrow") 30 500 Sample.answers
               (set_user_profile [] 0 Sample.db2) ∅).2
     = Exit 1 GenerateFailed
  /\ full_name
       (UserProfile.get_or_create
          (generate "2024-02-01" Sample.plus_days "invoices" Sample.build true 1
                    (Some 1000%float) false (Some "tomorrow") 30 500 Sample.answers
                    (set_user_profile [] 0 Sample.db2) ∅).1.1).2
     = "A. Worker".
Proof.
  split; [reflexivity|]. split; [vm_compute; reflexivity|].
  assert (Hne : CalendarEvent.get_by_cycle 1 (set_user_profile [] 0 Sample.db2) <> [])
    by (vm_compute; discriminate).
  pose proof (generate_stores_profile
                "2024-02-01" Sample.plus_days "invoices" Sample.build true 1
                (Some 1000%float) false (Some "tomorrow") 30 500 Sample.answers
                (set_user_profile [] 0 Sample.db2) ∅ Sample.cycle1 eq_refl Hne) as H.
  hnf in H. destruct H as [_ H]. rewrite H. reflexivity.
Defined.

(** * Durations are numbers *)

(** A float is a number when its binary64 value is none of the NaNs. *)
Lemma is_nan_Prim2SF (x : float) :
  PrimFloat.is_nan x = false <-> Prim2SF x <> S754_nan.
Proof.
  unfold Prim2SF. destruct (PrimFloat.is_nan x); [split; congruence|].
  split; [intros _|reflexivity].
  destruct (PrimFloat.is_zero x); [discriminate|].
  destruct (PrimFloat.is_infinity x); [discriminate|].
  destruct (FloatOps.Z.frexp x) as [r exp].
  destruct (shr_fexp prec emax _ _ _) as [shr e'].
  destruct (shr_m shr); discriminate.
Qed.

Lemma shr_1_nonneg (mrs : shr_record) : 0 <= shr_m mrs -> 0 <= shr_m (shr_1 mrs).
Proof.
  destruct mrs as [m r s]. simpl. destruct m as [|[p|p|]|[p|p|]]; simpl; lia.
Qed.

Lemma iter_pos_shr_1_nonneg (p : positive) (mrs : shr_record) :
  0 <= shr_m mrs -> 0 <= shr_m (SpecFloat.iter_pos shr_1 p mrs).
Proof.
  revert mrs. induction p as [p IH|p IH|]; intros mrs H; simpl.
  - apply IH, IH, shr_1_nonneg, H.
  - apply IH, IH, H.
  - apply shr_1_nonneg, H.
Qed.

Lemma shr_fexp_nonneg (m e : Z) (l : location) :
  0 <= m -> 0 <= shr_m (shr_fexp prec emax m e l).1.
Proof.
  intros Hm. unfold shr_fexp, shr.
  assert (H0 : 0 <= shr_m (shr_record_of_loc m l)) by (destruct l as [|[]]; exact Hm).
  destruct (fexp prec emax (Zdigits2 m + e) - e); simpl; try exact H0.
  apply iter_pos_shr_1_nonneg, H0.
Qed.

Lemma round_nearest_even_nonneg (m : Z) (l : location) :
  0 <= m -> 0 <= round_nearest_even m l.
Proof. intros Hm. destruct l as [|[]]; simpl; try lia. destruct (Z.even m); lia. Qed.

(** Rounding a mantissa that is not negative gives a number. *)
Lemma binary_round_aux_number (sx : bool) (mx ex : Z) (lx : location) :
  0 <= mx -> binary_round_aux prec emax sx mx ex lx <> S754_nan.
Proof.
  intros Hm. unfold binary_round_aux.
  pose proof (shr_fexp_nonneg mx ex lx Hm) as H1.
  destruct (shr_fexp prec emax mx ex lx) as [mrs' e']. simpl in H1.
  pose proof (shr_fexp_nonneg (round_nearest_even (shr_m mrs') (loc_of_shr_record mrs')) e'
                loc_Exact (round_nearest_even_nonneg _ _ H1)) as H2.
  destruct (shr_fexp prec emax _ e' loc_Exact) as [mrs'' e'']. simpl in H2.
  destruct (shr_m mrs'') as [|m|m]; [discriminate | | lia].
  destruct (e'' <=? emax - prec); discriminate.
Qed.

Lemma binary_normalize_number (m e : Z) (szero : bool) :
  binary_normalize prec emax m e szero <> S754_nan.
Proof.
  unfold binary_normalize, binary_round. destruct m as [|m|m]; [discriminate | |];
    destruct (shl_align _ _ _) as [mz ez]; apply binary_round_aux_number; lia.
Qed.

Lemma float_of_int_number (n : Z) : PrimFloat.is_nan (float_of_int n) = false.
Proof.
  apply is_nan_Prim2SF. unfold float_of_int. destruct (n <? 0).
  - rewrite FloatAxioms.opp_spec, FloatAxioms.of_uint63_spec.
    pose proof (binary_normalize_number (Uint63.to_Z (Uint63.of_Z (- n))) 0 false) as H.
    destruct (binary_normalize _ _ _ _ _); simpl; congruence.
  - rewrite FloatAxioms.of_uint63_spec. apply binary_normalize_number.
Qed.

(** A number divided by a finite float that is not 0 is a number. *)
Lemma div_number (x y : float) (s : bool) (m : positive) (e : Z) :
  PrimFloat.is_nan x = false -> Prim2SF y = S754_finite s m e ->
  PrimFloat.is_nan (x / y) = false.
Proof.
  intros Hx%is_nan_Prim2SF Hy. apply is_nan_Prim2SF. rewrite FloatAxioms.div_spec, Hy.
  unfold SF64div, SFdiv. destruct (Prim2SF x) as [sx|sx| |sx mx ex]; try discriminate;
    [congruence|].
  unfold SFdiv_core_binary.
  set (m' := match _ - _ - _ with Z0 => Z.pos mx | Z.pos _ => _ | Z.neg _ => 0 end).
  assert (Hm' : 0 <= m').
  { subst m'. destruct (_ - _ - _); [lia | apply Z.shiftl_nonneg; lia | lia]. }
  pose proof (Z.div_pos m' (Z.pos m) Hm' ltac:(lia)) as Hq. unfold Z.div in Hq.
  destruct (Z.div_eucl m' (Z.pos m)) as [q r]. simpl in Hq.
  apply binary_round_aux_number, Hq.
Qed.

Lemma hours_between_number (start end_ : CalendarClient.DateTime) :
  PrimFloat.is_nan (CalendarClient.hours_between start end_) = false.
Proof.
  unfold CalendarClient.hours_between, int_truediv.
  eapply div_number; [|vm_compute; reflexivity].
  eapply div_number; [apply float_of_int_number | vm_compute; reflexivity].
Qed.

Lemma round2_number (x : float) :
  PrimFloat.is_nan x = false -> PrimFloat.is_nan (round2 x) = false.
Proof.
  intros Hx. unfold round2. destruct (Prim2SF x) as [| | |s m e]; try exact Hx.
  destruct (_ <? 2 ^ 53); [|exact Hx].
  set (q := if 0 <=? e then _ else _).
  assert (H : PrimFloat.is_nan (float_of_int q / 100) = false).
  { eapply div_number; [apply float_of_int_number | vm_compute; reflexivity]. }
  destruct s; [|exact H].
  apply is_nan_Prim2SF. rewrite FloatAxioms.opp_spec. apply is_nan_Prim2SF in H.
  destruct (Prim2SF (float_of_int q / 100)); simpl; congruence.
Qed.

(** X30. The durations that [fetch_events] computes are numbers: the
    division of the difference of two instants and its rounding never give
    a NaN. So storing them cannot fail on the column that is NOT NULL: when
    every timed item of the answer has a [dateTime] at its end, [fetch]
    stores what [fetch_events] returned, one dictionary for each timed
    item, and reports their number, or that there is none. *)
Theorem fetch_stores_every_timed_item (items : list CalendarClient.ApiEvent) (db : DB) :
  (forall item, item ∈ items -> is_timed item = true ->
                CalendarClient.api_end item <> None) ->
  exists events db',
    CalendarClient.fetch_events (Ok items) = Ok events
    /\ length events = length (List.filter is_timed items)
    /\ (forall e, e ∈ events -> PrimFloat.is_nan (CalendarEvent.d_duration_hours e) = false)
    /\ CalendarEvent.bulk_insert events None db = Ok db'
    /\ fetch true (Ok items) db
       = match events with
         | [] => (db, Returned NoEventsFound)
         | _ :: _ => (db', Returned (EventsFound (length events)))
         end.
Proof.
  intros Hend.
  destruct (for_each CalendarClient.process_event items []) as [events|e] eqn:Hrun.
  2: { apply process_events_raise in Hrun as (_ & item & Hin & Ht & Hnone).
       destruct (Hend item Hin Ht Hnone). }
  destruct (process_events_inv _ _ _ Hrun) as (new & -> & HF). simpl in *.
  assert (Hnum : forall e, e ∈ new ->
                           PrimFloat.is_nan (CalendarEvent.d_duration_hours e) = false).
  { clear Hrun. induction HF as [|item ev its evs (s & e' & _ & ->) HF IH];
      intros e He; [inversion He|].
    apply elem_of_cons in He as [->|He]; [|apply IH, He].
    simpl. apply round2_number, hours_between_number. }
  destruct (bulk_insert_Ok new None db Hnum) as [db' Hins].
  assert (Hfetch : CalendarClient.fetch_events (Ok items) = Ok new).
  { unfold CalendarClient.fetch_events. cbn [mbind res_bind]. rewrite Hrun. reflexivity. }
  exists new, db'. split; [exact Hfetch|].
  split; [symmetry; eapply Forall2_length, HF|]. split; [exact Hnum|].
  split; [exact Hins|]. unfold fetch. cbn [negb]. rewrite Hfetch.
  destruct new as [|e0 new0]; [reflexivity|]. rewrite Hins. reflexivity.
Qed.

Lemma fetch_stores_every_timed_item_witness :
  exists events db',
    CalendarClient.fetch_events (Ok [Sample.zero_length; Sample.fifty_minutes]) = Ok events
    /\ length events = 2%nat
    /\ fetch true (Ok [Sample.zero_length; Sample.fifty_minutes]) Sample.db1
       = (db', Returned (EventsFound 2)).
Proof.
  destruct (fetch_stores_every_timed_item [Sample.zero_length; Sample.fifty_minutes]
              Sample.db1)
    as (events & db' & Hfetch & Hlen & _ & _ & Hrun).
  - intros item Hin _.
    repeat (apply elem_of_cons in Hin as [->|Hin]; [discriminate|]). inversion Hin.
  - exists events, db'. split; [exact Hfetch|]. split; [exact Hlen|].
    destruct events as [|e0 events0]; [discriminate Hlen|].
    rewrite Hrun. simpl in Hlen. injection Hlen as Hlen. simpl. rewrite Hlen. reflexivity.
Defined.
